(** * GPTLov: the retrieval pipeline of [gptlov]

    A shallow embedding of [gptlov/settings.py], [gptlov/index.py],
    [gptlov/bot.py] and [gptlov/data_pipeline.py], and of the settings of
    the older [lovchat] package, followed by the properties of the
    configuration, retrieval, persistence and acquisition code.

    Conventions.
    - A Python call that may raise returns a [result]; a call that also
      touches the file system or the network runs in the monad [io], which
      keeps the state reached when the exception was raised.
    - Floating-point scores are finite doubles; they are modelled by the
      rationals they denote, so comparisons agree with those of the code.
    - scikit-learn, numpy, joblib, tarfile/zipfile and the OpenAI client are
      libraries outside the repository: they are the fields of the classes
      [SciLibs] and [Archives] and of the oracles passed to the
      functions, constrained only by the part of their contract the code
      relies on. *)

From Stdlib Require Import ZArith QArith List String Ascii Lia.
From Stdlib Require Import Sorting.Sorted Sorting.Permutation.
From stdpp Require Import base option list sorting gmap strings.

Set Default Proof Using "Type".
Local Open Scope Z_scope.

(** ** Python values, exceptions and small built-ins *)

Module Py.

Inductive exn : Type :=
| ValueError (msg : string)
| KeyError (key : string)
| IndexError
| TypeError
| RuntimeError (msg : string)
| FileNotFoundError (msg : string)
| OSError (msg : string)
| HTTPStatusError (status : Z)
| TransportError
| TooManyRedirects
| ArchiveError
| UnpicklingError
| AttributeError
| APIError.

Inductive result (A : Type) : Type :=
| Ok (a : A)
| Raise (e : exn).
Arguments Ok {A} a.
Arguments Raise {A} e.

#[global] Instance result_ret : MRet result := fun _ a => Ok a.
#[global] Instance result_bind : MBind result := fun _ _ f r =>
  match r with Ok a => f a | Raise e => Raise e end.
#[global] Instance result_fmap : FMap result := fun _ _ f r =>
  match r with Ok a => Ok (f a) | Raise e => Raise e end.

(** A [for] loop that appends one value per element and lets the first
    exception escape. *)
Fixpoint for_each {A B : Type} (f : A -> result B) (l : list A)
  : result (list B) :=
  match l with
  | [] => Ok []
  | x :: l' =>
      match f x with
      | Raise e => Raise e
      | Ok y => match for_each f l' with
                | Raise e => Raise e
                | Ok ys => Ok (y :: ys)
                end
      end
  end.

(** The values held by the metadata dictionaries. *)
Inductive pyval : Type :=
| PyNone
| PyStr (s : string)
| PyFloat (q : Q).

#[global] Instance pyval_inhabited : Inhabited pyval := populate PyNone.

(** Truthiness, as far as [or] needs it. *)
Definition truthy (v : pyval) : bool :=
  match v with
  | PyNone => false
  | PyStr s => negb (String.eqb s "")
  | PyFloat q => negb (Qeq_bool q 0)
  end.

(** [a or b] *)
Definition or_ (a b : pyval) : pyval := if truthy a then a else b.

(** [top_k or default] on [int | None] *)
Definition or_int (a : option Z) (b : Z) : Z :=
  match a with
  | None => b
  | Some k => if Z.eqb k 0 then b else k
  end.

(** [l[:k]]: the first [k] elements, or all but the last [-k] ones. *)
Definition slice_to {A : Type} (k : Z) (l : list A) : list A :=
  if Z.leb 0 k then firstn (Z.to_nat k) l
  else firstn (length l - Z.to_nat (- k))%nat l.

(** [l[idx]] for a non-negative index *)
Definition getitem {A : Type} (l : list A) (idx : nat) : result A :=
  match l !! idx with
  | Some x => Ok x
  | None => Raise IndexError
  end.

(** [d[key]] and [d.get(key)] *)
Definition dict_getitem (d : gmap string pyval) (key : string) : result pyval :=
  match d !! key with
  | Some v => Ok v
  | None => Raise (KeyError key)
  end.

Definition dict_get (d : gmap string pyval) (key : string) : pyval :=
  default PyNone (d !! key).

(** [sep.join(parts)] on strings that are already known to be [str] *)
Fixpoint join (sep : string) (parts : list string) : string :=
  match parts with
  | [] => EmptyString
  | [p] => p
  | p :: rest => String.append p (String.append sep (join sep rest))
  end.

(** [str.join] raises [TypeError] on an item that is not a [str]. *)
Definition as_str (v : pyval) : result string :=
  match v with
  | PyStr s => Ok s
  | _ => Raise TypeError
  end.

Definition join_vals (sep : string) (parts : list pyval) : result string :=
  join sep <$> for_each as_str parts.

End Py.
Export Py.

(** ** The file system and the network *)

Module Os.

(** A path is the list of its components, innermost first: the parent of
    [name :: dir] is [dir], and [dir / name] is [name :: dir]. The root is
    [[]]. *)
Abbreviation path := (list string).

Inductive node : Type :=
| File (data : list Byte.byte)
| Dir.

Abbreviation files_t := (gmap (list string) node).

(** The status codes for which [httpx] takes a response with a [Location]
    header for a redirect. *)
Inductive redirect_code : Type :=
| Moved301
| Found302
| SeeOther303
| Temporary307
| Permanent308.

Definition code_status (code : redirect_code) : Z :=
  match code with
  | Moved301 => 301
  | Found302 => 302
  | SeeOther303 => 303
  | Temporary307 => 307
  | Permanent308 => 308
  end.

(** What the server does with a GET: the connection fails; or a response
    arrives with a status code and a body that is delivered in chunks and
    either completes or breaks off after the chunks listed; or the
    response is a redirect, one of the codes above with a [Location]
    header, [location] being the URL that a client which follows it
    requests next. A 3xx response without that header is a [Response]. *)
Inductive response : Type :=
| ConnectError
| Response (status : Z) (chunks : list (list Byte.byte)) (complete : bool)
| Redirect (code : redirect_code) (location : string).

Record world : Type := World {
  files : files_t;
  requests : list string   (* URLs requested so far, oldest first *)
}.

(** State and exceptions: an exception keeps the state reached so far. *)
Definition io (A : Type) : Type := world -> result A * world.

Definition ret {A : Type} (a : A) : io A := fun w => (Ok a, w).
Definition raise {A : Type} (e : exn) : io A := fun w => (Raise e, w).
Definition bind {A B : Type} (m : io A) (k : A -> io B) : io B :=
  fun w => match m w with
           | (Ok a, w') => k a w'
           | (Raise e, w') => (Raise e, w')
           end.
Definition lift {A : Type} (r : result A) : io A := fun w => (r, w).

(** Run a file-system primitive on the [files] component. *)
Definition on_files (f : files_t -> result files_t) : io unit :=
  fun w => match f (files w) with
           | Ok fs' => (Ok tt, World fs' (requests w))
           | Raise e => (Raise e, w)
           end.

Definition stat (fs : files_t) (p : path) : option node :=
  match p with
  | [] => Some Dir
  | _ => fs !! p
  end.

(** [p.exists()] *)
Definition exists_ (fs : files_t) (p : path) : bool :=
  match stat fs p with Some _ => true | None => false end.

Definition path_exists (p : path) : io bool :=
  fun w => (Ok (exists_ (files w) p), w).

(** [p.mkdir(parents=True, exist_ok=True)]: nothing to do for a directory,
    an error for a file, otherwise the parent first and then [p]. *)
Fixpoint mkdir_p (p : path) (fs : files_t) : result files_t :=
  match stat fs p with
  | Some Dir => Ok fs
  | Some (File _) => Raise (OSError "FileExistsError")
  | None =>
      match p with
      | [] => Ok fs
      | _ :: parent =>
          match mkdir_p parent fs with
          | Ok fs' => Ok (<[p := Dir]> fs')
          | Raise e => Raise e
          end
      end
  end.

(** [p.unlink()] *)
Definition unlink (p : path) (fs : files_t) : result files_t :=
  match stat fs p with
  | Some (File _) => Ok (delete p fs)
  | Some Dir => Raise (OSError "IsADirectoryError")
  | None => Raise (FileNotFoundError "unlink")
  end.

(** [q] is [p] or lies below it. *)
Definition under (p q : path) : Prop := p `suffix_of` q.

(** [shutil.rmtree(p, ignore_errors)] *)
Definition rmtree (ignore_errors : bool) (p : path) (fs : files_t)
  : result files_t :=
  match stat fs p with
  | Some Dir => Ok (filter (fun e => ~ under p (fst e)) fs)
  | Some (File _) =>
      if ignore_errors then Ok fs else Raise (OSError "NotADirectoryError")
  | None =>
      if ignore_errors then Ok fs else Raise (FileNotFoundError "rmtree")
  end.

(** [p.open("wb")]: the parent must be a directory and [p] must not be
    one; the file is created or truncated. *)
Definition open_wb (p : path) (fs : files_t) : result files_t :=
  match p with
  | [] => Raise (OSError "IsADirectoryError")
  | _ :: parent =>
      match stat fs parent with
      | Some Dir =>
          match fs !! p with
          | Some Dir => Raise (OSError "IsADirectoryError")
          | _ => Ok (<[p := File []]> fs)
          end
      | Some (File _) => Raise (OSError "NotADirectoryError")
      | None => Raise (FileNotFoundError "open")
      end
  end.

(** [handle.write(chunk)] on the file opened at [p] *)
Definition write (p : path) (chunk : list Byte.byte) (fs : files_t) : files_t :=
  match fs !! p with
  | Some (File data) => <[p := File (data ++ chunk)]> fs
  | _ => fs
  end.

(** [for chunk in response.iter_bytes(): handle.write(chunk)]: every chunk
    that arrives is written; a body that breaks off raises afterwards. *)
Definition write_body (p : path) (chunks : list (list Byte.byte))
    (complete : bool) : io unit :=
  fun w =>
    let fs' := foldl (fun fs c => write p c fs) (files w) chunks in
    (if complete then Ok tt else Raise TransportError,
     World fs' (requests w)).

(** [httpx.stream("GET", url, ...)] as [download_archive] calls it,
    without [follow_redirects]: the request is recorded; a failed
    connection raises; a redirect is a response like any other, with its
    3xx status. *)
Definition httpx_stream (server : string -> response) (url : string)
  : io (Z * list (list Byte.byte) * bool) :=
  fun w =>
    let w' := World (files w) (requests w ++ [url]) in
    match server url with
    | ConnectError => (Raise TransportError, w')
    | Response status chunks complete => (Ok (status, chunks, complete), w')
    | Redirect code _ => (Ok (code_status code, [], true), w')
    end.

(** [max_redirects] of the client that [httpx.stream] creates. *)
Definition MAX_REDIRECTS : nat := 20.

(** [httpx.stream("GET", url, follow_redirects=True, ...)]: every request
    is recorded; a redirect is followed to its location, and one that
    comes after [max_redirects] have been followed raises
    [TooManyRedirects]. *)
Fixpoint follow (server : string -> response) (url : string)
    (redirects_left : nat) : io (Z * list (list Byte.byte) * bool) :=
  fun w =>
    let w' := World (files w) (requests w ++ [url]) in
    match server url with
    | ConnectError => (Raise TransportError, w')
    | Response status chunks complete => (Ok (status, chunks, complete), w')
    | Redirect _ location =>
        match redirects_left with
        | O => (Raise TooManyRedirects, w')
        | S n => follow server location n w'
        end
    end.

Definition httpx_stream_follow (server : string -> response) (url : string)
  : io (Z * list (list Byte.byte) * bool) :=
  follow server url MAX_REDIRECTS.

(** [response.is_success]: the status is 2xx. *)
Definition success (status : Z) : bool :=
  Z.leb 200 status && Z.leb status 299.

(** [response.raise_for_status()]: anything but 2xx raises. *)
Definition raise_for_status (status : Z) : result unit :=
  if success status then Ok tt else Raise (HTTPStatusError status).

(** Re-root [q], which lies under [src], at [dst]. *)
Definition reroot (src dst q : path) : path :=
  take (length q - length src)%nat q ++ dst.

(** [shutil.move(src, dst)] where [dst] does not exist: a rename of the
    file, or of the directory with everything below it. An existing
    directory [dst] receives [src] under its own name. *)
Definition move (src dst : path) (fs : files_t) : result files_t :=
  match stat fs src, src with
  | None, _ | _, [] => Raise (FileNotFoundError "move")
  | Some n, name :: _ =>
      let dst' := match stat fs dst with
                  | Some Dir => name :: dst
                  | _ => dst
                  end in
      match stat fs (tail dst') with
      | Some Dir =>
          let moved := filter (fun e => under src (fst e)) fs in
          let kept := filter (fun e => ~ under src (fst e)) fs in
          Ok (list_to_map
                ((fun e => (reroot src dst' (fst e), snd e)) <$> map_to_list moved)
              ∪ kept)
      | _ => Raise (FileNotFoundError "move")
      end
  end.

(** [list(d.rglob(name))]: everything strictly below [d] called [name]. *)
Definition rglob (d : path) (name : string) (fs : files_t) : list path :=
  filter (fun q => under d q /\ q ≠ d /\ head q = Some name)
         (fst <$> map_to_list fs).

End Os.
Export Os.

Declare Scope io_scope.
Delimit Scope io_scope with io.
Notation "x <- m ;; k" := (Os.bind m (fun x => k))
  (at level 100, m at next level, right associativity) : io_scope.
Notation "m ;; k" := (Os.bind m (fun _ => k))
  (at level 100, right associativity) : io_scope.

(** ** Strings *)

Module Str.

Definition lower_ascii (c : ascii) : ascii :=
  let n := nat_of_ascii c in
  if (65 <=? n)%nat && (n <=? 90)%nat then ascii_of_nat (n + 32) else c.

(** [s.lower()], on the ASCII letters (the suffixes tested below are ASCII
    and no other character lowers to one of their letters in place). *)
Fixpoint lower (s : string) : string :=
  match s with
  | EmptyString => EmptyString
  | String c s' => String (lower_ascii c) (lower s')
  end.

(** [s.endswith(suffix)] *)
Definition endswith (s suffix : string) : bool :=
  let n := String.length s in
  let m := String.length suffix in
  (m <=? n)%nat && String.eqb (substring (n - m) m s) suffix.

(** [s.endswith((a, b, ...))] *)
Definition endswith_any (s : string) (suffixes : list string) : bool :=
  existsb (endswith s) suffixes.

(** The strings are UTF-8 text. White space is what [str.isspace] holds
    for; in one byte these are the ASCII characters below. *)
Definition is_space (c : ascii) : bool :=
  let n := nat_of_ascii c in
  ((9 <=? n)%nat && (n <=? 13)%nat) || ((28 <=? n)%nat && (n <=? 32)%nat).

(** White space that takes two bytes: U+0085 and U+00A0. *)
Definition is_space2 (c1 c2 : ascii) : bool :=
  (nat_of_ascii c1 =? 194)%nat
  && ((nat_of_ascii c2 =? 133)%nat || (nat_of_ascii c2 =? 160)%nat).

(** White space that takes three bytes: U+1680, U+2000 to U+200A, U+2028,
    U+2029, U+202F, U+205F and U+3000. *)
Definition is_space3 (c1 c2 c3 : ascii) : bool :=
  let n1 := nat_of_ascii c1 in
  let n2 := nat_of_ascii c2 in
  let n3 := nat_of_ascii c3 in
  ((n1 =? 225)%nat && (n2 =? 154)%nat && (n3 =? 128)%nat)
  || ((n1 =? 226)%nat && (n2 =? 128)%nat
      && (((128 <=? n3)%nat && (n3 <=? 138)%nat)
          || (n3 =? 168)%nat || (n3 =? 169)%nat || (n3 =? 175)%nat))
  || ((n1 =? 226)%nat && (n2 =? 129)%nat && (n3 =? 159)%nat)
  || ((n1 =? 227)%nat && (n2 =? 128)%nat && (n3 =? 128)%nat).

(** [s] after its first character, if that is white space. *)
Definition space_prefix (s : string) : option string :=
  match s with
  | String c1 s1 =>
      if is_space c1 then Some s1
      else
        match s1 with
        | String c2 s2 =>
            if is_space2 c1 c2 then Some s2
            else
              match s2 with
              | String c3 s3 => if is_space3 c1 c2 c3 then Some s3 else None
              | EmptyString => None
              end
        | EmptyString => None
        end
  | EmptyString => None
  end.

(** [s.lstrip()] *)
Fixpoint lstrip (s : string) : string :=
  match s with
  | EmptyString => EmptyString
  | String c1 s1 =>
      if is_space c1 then lstrip s1
      else
        match s1 with
        | EmptyString => s
        | String c2 s2 =>
            if is_space2 c1 c2 then lstrip s2
            else
              match s2 with
              | EmptyString => s
              | String c3 s3 => if is_space3 c1 c2 c3 then lstrip s3 else s
              end
        end
  end.

(** [s.rstrip()]: the string up to the point from which only white space
    follows. *)
Fixpoint rstrip (s : string) : string :=
  match s with
  | EmptyString => EmptyString
  | String c s' =>
      if String.eqb (lstrip s) "" then EmptyString else String c (rstrip s')
  end.

(** [s.strip()] *)
Definition strip (s : string) : string := rstrip (lstrip s).

(** [str(path)] *)
Definition path_str (p : path) : string := join "/" (rev p).

End Str.
Export Str.

(** ** The libraries the code calls *)

(** The arguments given to [TfidfVectorizer(...)]. *)
Record TfidfParams : Type := {
  lowercase : bool;
  max_features : option Z;
  ngram_range : nat * nat
}.

(** The entries of the dictionary that [VectorStore.save] pickles. *)
Inductive field (V R : Type) : Type :=
| FVectorizer (v : V)
| FMatrix (m : list R)
| FMetadata (md : list (gmap string pyval)).
Arguments FVectorizer {V R} v.
Arguments FMatrix {V R} m.
Arguments FMetadata {V R} md.

(** scikit-learn, numpy and joblib, with the part of their contract that
    the code relies on. A matrix is the list of its rows; the query matrix
    returned by [transform([question])] has one row. *)
Class SciLibs : Type := {
  vectorizer_t : Type;
  row_t : Type;
  (** [TfidfVectorizer(...).fit_transform(texts)]: the fitted vectorizer
      and the document-term matrix, or an exception (empty vocabulary). *)
  fit_transform :
    TfidfParams -> list string -> result (vectorizer_t * list row_t);
  (** [vectorizer.transform([text])] *)
  transform : vectorizer_t -> string -> row_t;
  (** the cosine of two rows *)
  cosine : row_t -> row_t -> Q;
  (** [cosine_similarity(X, Y).ravel()] for a one-row [Y] *)
  cosine_similarity : list row_t -> row_t -> result (list Q);
  (** [np.argsort(scores)] *)
  argsort : list Q -> list nat;
  (** [str(x)] for a float [x] *)
  float_str : Q -> string;
  (** [joblib.dump] and [joblib.load], on the bytes of the file *)
  joblib_dumps : gmap string (field vectorizer_t row_t) -> list Byte.byte;
  joblib_loads :
    list Byte.byte -> result (gmap string (field vectorizer_t row_t));
  (** [fit_transform] is [fit] followed by [transform]: row [i] is the
      weight vector of [texts[i]]. *)
  fit_transform_rows : forall p texts v m,
    fit_transform p texts = Ok (v, m) -> m = List.map (transform v) texts;
  (** On a matrix with at least one row, one score per row. *)
  cosine_similarity_rows : forall X y,
    X <> [] -> cosine_similarity X y = Ok (List.map (fun r => cosine r y) X);
  (** [argsort] returns the indices of its argument, each once, ... *)
  argsort_perm : forall s,
    Permutation (argsort s) (seq 0 (length s));
  (** ... in ascending order of the values they point to. How equal
      values are ordered is not specified (the default sort kind is not
      stable). *)
  argsort_sorted : forall s,
    StronglySorted (fun i j => (nth i s 0 <= nth j s 0)%Q) (argsort s);
  (** What is dumped is what is loaded. *)
  joblib_roundtrip : forall b, joblib_loads (joblib_dumps b) = Ok b
}.

(** tarfile, zipfile and urllib. *)
Class Archives : Type := {
  (** [tar.extractall(dest)] after [tarfile.open(file, "r:*")]: the
      members written below [dest], as paths relative to it, and whether
      the extraction ran to its end. *)
  tar_members : list Byte.byte -> list (path * node) * bool;
  (** the same for [ZipFile(file).extractall(dest)] *)
  zip_members : list Byte.byte -> list (path * node) * bool;
  (** [Path(urlparse(url).path).suffixes], joined *)
  url_suffixes : string -> string
}.

(** ** [gptlov/settings.py] *)

Module Config.

(** [_getenv] with its variadic [names] and keyword [default]: the value
    of the first name that is set. *)
Fixpoint _getenv (env : gmap string string) (names : list string)
    (default : option string) : option string :=
  match names with
  | [] => default
  | name :: names' =>
      match env !! name with
      | Some value => Some value
      | None => _getenv env names' default
      end
  end.

Record Settings : Type := {
  raw_data_dir : path;
  workspace_dir : path;
  openai_model : string;
  top_k : Z;
  archives : list string
}.

(** [value or fallback] on [str | None] *)
Definition or_str (value : option string) (fallback : string) : string :=
  match value with
  | Some s => if String.eqb s "" then fallback else s
  | None => fallback
  end.

(** The field defaults of the dataclass, before [__post_init__]; [to_path]
    is [Path(...)] and [to_int] is [int(...)]. *)
Definition Settings_defaults (env : gmap string string)
    (to_path : string -> path) (to_int : string -> result Z)
  : result Settings :=
  match to_int (or_str (_getenv env ["GPTLOV_TOP_K"; "LOVCHAT_TOP_K"] None) "5") with
  | Raise e => Raise e
  | Ok k =>
      Ok {| raw_data_dir :=
              to_path (or_str (_getenv env ["GPTLOV_RAW_DATA_DIR"; "LOVCHAT_RAW_DATA_DIR"] None)
                              "data/raw");
            workspace_dir :=
              to_path (or_str (_getenv env ["GPTLOV_WORKSPACE_DIR"; "LOVCHAT_WORKSPACE_DIR"] None)
                              "data/workspace");
            openai_model :=
              or_str (_getenv env ["GPTLOV_OPENAI_MODEL"; "LOVCHAT_OPENAI_MODEL"] None)
                     "gpt-4o-mini";
            top_k := k;
            archives := [] |}
  end.

(** [s.split(sep)] for a one-character separator *)
Fixpoint split_on (sep : ascii) (cur : string) (s : string) : list string :=
  match s with
  | EmptyString => [cur]
  | String c s' =>
      if Ascii.eqb c sep then cur :: split_on sep EmptyString s'
      else split_on sep (String.append cur (String c EmptyString)) s'
  end.

(** [Settings.__post_init__]: the archive list of the environment, else
    the one given, else the two default archives. *)
Definition Settings_post_init (env : gmap string string) (self : Settings)
  : Settings :=
  let env_archives :=
    or_str (_getenv env ["GPTLOV_ARCHIVES"; "LOVCHAT_ARCHIVES"] None) "" in
  let with_archives names :=
    {| raw_data_dir := raw_data_dir self;
       workspace_dir := workspace_dir self;
       openai_model := openai_model self;
       top_k := top_k self;
       archives := names |} in
  if negb (String.eqb env_archives "") then
    with_archives
      (List.filter (fun part => negb (String.eqb part ""))
                   (List.map strip (split_on ","%char EmptyString env_archives)))
  else
    match archives self with
    | [] => with_archives ["gjeldende-lover.tar.bz2";
                           "gjeldende-sentrale-forskrifter.tar.bz2"]
    | _ => self
    end.

(** [Settings()] *)
Definition Settings_new (env : gmap string string)
    (to_path : string -> path) (to_int : string -> result Z)
  : result Settings :=
  Settings_post_init env <$> Settings_defaults env to_path to_int.

(** [Settings.ensure_directories] *)
Definition ensure_directories (settings : Settings) : io unit :=
  (on_files (mkdir_p (raw_data_dir settings)) ;;
   on_files (mkdir_p (workspace_dir settings)))%io.

End Config.
Export Config.

(** ** [lovchat/settings.py] *)

Module Lovchat.

(** [os.getenv(name, default)] *)
Definition getenv (env : gmap string string) (name fallback : string) : string :=
  match env !! name with
  | Some value => value
  | None => fallback
  end.

Record Settings : Type := {
  raw_data_dir : path;
  workspace_dir : path;
  openai_model : string;
  top_k : Z
}.

(** [Settings()]: the field defaults of the dataclass; [to_path] is
    [Path(...)] and [to_int] is [int(...)]. *)
Definition Settings_new (env : gmap string string)
    (to_path : string -> path) (to_int : string -> result Z)
  : result Settings :=
  match to_int (getenv env "LOVCHAT_TOP_K" "5") with
  | Raise e => Raise e
  | Ok k =>
      Ok {| raw_data_dir := to_path (getenv env "LOVCHAT_RAW_DATA_DIR" "data/raw");
            workspace_dir :=
              to_path (getenv env "LOVCHAT_WORKSPACE_DIR" "data/workspace");
            openai_model := getenv env "LOVCHAT_OPENAI_MODEL" "gpt-4o-mini";
            top_k := k |}
  end.

(** [Settings.ensure_directories] *)
Definition ensure_directories (settings : Settings) : io unit :=
  (on_files (mkdir_p (raw_data_dir settings)) ;;
   on_files (mkdir_p (workspace_dir settings)))%io.

End Lovchat.

(** ** [gptlov/index.py] *)

Module Index.
Section WithLibs.
Context `{SciLibs}.

(** [DocumentChunk], as [build_vector_store] reads it. *)
Record DocumentChunk : Type := {
  text : string;
  title : option string;
  refid : option string;
  source_path : path
}.

Record VectorStore : Type := {
  vectorizer : vectorizer_t;
  matrix : list row_t;
  metadata : list (gmap string pyval)
}.

Definition opt_str (o : option string) : pyval :=
  match o with Some s => PyStr s | None => PyNone end.

(** [joblib.dump(obj, path)] *)
Definition joblib_dump (obj : gmap string (field vectorizer_t row_t))
    (p : path) : io unit :=
  on_files (fun fs =>
    match open_wb p fs with
    | Ok fs' => Ok (write p (joblib_dumps obj) fs')
    | Raise e => Raise e
    end).

(** [joblib.load(path)] *)
Definition joblib_load (p : path)
  : io (gmap string (field vectorizer_t row_t)) :=
  fun w =>
    match stat (files w) p with
    | Some (File data) => (joblib_loads data, w)
    | Some Dir => (Raise (OSError "IsADirectoryError"), w)
    | None => (Raise (FileNotFoundError "load"), w)
    end.

(** [VectorStore.save] *)
Definition save (self : VectorStore) (p : path) : io unit :=
  (on_files (mkdir_p (tail p)) ;;
   joblib_dump
     (<["metadata" := FMetadata (metadata self)]>
        (<["matrix" := FMatrix (matrix self)]>
           (<["vectorizer" := FVectorizer (vectorizer self)]> ∅)))
     p)%io.

(** [bundle[key]] *)
Definition bundle_getitem (bundle : gmap string (field vectorizer_t row_t))
    (key : string) : result (field vectorizer_t row_t) :=
  match bundle !! key with
  | Some f => Ok f
  | None => Raise (KeyError key)
  end.

(** [cls(vectorizer, matrix, metadata)]. Python stores whatever it is
    given; an entry of another kind is not a store and is reported here as
    a [TypeError]. *)
Definition VectorStore_init (v m md : field vectorizer_t row_t)
  : result VectorStore :=
  match v, m, md with
  | FVectorizer v', FMatrix m', FMetadata md' =>
      Ok {| vectorizer := v'; matrix := m'; metadata := md' |}
  | _, _, _ => Raise TypeError
  end.

(** [VectorStore.load] *)
Definition load (p : path) : io VectorStore :=
  (bundle <- joblib_load p ;;
   lift (v ← bundle_getitem bundle "vectorizer";
         m ← bundle_getitem bundle "matrix";
         md ← bundle_getitem bundle "metadata";
         VectorStore_init v m md))%io.

(** The metadata dictionary built for one chunk. *)
Definition chunk_metadata (chunk : DocumentChunk) : gmap string pyval :=
  <["content" := PyStr (text chunk)]>
    (<["source_path" := PyStr (path_str (source_path chunk))]>
       (<["refid" := opt_str (refid chunk)]>
          (<["title" := opt_str (title chunk)]> ∅))).

(** [build_vector_store(chunks, workspace_dir, max_features)] *)
Definition build_vector_store (chunks : list DocumentChunk)
    (workspace_dir : path) (max_features : option Z) : io path :=
  match chunks with
  | [] => raise (ValueError "No document chunks provided. Did you extract the archives?")
  | _ =>
      let texts := List.map text chunks in
      let metadata := List.map chunk_metadata chunks in
      let params := {| lowercase := true;
                       max_features := max_features;
                       ngram_range := (1, 2)%nat |} in
      (fitted <- lift (fit_transform params texts) ;;
       let store := {| vectorizer := fst fitted;
                       matrix := snd fitted;
                       metadata := metadata |} in
       let p := "vector_store.pkl" :: workspace_dir in
       save store p ;;
       ret p)%io
  end.

End WithLibs.
End Index.
Export Index.

(** ** [gptlov/bot.py] *)

Module Bot.
Section WithLibs.
Context `{SciLibs}.

Record RetrievalResult : Type := {
  score : Q;
  content : pyval;
  metadata : gmap string pyval
}.

(** The client object: what it was constructed with. *)
Record OpenAI : Type := {
  api_key : string;
  base_url : option string
}.

(** The arguments of [client.chat.completions.create]. *)
Record ChatRequest : Type := {
  request_model : string;
  messages : list (string * string);   (* role, content *)
  temperature : Q
}.

(** The completion service: [response.choices[0].message.content], which
    may be [None], or an exception. *)
Definition completion_service : Type :=
  OpenAI -> ChatRequest -> result (option string).

Record GPTLovBot : Type := {
  store : VectorStore;
  model : string;
  _client : option OpenAI
}.

(** [GPTLovBot.__init__] *)
Definition GPTLovBot_init (settings : Settings) (store_path : path)
    (model : option string) : io GPTLovBot :=
  (st <- load store_path ;;
   ret {| store := st;
          model := or_str model (openai_model settings);
          _client := None |})%io.

(** [GPTLovBot._ensure_client]: the result and the bot afterwards. *)
Definition _ensure_client (self : GPTLovBot) (env : gmap string string)
  : result OpenAI * GPTLovBot :=
  match _client self with
  | Some client => (Ok client, self)
  | None =>
      let api_key := env !! "OPENAI_API_KEY" in
      let base_url := env !! "OPENAI_BASE_URL" in
      if String.eqb (or_str api_key "") ""
      then (Raise (RuntimeError "OPENAI_API_KEY is not set. Cannot generate model responses."),
            self)
      else
        let client :=
          if String.eqb (or_str base_url "") ""
          then {| api_key := or_str api_key ""; base_url := None |}
          else {| api_key := or_str api_key ""; base_url := base_url |} in
        (Ok client,
         {| store := store self; model := model self; _client := Some client |})
  end.

(** [GPTLovBot.retrieve] *)
Definition retrieve (settings : Settings) (self : GPTLovBot)
    (question : string) (top_k : option Z) : result (list RetrievalResult) :=
  let top_k := or_int top_k (Config.top_k settings) in
  let query_vector := transform (vectorizer (store self)) question in
  scores ← cosine_similarity (matrix (store self)) query_vector;
  let top_indices := slice_to top_k (rev (argsort scores)) in
  for_each
    (fun idx =>
       metadata ← getitem (Index.metadata (store self)) idx;
       content ← dict_getitem metadata "content";
       Ok {| score := nth idx scores 0%Q;
             content := content;
             metadata := delete "content" metadata |})
    top_indices.

(** [str(v)] inside an f-string *)
Definition format (v : pyval) : string :=
  match v with
  | PyNone => "None"
  | PyStr s => s
  | PyFloat q => float_str q
  end.

Definition NO_KEY_NOTICE : string :=
  String.append "No OpenAI API key configured. Here are the most relevant excerpts:"
                (String (ascii_of_nat 10) (String (ascii_of_nat 10) EmptyString)).

Definition nl : string := String (ascii_of_nat 10) EmptyString.
Definition nlnl : string := String.append nl nl.

Definition SYSTEM_PROMPT : string :=
  String.append
    "Du er GPTLov, en hjelpsom assistent som svarer på spørsmål om norske lover og "
    (String.append
       "sentrale forskrifter. Oppgi kun informasjon hentet fra konteksten. Hvis svaret "
       "ikke finnes i utdragene, si at du ikke er sikker.").

(** The label and text of one excerpt in the prompt. *)
Definition source_block (block : RetrievalResult) : string :=
  String.append "Kilde: "
    (String.append
       (format (or_ (or_ (dict_get (metadata block) "title")
                         (dict_get (metadata block) "refid"))
                    (dict_get (metadata block) "source_path")))
       (String.append nl (format (content block)))).

(** [GPTLovBot.generate_answer]: the answer, the bot afterwards and the
    requests sent to the completion service. *)
Definition generate_answer (self : GPTLovBot) (env : gmap string string)
    (service : completion_service) (question : string)
    (context_blocks : list RetrievalResult)
  : result string * GPTLovBot * list ChatRequest :=
  match _ensure_client self env with
  | (Raise (RuntimeError _), self') =>
      (context ← join_vals nlnl (List.map content context_blocks);
       Ok (String.append NO_KEY_NOTICE context),
       self', [])
  | (Raise e, self') => (Raise e, self', [])
  | (Ok client, self') =>
      let context_text := join nlnl (List.map source_block context_blocks) in
      let request :=
        {| request_model := model self';
           messages :=
             [("system", SYSTEM_PROMPT);
              ("user",
               String.append "Kontekst:"
                 (String.append nl
                    (String.append context_text
                       (String.append nlnl
                          (String.append "Spørsmål: "
                             (String.append question
                                (String.append nl "Svar på norsk.")))))))];
           temperature := (2 # 10)%Q |} in
      (match service client request with
       | Raise e => Raise e
       | Ok None => Raise AttributeError
       | Ok (Some reply) => Ok (strip reply)
       end,
       self', [request])
  end.

Record Answer : Type := {
  answer : string;
  contexts : list (gmap string pyval)
}.

(** One entry of ["contexts"]: the score, then the metadata, then the
    content, later keys replacing earlier ones. *)
Definition context_dict (block : RetrievalResult) : gmap string pyval :=
  <["content" := content block]>
    (metadata block ∪ {["score" := PyFloat (score block)]}).

(** [GPTLovBot.ask] *)
Definition ask (settings : Settings) (self : GPTLovBot)
    (env : gmap string string) (service : completion_service)
    (question : string) (top_k : option Z)
  : result Answer * GPTLovBot * list ChatRequest :=
  match retrieve settings self question top_k with
  | Raise e => (Raise e, self, [])
  | Ok context_blocks =>
      match generate_answer self env service question context_blocks with
      | (Raise e, self', calls) => (Raise e, self', calls)
      | (Ok text, self', calls) =>
          (Ok {| answer := text;
                 contexts := List.map context_dict context_blocks |},
           self', calls)
      end
  end.

End WithLibs.
End Bot.
Export Bot.

(** ** [gptlov/data_pipeline.py] *)

Module DataPipeline.
Section WithLibs.
Context `{Archives}.

Definition LOVDATA_BASE_URL : string := "https://api.lovdata.no/v1/publicData/get/".

Definition VECTOR_STORE_FILENAME : string := "vector_store.pkl".

Definition DEFAULT_ARCHIVES : list string :=
  ["gjeldende-lover.tar.bz2"; "gjeldende-sentrale-forskrifter.tar.bz2"].

(** [download_archive(filename, dest_dir)]; [server] answers the requests.
    The destination [dest_dir / filename] is the entry [filename] of
    [dest_dir], which is what [pathlib] gives for a plain file name (see
    [plain_name] below). The request is made without [follow_redirects],
    so a redirect is a response whose status is not 2xx. *)
Definition download_archive (server : string -> response)
    (filename : string) (dest_dir : path) : io path :=
  (on_files (mkdir_p dest_dir) ;;
   let destination := filename :: dest_dir in
   present <- path_exists destination ;;
   if (present : bool) then ret destination
   else
     let url := String.append LOVDATA_BASE_URL filename in
     resp <- httpx_stream server url ;;
     lift (raise_for_status (fst (fst resp))) ;;
     on_files (open_wb destination) ;;
     write_body destination (snd (fst resp)) (snd resp) ;;
     ret destination)%io.

(** The loop of [ensure_archives]. *)
Fixpoint ensure_archives_loop (server : string -> response)
    (raw_dir : path) (force : bool) (filenames : list string)
    (paths : list path) : io (list path) :=
  match filenames with
  | [] => ret paths
  | name :: rest =>
      let destination := name :: raw_dir in
      (present <- path_exists destination ;;
       (if force && present then on_files (unlink destination) else ret tt) ;;
       p <- download_archive server name raw_dir ;;
       ensure_archives_loop server raw_dir force rest (paths ++ [p]))%io
  end.

(** [ensure_archives(filenames, force)] *)
Definition ensure_archives (settings : Settings) (server : string -> response)
    (filenames : option (list string)) (force : bool) : io (list path) :=
  let filenames :=
    match filenames with
    | Some names => names
    | None =>
        match archives settings with
        | [] => DEFAULT_ARCHIVES
        | names => names
        end
    end in
  let raw_dir := raw_data_dir settings in
  ensure_archives_loop server raw_dir force filenames [].

(** Where [extractall] puts one member: below [dest], at its relative
    path; the entry for [dest] itself is skipped. *)
Definition place (dest : path) (fs : files_t) (m : path * node) : files_t :=
  match fst m with
  | [] => fs
  | _ => <[fst m ++ dest := snd m]> fs
  end.

(** The body of a [with tarfile.open(...)] or [with ZipFile(...)] block
    around [extractall(dest)]: each member is written below [dest]; an
    extraction that does not reach its end raises after the members it
    wrote. *)
Definition extractall (members_of : list Byte.byte -> list (path * node) * bool)
    (archive dest : path) : io unit :=
  fun w =>
    match stat (files w) archive with
    | Some (File data) =>
        let fs' := foldl (place dest) (files w) (fst (members_of data)) in
        (if snd (members_of data) then Ok tt else Raise ArchiveError,
         World fs' (requests w))
    | Some Dir => (Raise (OSError "IsADirectoryError"), w)
    | None => (Raise (FileNotFoundError "archive"), w)
    end.

(** The inner function [_finalize] of [_download_prebuilt_vector_store]. *)
Definition _finalize (store_path src : path) : io path :=
  (present <- path_exists store_path ;;
   (if (present : bool) then on_files (unlink store_path) else ret tt) ;;
   on_files (move src store_path) ;;
   ret store_path)%io.

Definition TAR_SUFFIXES : list string := [".tar.gz"; ".tgz"; ".tar.bz2"; ".tar"].

(** [_download_prebuilt_vector_store(url, workspace_dir, force)]; the
    request is made with [follow_redirects=True]. *)
Definition _download_prebuilt_vector_store (server : string -> response)
    (url : string) (workspace_dir : path) (force : bool) : io path :=
  (on_files (mkdir_p workspace_dir) ;;
   let store_path := VECTOR_STORE_FILENAME :: workspace_dir in
   present <- path_exists store_path ;;
   if present && negb force then ret store_path
   else
     let archive_ext := url_suffixes url in
     let tmp_dir := ".vector_store_tmp" :: workspace_dir in
     stale <- path_exists tmp_dir ;;
     (if (stale : bool) then on_files (rmtree false tmp_dir) else ret tt) ;;
     on_files (mkdir_p tmp_dir) ;;
     let download_target :=
       String.append "download"
         (if String.eqb archive_ext "" then ".bin" else archive_ext)
       :: tmp_dir in
     resp <- httpx_stream_follow server url ;;
     lift (raise_for_status (fst (fst resp))) ;;
     on_files (open_wb download_target) ;;
     write_body download_target (snd (fst resp)) (snd resp) ;;
     let archive_ext_lower := lower archive_ext in
     let locate :=
       (candidates <- (fun w => (Ok (rglob tmp_dir VECTOR_STORE_FILENAME (files w)), w)) ;;
        match candidates with
        | [] =>
            raise (FileNotFoundError
                     (String.append "Downloaded archive from "
                        (String.append url
                           (String.append " did not contain " VECTOR_STORE_FILENAME))))
        | vector_path :: _ =>
            final_path <- _finalize store_path vector_path ;;
            on_files (rmtree true tmp_dir) ;;
            ret final_path
        end) in
     if endswith_any archive_ext_lower TAR_SUFFIXES then
       extractall tar_members download_target tmp_dir ;;
       on_files (unlink download_target) ;;
       locate
     else if endswith archive_ext_lower ".zip" then
       extractall zip_members download_target tmp_dir ;;
       on_files (unlink download_target) ;;
       locate
     else if negb (String.eqb archive_ext "") then
       final_path <- _finalize store_path download_target ;;
       on_files (rmtree true tmp_dir) ;;
       ret final_path
     else
       final_path <- _finalize store_path download_target ;;
       on_files (rmtree true tmp_dir) ;;
       ret final_path)%io.

End WithLibs.
End DataPipeline.
Export DataPipeline.

(** ** Stores that respect the alignment invariant *)

Section Alignment.
Context `{SciLibs}.

(** Row [i] of the matrix belongs to [metadata[i]], there is at least one
    document, and every record carries its text. *)
Definition aligned (st : VectorStore) : Prop :=
  matrix st <> []
  /\ length (Index.metadata st) = length (matrix st)
  /\ Forall (fun md => is_Some (md !! "content")) (Index.metadata st).

(** The scores of the documents of [st] for [question]. *)
Definition scores_of (st : VectorStore) (question : string) : list Q :=
  List.map (fun r => cosine r (transform (vectorizer st) question)) (matrix st).

(** The indices selected for [scores] and the top-K [k]. *)
Definition top_indices (scores : list Q) (k : Z) : list nat :=
  slice_to k (rev (argsort scores)).

(** [r] is the result that [retrieve] builds for document [i]. *)
Definition result_for (st : VectorStore) (scores : list Q) (i : nat)
    (r : RetrievalResult) : Prop :=
  exists md c,
    Index.metadata st !! i = Some md
    /\ md !! "content" = Some c
    /\ r = {| score := nth i scores 0%Q;
              content := c;
              metadata := delete "content" md |}.

(** [argsort] is stable: equal values keep the order of their indices. *)
Definition stable_argsort : Prop :=
  forall s,
    StronglySorted
      (fun i j => (nth i s 0 < nth j s 0)%Q
                  \/ ((nth i s 0 == nth j s 0)%Q /\ (i < j)%nat))
      (argsort s).

(** The bot after it has been asked the questions of [history], one after
    the other, in the environment [env]. *)
Definition asked (settings : Settings) (env : gmap string string)
    (service : completion_service) (self : GPTLovBot)
    (history : list (string * option Z)) : GPTLovBot :=
  foldl (fun bot qk =>
           snd (fst (ask settings bot env service (fst qk) (snd qk))))
        self history.

(** The store that [build_vector_store] constructs before it saves it. *)
Definition built_store (chunks : list DocumentChunk) (max_features : option Z)
  : result VectorStore :=
  match fit_transform {| lowercase := true;
                         max_features := max_features;
                         ngram_range := (1, 2)%nat |}
                      (List.map text chunks) with
  | Ok fitted => Ok {| vectorizer := fst fitted;
                       matrix := snd fitted;
                       Index.metadata := List.map chunk_metadata chunks |}
  | Raise e => Raise e
  end.

End Alignment.

(** ** Acquisition: names used in the statements *)

Section Acquisition.
Context `{Archives}.

(** The URL that [download_archive] requests for [filename]. *)
Definition archive_url (filename : string) : string :=
  String.append LOVDATA_BASE_URL filename.

(** The characters of a plain file name: ASCII letters, digits, and
    [.], [_] and [-]. *)
Definition name_char (c : ascii) : bool :=
  let n := nat_of_ascii c in
  ((48 <=? n)%nat && (n <=? 57)%nat)
  || ((65 <=? n)%nat && (n <=? 90)%nat)
  || ((97 <=? n)%nat && (n <=? 122)%nat)
  || (n =? 45)%nat || (n =? 46)%nat || (n =? 95)%nat.

(** A plain file name, as the names of the Lovdata archives are: one path
    component of at most 255 characters, none of them a separator, and
    not [.] or [..]. For such a name [dest_dir / filename] is the entry
    [filename :: dest_dir], and the URL made of it is requested as it is
    written. Other strings make [pathlib] build other paths (a name with
    [/] lies in a sub-directory, the empty name is [dest_dir] itself);
    the statements on where an archive lands are about plain names. *)
Definition plain_name (filename : string) : bool :=
  negb (String.eqb filename "")
  && negb (String.eqb filename ".")
  && negb (String.eqb filename "..")
  && (String.length filename <=? 255)%nat
  && forallb name_char (list_ascii_of_string filename).

(** The server has the archive [name]: it answers the request for it with
    a 2xx status and a body that arrives completely. *)
Definition delivers (server : string -> response) (name : string) : Prop :=
  exists status chunks,
    server (archive_url name) = Response status chunks true
    /\ success status = true.

(** What following the redirects from [url] ends in: the response that is
    not a redirect, or the exception. *)
Fixpoint fetch (server : string -> response) (url : string)
    (redirects_left : nat) : result (Z * list (list Byte.byte) * bool) :=
  match server url with
  | ConnectError => Raise TransportError
  | Response status chunks complete => Ok (status, chunks, complete)
  | Redirect _ location =>
      match redirects_left with
      | O => Raise TooManyRedirects
      | S n => fetch server location n
      end
  end.

(** The URLs requested on the way: [url], then the location of each
    redirect that is followed. *)
Fixpoint redirect_chain (server : string -> response) (url : string)
    (redirects_left : nat) : list string :=
  url ::
  match server url with
  | Redirect _ location =>
      match redirects_left with
      | O => []
      | S n => redirect_chain server location n
      end
  | _ => []
  end.

(** The locals [store_path], [tmp_dir] and [download_target] of
    [_download_prebuilt_vector_store]: the canonical artifact path, the
    scratch directory and the file that the download is written to. *)
Definition store_path (workspace_dir : path) : path :=
  VECTOR_STORE_FILENAME :: workspace_dir.

Definition tmp_dir (workspace_dir : path) : path :=
  ".vector_store_tmp" :: workspace_dir.

Definition download_target (url : string) (workspace_dir : path) : path :=
  String.append "download"
    (if String.eqb (url_suffixes url) "" then ".bin" else url_suffixes url)
  :: tmp_dir workspace_dir.


(** The message of the [FileNotFoundError] raised for an archive without
    artifact. *)
Definition not_found_message (url : string) : string :=
  String.append "Downloaded archive from "
    (String.append url (String.append " did not contain " VECTOR_STORE_FILENAME)).

(** The part of [_download_prebuilt_vector_store] that follows the
    download (from [archive_ext_lower] on): unpack if the URL names an
    archive, then put the artifact in place. [prebuilt_prefix] and
    [prebuilt_reaches_install] show that this is what the function runs
    once the body is in the scratch directory. *)
Definition install (url : string) (workspace_dir : path) : io path :=
  let archive_ext := url_suffixes url in
  let archive_ext_lower := lower archive_ext in
  let locate :=
    (candidates <- (fun w => (Ok (rglob (tmp_dir workspace_dir)
                                        VECTOR_STORE_FILENAME (files w)), w)) ;;
     match candidates with
     | [] => raise (FileNotFoundError (not_found_message url))
     | vector_path :: _ =>
         final_path <- _finalize (store_path workspace_dir) vector_path ;;
         on_files (rmtree true (tmp_dir workspace_dir)) ;;
         ret final_path
     end)%io in
  (if endswith_any archive_ext_lower TAR_SUFFIXES then
     extractall tar_members (download_target url workspace_dir)
                (tmp_dir workspace_dir) ;;
     on_files (unlink (download_target url workspace_dir)) ;;
     locate
   else if endswith archive_ext_lower ".zip" then
     extractall zip_members (download_target url workspace_dir)
                (tmp_dir workspace_dir) ;;
     on_files (unlink (download_target url workspace_dir)) ;;
     locate
   else if negb (String.eqb archive_ext "") then
     final_path <- _finalize (store_path workspace_dir)
                             (download_target url workspace_dir) ;;
     on_files (rmtree true (tmp_dir workspace_dir)) ;;
     ret final_path
   else
     final_path <- _finalize (store_path workspace_dir)
                             (download_target url workspace_dir) ;;
     on_files (rmtree true (tmp_dir workspace_dir)) ;;
     ret final_path)%io.




End Acquisition.

(** ** Names used in the statements of the further properties *)

Section Credential.
Context `{SciLibs}.

(** The bot can reach the completion service: it holds a client, or the
    environment has a key. *)
Definition has_credential (self : GPTLovBot) (env : gmap string string) : Prop :=
  is_Some (_client self) \/ or_str (env !! "OPENAI_API_KEY") "" <> EmptyString.

End Credential.

(** Whatever the outcome, [m] sends some of the requests [urls], in this
    order and each at most once, and no other request. *)
Definition emits {A : Type} (m : io A) (urls : list string) : Prop :=
  forall w r w',
    m w = (r, w') ->
    exists sent, requests w' = requests w ++ sent /\ sent `sublist_of` urls.

(** The names that [ensure_archives] works through: [filenames], or when
    it is [None] the archives of the settings, or when there are none the
    two default archives. *)
Definition wanted_archives (settings : Settings)
    (filenames : option (list string)) : list string :=
  match filenames with
  | Some names => names
  | None =>
      match archives settings with
      | [] => DEFAULT_ARCHIVES
      | names => names
      end
  end.

(** The settings that have a [GPTLOV_] and a [LOVCHAT_] variable. *)
Definition SETTING_NAMES : list string :=
  ["RAW_DATA_DIR"; "WORKSPACE_DIR"; "OPENAI_MODEL"; "TOP_K"; "ARCHIVES"].

(** The fields that [gptlov] shares with [lovchat]. *)
Definition legacy_view (s : Config.Settings) : Lovchat.Settings :=
  {| Lovchat.raw_data_dir := Config.raw_data_dir s;
     Lovchat.workspace_dir := Config.workspace_dir s;
     Lovchat.openai_model := Config.openai_model s;
     Lovchat.top_k := Config.top_k s |}.

(** [s] has no comma. *)
Definition no_comma (s : string) : Prop :=
  ~ In ","%char (list_ascii_of_string s).

(** ** A small instance of the libraries

    Used to evaluate the functions on concrete stores. Texts are split at
    spaces after lower-casing; a row is the list of the distinct
    vocabulary words of a text; the similarity of two rows is the square
    of the cosine of their indicator vectors, which orders rows as the
    cosine does and stays rational; [argsort] is an insertion sort, which
    is stable. *)

Module Demo.

Fixpoint split_spaces (cur : string) (s : string) : list string :=
  match s with
  | EmptyString => if String.eqb cur "" then [] else [cur]
  | String c s' =>
      if Ascii.eqb c " "%char
      then (if String.eqb cur "" then [] else [cur]) ++ split_spaces "" s'
      else split_spaces (String.append cur (String c EmptyString)) s'
  end.

Definition tokens (s : string) : list string :=
  remove_dups (split_spaces "" (lower s)).

Definition vocabulary (texts : list string) : list string :=
  remove_dups (concat (List.map tokens texts)).

Definition demo_transform (v : list string) (s : string) : list string :=
  filter (fun t => t ∈ v) (tokens s).

Definition demo_fit_transform (p : TfidfParams) (texts : list string)
  : result (list string * list (list string)) :=
  match vocabulary texts with
  | [] => Raise (ValueError "empty vocabulary")
  | v => Ok (v, List.map (demo_transform v) texts)
  end.

Definition demo_cosine (a b : list string) : Q :=
  match a, b with
  | [], _ | _, [] => 0%Q
  | _, _ =>
      let common := Z.of_nat (length (filter (fun t => t ∈ b) a)) in
      (common * common # Pos.of_nat (length a * length b))%Q
  end.

Definition demo_cosine_similarity (X : list (list string)) (y : list string)
  : result (list Q) :=
  match X with
  | [] => Raise (ValueError "Found array with 0 sample(s)")
  | _ => Ok (List.map (fun r => demo_cosine r y) X)
  end.

(** Insert index [i] before the first index whose value is not smaller. *)
Fixpoint insert_index (s : list Q) (i : nat) (l : list nat) : list nat :=
  match l with
  | [] => [i]
  | j :: l' =>
      if Qle_bool (nth i s 0%Q) (nth j s 0%Q) then i :: j :: l'
      else j :: insert_index s i l'
  end.

Definition demo_argsort (s : list Q) : list nat :=
  foldr (insert_index s) [] (seq 0 (length s)).

(** Bytes for a positive number, one per binary digit. *)
Fixpoint bytes_of_pos (p : positive) : list Byte.byte :=
  match p with
  | xH => []
  | xO p' => Byte.x00 :: bytes_of_pos p'
  | xI p' => Byte.x01 :: bytes_of_pos p'
  end.

Fixpoint pos_of_bytes (l : list Byte.byte) : option positive :=
  match l with
  | [] => Some xH
  | Byte.x00 :: l' => xO <$> pos_of_bytes l'
  | Byte.x01 :: l' => xI <$> pos_of_bytes l'
  | _ => None
  end.

#[global] Instance Q_eq_dec : EqDecision Q.
Proof. solve_decision. Defined.

#[global] Instance Q_countable : Countable Q :=
  inj_countable' (fun q => (Qnum q, Qden q)) (fun p => Qmake (fst p) (snd p))
                 (fun q => match q with Qmake _ _ => eq_refl end).

#[global] Instance pyval_eq_dec : EqDecision pyval.
Proof. solve_decision. Defined.

#[global] Instance pyval_countable : Countable pyval :=
  inj_countable'
    (fun v => match v with
              | PyNone => inl ()
              | PyStr s => inr (inl s)
              | PyFloat q => inr (inr q)
              end)
    (fun x => match x with
              | inl _ => PyNone
              | inr (inl s) => PyStr s
              | inr (inr q) => PyFloat q
              end)
    (fun v => match v with PyNone | PyStr _ | PyFloat _ => eq_refl end).

#[global] Instance field_eq_dec `{EqDecision V, EqDecision R} :
  EqDecision (field V R).
Proof. solve_decision. Defined.

#[global] Instance field_countable `{Countable V, Countable R} :
  Countable (field V R) :=
  inj_countable'
    (fun f => match f with
              | FVectorizer v => inl v
              | FMatrix m => inr (inl m)
              | FMetadata md => inr (inr md)
              end)
    (fun x => match x with
              | inl v => FVectorizer v
              | inr (inl m) => FMatrix m
              | inr (inr md) => FMetadata md
              end)
    (fun f => match f with
              | FVectorizer _ | FMatrix _ | FMetadata _ => eq_refl
              end).

Definition demo_dumps (b : gmap string (field (list string) (list string)))
  : list Byte.byte :=
  bytes_of_pos (encode b).

Definition demo_loads (data : list Byte.byte)
  : result (gmap string (field (list string) (list string))) :=
  match pos_of_bytes data ≫= decode with
  | Some b => Ok b
  | None => Raise UnpicklingError
  end.

(** The artifact name of a URL without query or fragment: what follows the
    first dot of the last segment. *)
Fixpoint from_first_dot (s : string) : string :=
  match s with
  | EmptyString => EmptyString
  | String c s' => if Ascii.eqb c "."%char then s else from_first_dot s'
  end.

Fixpoint last_segment (cur : string) (s : string) : string :=
  match s with
  | EmptyString => cur
  | String c s' =>
      if Ascii.eqb c "/"%char then last_segment "" s'
      else last_segment (String.append cur (String c EmptyString)) s'
  end.

Definition demo_url_suffixes (url : string) : string :=
  from_first_dot (last_segment "" url).

(** The archives of the examples: a first byte of 1 announces a
    directory [store] with the artifact [vector_store.pkl], whose bytes
    follow; a first byte of 0 announces a lone [README]; anything else is
    not an archive. *)
Definition demo_members (data : list Byte.byte) : list (path * node) * bool :=
  match data with
  | Byte.x01 :: rest =>
      ([(["store"], Dir); (["vector_store.pkl"; "store"], File rest)], true)
  | Byte.x00 :: rest => ([(["README"], File rest)], true)
  | _ => ([], false)
  end.

End Demo.

(** * Properties *)

(** ** The instance satisfies the contract of the libraries *)

Module DemoFacts.
Import Demo.

Lemma insert_index_perm s i l : Permutation (insert_index s i l) (i :: l).
Proof.
  induction l as [|j l IH]; simpl; [reflexivity|].
  destruct (Qle_bool _ _); [reflexivity|].
  rewrite IH. apply perm_swap.
Qed.

Lemma insertion_sort_perm s l : Permutation (foldr (insert_index s) [] l) l.
Proof.
  induction l as [|i l IH]; simpl; [reflexivity|].
  rewrite insert_index_perm. by constructor.
Qed.

Lemma demo_argsort_perm s : Permutation (demo_argsort s) (seq 0 (length s)).
Proof. apply insertion_sort_perm. Qed.

(** The order kept by the insertion sort: by value, then by index. *)
Definition lex (s : list Q) (i j : nat) : Prop :=
  (nth i s 0 < nth j s 0)%Q \/ ((nth i s 0 == nth j s 0)%Q /\ (i < j)%nat).

Lemma lex_trans s i j k : lex s i j -> lex s j k -> lex s i k.
Proof.
  unfold lex. intros [Hij|[Eij Lij]] [Hjk|[Ejk Ljk]].
  - left. eapply Qlt_trans; eauto.
  - left. by rewrite <- Ejk.
  - left. by rewrite Eij.
  - right. split; [by rewrite Eij | lia].
Qed.

Lemma insert_index_sorted s i l :
  Forall (fun j => (i < j)%nat) l ->
  StronglySorted (lex s) l ->
  StronglySorted (lex s) (insert_index s i l).
Proof.
  intros Hlt Hs. induction Hs as [|j l Hs IH Hj]; simpl.
  - repeat constructor.
  - inversion Hlt as [|? ? Hij Hlt']; subst.
    destruct (Qle_bool (nth i s 0%Q) (nth j s 0%Q)) eqn:E.
    + apply Qle_bool_iff in E.
      assert (lex s i j) as Hl.
      { destruct (Qle_lt_or_eq _ _ E) as [?|?]; [by left | by right]. }
      constructor; [by constructor|].
      constructor; [done|].
      eapply Forall_impl; [exact Hj|]. intros k Hk. by eapply lex_trans.
    + assert (nth j s 0 < nth i s 0)%Q as Hji.
      { apply Qnot_le_lt. intros Hle. apply Qle_bool_iff in Hle. congruence. }
      constructor; [by apply IH|].
      eapply Permutation_Forall; [symmetry; apply insert_index_perm|].
      constructor; [by left | done].
Qed.

Lemma demo_argsort_stable s : StronglySorted (lex s) (demo_argsort s).
Proof.
  unfold demo_argsort. generalize 0%nat as a, (length s) as n.
  intros a n. revert a.
  induction n as [|n IH]; intros a; simpl; [constructor|].
  apply insert_index_sorted; [|apply IH].
  rewrite insertion_sort_perm.
  apply Forall_forall. intros j Hj. apply list_elem_of_In, in_seq in Hj. lia.
Qed.

Lemma demo_argsort_sorted s :
  StronglySorted (fun i j => (nth i s 0 <= nth j s 0)%Q) (demo_argsort s).
Proof.
  pose proof (demo_argsort_stable s) as Hs.
  induction Hs as [|i l Hs IH Hi]; constructor; [done|].
  eapply Forall_impl; [exact Hi|].
  intros j [Hlt|[Heq _]]; [by apply Qlt_le_weak | by rewrite Heq; apply Qle_refl].
Qed.

Lemma pos_of_bytes_of_pos p : pos_of_bytes (bytes_of_pos p) = Some p.
Proof. induction p as [p IH|p IH|]; simpl; by rewrite ?IH. Qed.

Lemma demo_roundtrip b : demo_loads (demo_dumps b) = Ok b.
Proof.
  unfold demo_loads, demo_dumps. rewrite pos_of_bytes_of_pos. simpl.
  by rewrite decode_encode.
Qed.

End DemoFacts.

#[global] Instance demo_libs : SciLibs := {|
  vectorizer_t := list string;
  row_t := list string;
  fit_transform := Demo.demo_fit_transform;
  transform := Demo.demo_transform;
  cosine := Demo.demo_cosine;
  cosine_similarity := Demo.demo_cosine_similarity;
  argsort := Demo.demo_argsort;
  float_str := fun _ => "0.0";
  joblib_dumps := Demo.demo_dumps;
  joblib_loads := Demo.demo_loads;
  fit_transform_rows := ltac:(
    intros p texts v m; unfold Demo.demo_fit_transform;
    destruct (Demo.vocabulary texts); [discriminate|];
    intros [= <- <-]; reflexivity);
  cosine_similarity_rows := ltac:(intros [|r X] y HX; [done | reflexivity]);
  argsort_perm := DemoFacts.demo_argsort_perm;
  argsort_sorted := DemoFacts.demo_argsort_sorted;
  joblib_roundtrip := DemoFacts.demo_roundtrip
|}.

#[global] Instance demo_archives : Archives := {|
  tar_members := Demo.demo_members;
  zip_members := Demo.demo_members;
  url_suffixes := Demo.demo_url_suffixes
|}.

(** ** Lists, slices and loops *)

Section ListFacts.
Context {A B : Type}.

Lemma for_each_Forall2 (f : A -> result B) (R : A -> B -> Prop) (l : list A) :
  Forall (fun x => exists y, f x = Ok y /\ R x y) l ->
  exists ys, for_each f l = Ok ys /\ Forall2 R l ys.
Proof.
  induction 1 as [|x l (y & Hy & HR) _ (ys & Hys & HF)]; simpl.
  - exists []. by split; [|constructor].
  - exists (y :: ys). rewrite Hy, Hys. by split; [|constructor].
Qed.

Lemma slice_to_length (k : Z) (l : list A) :
  length (slice_to k l)
  = if Z.leb 0 k then Nat.min (Z.to_nat k) (length l)
    else (length l - Z.to_nat (- k))%nat.
Proof.
  unfold slice_to. destruct (Z.leb 0 k); rewrite length_take; lia.
Qed.

Lemma slice_to_prefix (k : Z) (l : list A) : exists n, slice_to k l = take n l.
Proof. unfold slice_to. destruct (Z.leb 0 k); eauto. Qed.

Lemma StronglySorted_rev (R : A -> A -> Prop) (l : list A) :
  StronglySorted R l -> StronglySorted (fun x y => R y x) (rev l).
Proof.
  induction 1 as [|x l Hs IH Hx]; simpl; [constructor|].
  apply StronglySorted_app. split_and!; [|done|repeat constructor].
  intros x1 x2 H1 H2. apply list_elem_of_singleton in H2 as ->.
  apply list_elem_of_In, in_rev, list_elem_of_In in H1.
  by eapply Forall_forall in Hx.
Qed.

Lemma StronglySorted_take (R : A -> A -> Prop) (n : nat) (l : list A) :
  StronglySorted R l -> StronglySorted R (take n l).
Proof.
  intros Hs. rewrite <- (take_drop n l) in Hs.
  by apply StronglySorted_app_1_l in Hs.
Qed.

Lemma StronglySorted_lookup (R : A -> A -> Prop) (l : list A) p p' a b :
  StronglySorted R l -> (p < p')%nat ->
  l !! p = Some a -> l !! p' = Some b -> R a b.
Proof.
  intros Hs. revert p p'.
  induction Hs as [|x l Hs IH Hx]; intros p p' Hlt Ha Hb; [done|].
  destruct p' as [|p']; [lia|]. simpl in Hb.
  destruct p as [|p]; simpl in Ha.
  - injection Ha as ->. eapply Forall_forall in Hx; [done|].
    by eapply list_elem_of_lookup_2.
  - eapply (IH p p'); [lia|done..].
Qed.

Lemma StronglySorted_Forall2 (P : A -> B -> Prop) (R : A -> A -> Prop)
    (R' : B -> B -> Prop) (l : list A) (k : list B) :
  (forall a b a' b', P a a' -> P b b' -> R a b -> R' a' b') ->
  Forall2 P l k -> StronglySorted R l -> StronglySorted R' k.
Proof.
  intros HR HF. induction HF as [|a a' l k Ha HF IH]; intros Hs; [constructor|].
  apply StronglySorted_inv in Hs as [Hs Hx].
  constructor; [by apply IH|].
  clear IH Hs. induction HF as [|b b' l k Hb HF IH]; [constructor|].
  inversion Hx; subst. constructor; eauto.
Qed.

End ListFacts.

(** ** The file system and the [io] monad *)

Section OsFacts.

Lemma open_wb_Ok (p : path) (fs fs' : files_t) :
  open_wb p fs = Ok fs' -> p <> [] /\ fs' = <[p := File []]> fs.
Proof.
  unfold open_wb. destruct p as [|name parent]; [done|].
  destruct (stat fs parent) as [[?|]|]; try done.
  destruct (fs !! (name :: parent)) as [[?|]|]; try done;
    by intros [= <-].
Qed.

Lemma write_insert (p : path) (data chunk : list Byte.byte) (fs : files_t) :
  write p chunk (<[p := File data]> fs) = <[p := File (data ++ chunk)]> fs.
Proof. unfold write. by rewrite lookup_insert_eq, insert_insert_eq. Qed.

Lemma stat_lookup (fs : files_t) (p : path) : p <> [] -> stat fs p = fs !! p.
Proof. by destruct p. Qed.

Lemma bind_inv {A B : Type} (m : io A) (k : A -> io B) (w w' : world)
    (r : result B) :
  bind m k w = (r, w') ->
  (exists a w1, m w = (Ok a, w1) /\ k a w1 = (r, w'))
  \/ (exists e, m w = (Raise e, w') /\ r = Raise e).
Proof.
  unfold bind. destruct (m w) as [[a|e] w1]; [eauto|].
  intros [= <- <-]. eauto.
Qed.

Lemma on_files_Ok (f : files_t -> result files_t) (w w' : world) (u : unit) :
  on_files f w = (Ok u, w') ->
  exists fs', f (files w) = Ok fs' /\ w' = World fs' (requests w).
Proof.
  unfold on_files. destruct (f (files w)) as [fs'|e]; [|done].
  intros [= _ <-]. eauto.
Qed.

Lemma on_files_Raise (f : files_t -> result files_t) (w w' : world) (e : exn) :
  on_files f w = (Raise e, w') -> f (files w) = Raise e /\ w' = w.
Proof.
  unfold on_files. destruct (f (files w)) as [fs'|e']; [done|].
  by intros [= <- <-].
Qed.

Lemma world_eta (w : world) : World (files w) (requests w) = w.
Proof. by destruct w. Qed.

Lemma stat_cons (fs : files_t) (name : string) (dir : path) :
  stat fs (name :: dir) = fs !! (name :: dir).
Proof. reflexivity. Qed.

Lemma exists_cons (fs : files_t) (name : string) (dir : path) :
  exists_ fs (name :: dir) = true <-> is_Some (fs !! (name :: dir)).
Proof.
  unfold exists_. rewrite stat_cons.
  destruct (fs !! (name :: dir)); split; (done || by intros []).
Qed.

Lemma cons_ne {A : Type} (x : A) (l : list A) : l <> x :: l.
Proof. intros E. apply (f_equal length) in E. simpl in E. lia. Qed.

Lemma stat_insert_ne (fs : files_t) (p q : path) (n : node) :
  p <> q -> stat (<[q := n]> fs) p = stat fs p.
Proof. intros Hne. destruct p; [done|]. simpl. by rewrite lookup_insert_ne. Qed.

Lemma stat_delete_ne (fs : files_t) (p q : path) :
  p <> q -> stat (delete q fs) p = stat fs p.
Proof. intros Hne. destruct p; [done|]. simpl. by rewrite lookup_delete_ne. Qed.

Lemma mkdir_p_is_dir (p : path) (fs : files_t) :
  stat fs p = Some Dir -> mkdir_p p fs = Ok fs.
Proof. intros Hp. destruct p; simpl in *; by rewrite ?Hp. Qed.

(** A successful [mkdir_p] makes [p] a directory, keeps every entry there
    was, and adds entries only at [p] and above it. *)
Lemma mkdir_p_Ok (p : path) (fs fs' : files_t) :
  mkdir_p p fs = Ok fs' ->
  stat fs' p = Some Dir
  /\ (forall q n, fs !! q = Some n -> fs' !! q = Some n)
  /\ (forall q, ~ q `suffix_of` p -> fs' !! q = fs !! q).
Proof.
  revert fs'. induction p as [|name parent IH]; intros fs'.
  - simpl. by intros [= <-].
  - simpl. destruct (fs !! (name :: parent)) as [[data|]|] eqn:Hp; [done| |].
    + intros [= <-]. by rewrite Hp.
    + destruct (mkdir_p parent fs) as [fs1|e]; [|done].
      intros [= <-]. destruct (IH fs1 eq_refl) as (_ & Hkeep & Hother).
      split; [apply lookup_insert_eq|]. split.
      * intros q n Hq. rewrite lookup_insert_ne by congruence. by apply Hkeep.
      * intros q Hq. rewrite lookup_insert_ne.
        -- apply Hother. intros Hs. apply Hq. by apply suffix_cons_r.
        -- intros <-. by apply Hq.
Qed.

Lemma write_body_insert (p : path) (data : list Byte.byte)
    (chunks : list (list Byte.byte)) (fs : files_t) :
  foldl (fun fs c => write p c fs) (<[p := File data]> fs) chunks
  = <[p := File (data ++ concat chunks)]> fs.
Proof.
  revert data. induction chunks as [|c chunks IH]; intros data; simpl.
  - by rewrite app_nil_r.
  - by rewrite write_insert, IH, <- app_assoc.
Qed.

(** Opening [p] for writing and copying the body into it. *)
Lemma open_write (p : path) (chunks : list (list Byte.byte)) (complete : bool)
    (w w1 w' : world) (r : result unit) :
  on_files (open_wb p) w = (Ok tt, w1) ->
  write_body p chunks complete w1 = (r, w') ->
  p <> []
  /\ files w' = <[p := File (concat chunks)]> (files w)
  /\ requests w' = requests w
  /\ r = if complete then Ok tt else Raise TransportError.
Proof.
  intros (fs1 & Hopen & ->)%on_files_Ok. unfold write_body. simpl.
  intros [= <- <-]. simpl.
  apply open_wb_Ok in Hopen as [Hp ->].
  by rewrite write_body_insert.
Qed.

End OsFacts.

(** ** Retrieval *)

Section RetrieveFacts.
Context `{SciLibs}.

Lemma top_indices_in_range (scores : list Q) (k : Z) (i : nat) :
  i ∈ top_indices scores k -> (i < length scores)%nat.
Proof.
  unfold top_indices. destruct (slice_to_prefix k (rev (argsort scores))) as [n ->].
  intros Hi. apply subseteq_take in Hi.
  apply list_elem_of_In, in_rev in Hi.
  eapply Permutation_in in Hi; [|apply argsort_perm].
  apply in_seq in Hi. lia.
Qed.

Lemma top_indices_sorted (scores : list Q) (k : Z) :
  StronglySorted (fun i j => (nth j scores 0 <= nth i scores 0)%Q)
                 (top_indices scores k).
Proof.
  unfold top_indices. destruct (slice_to_prefix k (rev (argsort scores))) as [n ->].
  apply StronglySorted_take.
  apply (StronglySorted_rev (fun i j => (nth i scores 0 <= nth j scores 0)%Q)).
  apply argsort_sorted.
Qed.

Lemma top_indices_length (scores : list Q) (k : Z) :
  length (top_indices scores k)
  = if Z.leb 0 k then Nat.min (Z.to_nat k) (length scores)
    else (length scores - Z.to_nat (- k))%nat.
Proof.
  unfold top_indices. rewrite slice_to_length, length_rev.
  by rewrite (Permutation_length (argsort_perm scores)), length_seq.
Qed.

Lemma scores_of_length (st : VectorStore) (question : string) :
  length (scores_of st question) = length (matrix st).
Proof. unfold scores_of. by rewrite length_map. Qed.

(** On an aligned store [retrieve] returns, for each selected index in
    turn, the result built from that document. *)
Lemma retrieve_aligned (settings : Settings) (self : GPTLovBot)
    (question : string) (k : option Z) :
  aligned (store self) ->
  exists rs,
    retrieve settings self question k = Ok rs
    /\ Forall2 (result_for (store self) (scores_of (store self) question))
               (top_indices (scores_of (store self) question)
                            (or_int k (Config.top_k settings)))
               rs.
Proof.
  intros (Hne & Hlen & Hcontent).
  unfold retrieve. rewrite (cosine_similarity_rows _ _ Hne).
  change (List.map _ (matrix (store self))) with (scores_of (store self) question).
  simpl. apply for_each_Forall2.
  apply Forall_forall. intros i Hi.
  apply top_indices_in_range in Hi. rewrite scores_of_length, <- Hlen in Hi.
  destruct (lookup_lt_is_Some_2 _ _ Hi) as [md Hmd].
  destruct (Forall_lookup_1 _ _ _ _ Hcontent Hmd) as [c Hc].
  exists {| score := nth i (scores_of (store self) question) 0%Q;
            content := c; metadata := delete "content" md |}.
  split; [|by exists md, c].
  unfold getitem. rewrite Hmd. simpl.
  unfold dict_getitem. by rewrite Hc.
Qed.

End RetrieveFacts.

(** ** Concrete stores *)

Module Examples.

Definition chunk (t name : string) : DocumentChunk :=
  {| text := t; title := Some name; refid := None;
     source_path := ["lover.xml"; "extracted"] |}.

(** The store that [build_vector_store] holds in memory for [chunks] with
    the libraries of [Demo]. *)
Definition store_of (chunks : list DocumentChunk) : VectorStore :=
  let v := Demo.vocabulary (List.map text chunks) in
  {| vectorizer := v;
     matrix := List.map (Demo.demo_transform v) (List.map text chunks);
     Index.metadata := List.map chunk_metadata chunks |}.

Definition bot_of (chunks : list DocumentChunk) : GPTLovBot :=
  {| store := store_of chunks; model := "gpt-4o-mini"; _client := None |}.

Definition settings5 : Settings :=
  {| raw_data_dir := ["raw"; "data"];
     workspace_dir := ["workspace"; "data"];
     openai_model := "gpt-4o-mini";
     top_k := 5;
     archives := [] |}.

Definition three_chunks : list DocumentChunk :=
  [chunk "Straff for tyveri er bot eller fengsel" "P1";
   chunk "Straff for bedrageri er fengsel" "P2";
   chunk "Arv og skifte" "P3"].

(** Two documents with the same text, hence the same score. *)
Definition twin_chunks : list DocumentChunk :=
  [chunk "Straff for tyveri" "first"; chunk "Straff for tyveri" "second"].

Definition result_of (scores : list Q) (i : nat) (c : DocumentChunk)
  : RetrievalResult :=
  {| score := nth i scores 0%Q;
     content := PyStr (text c);
     metadata := delete "content" (chunk_metadata c) |}.

End Examples.

(** ** Claims about [GPTLovBot.retrieve] *)

Section RetrieveClaims.
Context `{SciLibs}.

(** C1 (as amended). On every aligned store and for every question,
    [retrieve] returns its results in non-increasing score order. With
    [k] the top-K in force ([top_k] when it is given and not zero, else
    [settings.top_k]), the number of results is [min k n] for [n]
    documents when [k >= 0]; a negative [k] is a slice bound counted from
    the end and leaves [n - |k|] results. *)
Theorem retrieve_ranked_and_bounded (settings : Settings) (self : GPTLovBot)
    (question : string) (k : option Z) :
  aligned (store self) ->
  exists rs,
    retrieve settings self question k = Ok rs
    /\ StronglySorted (fun a b => (score b <= score a)%Q) rs
    /\ (0 <= or_int k (Config.top_k settings) ->
        length rs = Nat.min (Z.to_nat (or_int k (Config.top_k settings)))
                            (length (matrix (store self))))
    /\ (or_int k (Config.top_k settings) < 0 ->
        length rs = (length (matrix (store self))
                     - Z.to_nat (- or_int k (Config.top_k settings)))%nat).
Proof.
  intros Hal.
  destruct (retrieve_aligned settings self question k Hal) as (rs & Hrs & HF).
  exists rs. split; [done|].
  pose proof (Forall2_length _ _ _ HF) as Hlen.
  rewrite top_indices_length, scores_of_length in Hlen.
  split; [|split].
  - eapply StronglySorted_Forall2; [|exact HF|apply top_indices_sorted].
    intros i j a b (? & ? & _ & _ & ->) (? & ? & _ & _ & ->) Hij. exact Hij.
  - intros Hk. apply Z.leb_le in Hk. rewrite Hk in Hlen. by rewrite <- Hlen.
  - intros Hk. apply Z.leb_gt in Hk. rewrite Hk in Hlen. by rewrite <- Hlen.
Qed.

(** C2 (as amended). [retrieve] adds no tie-break of its own: the selected
    indices are those of [np.argsort], reversed. Of two results, the one
    ranked first is the document that [argsort] lists later; so with a
    stable [argsort], of two results with equal scores the one ranked
    first is the document with the larger original index. *)
Theorem retrieve_ties_descending_index (settings : Settings) (self : GPTLovBot)
    (question : string) (k : option Z) (rs : list RetrievalResult)
    (p p' : nat) (r r' : RetrievalResult) :
  aligned (store self) ->
  retrieve settings self question k = Ok rs ->
  (p < p')%nat ->
  rs !! p = Some r ->
  rs !! p' = Some r' ->
  exists i i' a a',
    result_for (store self) (scores_of (store self) question) i r
    /\ result_for (store self) (scores_of (store self) question) i' r'
    /\ argsort (scores_of (store self) question) !! a = Some i
    /\ argsort (scores_of (store self) question) !! a' = Some i'
    /\ (a' < a)%nat
    /\ (stable_argsort -> (score r == score r')%Q -> (i' < i)%nat).
Proof.
  intros Hal Hrs Hlt Hr Hr'.
  destruct (retrieve_aligned settings self question k Hal) as (rs0 & Hrs0 & HF).
  rewrite Hrs in Hrs0. injection Hrs0 as <-.
  destruct (Forall2_lookup_r _ _ _ _ _ HF Hr) as (i & Hi & Ri).
  destruct (Forall2_lookup_r _ _ _ _ _ HF Hr') as (i' & Hi' & Ri').
  set (scores := scores_of (store self) question) in *.
  unfold top_indices in Hi, Hi'.
  destruct (slice_to_prefix (or_int k (Config.top_k settings))
                            (rev (argsort scores))) as [n Hn].
  rewrite Hn in Hi, Hi'.
  apply lookup_take_Some in Hi as [Hi _], Hi' as [Hi' _].
  rewrite rev_alt in Hi, Hi'.
  apply reverse_lookup_Some in Hi as [Hi Hp], Hi' as [Hi' Hp'].
  assert (length (argsort scores) - S p' < length (argsort scores) - S p)%nat
    as Ha.
  { clear -Hlt Hp Hp'. revert Hp Hp'.
    generalize (length (argsort scores)). lia. }
  exists i, i', (length (argsort scores) - S p)%nat,
         (length (argsort scores) - S p')%nat.
  split_and!; try done.
  intros Hstable Heq.
  pose proof (StronglySorted_lookup _ _ _ _ _ _ (Hstable scores) Ha Hi' Hi)
    as [Hlt'|[_ Hidx]]; [|done].
  destruct Ri as (? & ? & _ & _ & ->), Ri' as (? & ? & _ & _ & ->).
  simpl in Heq. rewrite Heq in Hlt'. by apply Qlt_irrefl in Hlt'.
Qed.

(** C10 (as amended). A [top_k] of 0 counts as unset: [retrieve], and so
    [ask], behave as without the argument and use [settings.top_k]. On an
    aligned store the call returns; when that default is positive the
    result is not empty and has [min settings.top_k n] entries, and when
    the default is itself 0 the result is empty. *)
Theorem retrieve_top_k_zero_uses_default (settings : Settings)
    (self : GPTLovBot) (question : string) :
  retrieve settings self question (Some 0)
  = retrieve settings self question None
  /\ (forall env service,
        ask settings self env service question (Some 0)
        = ask settings self env service question None)
  /\ (aligned (store self) ->
      exists rs,
        retrieve settings self question (Some 0) = Ok rs
        /\ (0 < Config.top_k settings ->
            rs <> []
            /\ length rs = Nat.min (Z.to_nat (Config.top_k settings))
                                   (length (matrix (store self))))
        /\ (Config.top_k settings = 0 -> rs = [])).
Proof.
  split; [reflexivity|]. split; [reflexivity|].
  intros Hal.
  destruct (retrieve_aligned settings self question (Some 0) Hal)
    as (rs & Hrs & HF).
  exists rs. split; [done|].
  pose proof (Forall2_length _ _ _ HF) as Hlen.
  rewrite top_indices_length, scores_of_length in Hlen. simpl in Hlen.
  split.
  - intros Hk.
    assert ((0 <=? Config.top_k settings) = true) as Hle
      by (apply Z.leb_le; lia).
    rewrite Hle in Hlen.
    destruct Hal as (Hne & _).
    assert (length (matrix (store self)) <> 0%nat) as Hn.
    { by destruct (matrix (store self)). }
    split; [|by rewrite <- Hlen].
    intros ->. simpl in Hlen. lia.
  - intros Hk. rewrite Hk in Hlen. cbn in Hlen.
    destruct rs; [done|]. by destruct (length (matrix (store self))).
Qed.

End RetrieveClaims.

Module RetrieveExamples.
Import Examples.

Lemma chunk_metadata_content (c : DocumentChunk) :
  chunk_metadata c !! "content" = Some (PyStr (text c)).
Proof. unfold chunk_metadata. apply lookup_insert_eq. Qed.

Lemma store_of_aligned (chunks : list DocumentChunk) :
  chunks <> [] -> aligned (store_of chunks).
Proof.
  intros Hne. unfold aligned, store_of; simpl. split_and!.
  - by destruct chunks.
  - by rewrite !length_map.
  - apply Forall_forall. intros md Hmd.
    apply list_elem_of_In, in_map_iff in Hmd as (c & <- & _).
    rewrite chunk_metadata_content. by eexists.
Qed.

(** [retrieve] at a top-K of 2 on three documents. *)
Lemma retrieve_ranked_and_bounded_witness :
  exists rs,
    retrieve settings5 (bot_of three_chunks) "straff for tyveri" (Some 2) = Ok rs
    /\ StronglySorted (fun a b => (score b <= score a)%Q) rs
    /\ (0 <= 2 -> length rs = Nat.min (Z.to_nat 2) 3)
    /\ (2 < 0 -> length rs = (3 - Z.to_nat (- 2))%nat).
Proof.
  apply (retrieve_ranked_and_bounded settings5 (bot_of three_chunks)
           "straff for tyveri" (Some 2)).
  apply store_of_aligned. discriminate.
Defined.

(** C1 as stated fails for a negative top-K: [retrieve(question, -1)] on
    three documents returns two results, which is neither at most [-1] nor
    [min(-1, 3)]. *)
Lemma retrieve_negative_top_k_counterexample :
  let scores := scores_of (store_of three_chunks) "straff for tyveri" in
  exists rs,
    retrieve settings5 (bot_of three_chunks) "straff for tyveri" (Some (-1))
    = Ok rs
    /\ rs = [result_of scores 0 (chunk "Straff for tyveri er bot eller fengsel" "P1");
             result_of scores 1 (chunk "Straff for bedrageri er fengsel" "P2")]
    /\ ~ (Z.of_nat (length rs) <= -1)
    /\ Z.of_nat (length rs)
       <> Z.min (-1) (Z.of_nat (length (matrix (store_of three_chunks)))).
Proof.
  eexists. split; [vm_compute; reflexivity|].
  split; [vm_compute; reflexivity|].
  split; simpl; lia.
Qed.

(** C2 as stated fails: of two documents with equal scores the second is
    ranked first, and it is the one selected at a top-K of 1. *)
Lemma retrieve_equal_scores_counterexample :
  let scores := scores_of (store_of twin_chunks) "tyveri" in
  (nth 0 scores 0 == nth 1 scores 0)%Q
  /\ retrieve settings5 (bot_of twin_chunks) "tyveri" (Some 2)
     = Ok [result_of scores 1 (chunk "Straff for tyveri" "second");
           result_of scores 0 (chunk "Straff for tyveri" "first")]
  /\ retrieve settings5 (bot_of twin_chunks) "tyveri" (Some 1)
     = Ok [result_of scores 1 (chunk "Straff for tyveri" "second")]
  /\ retrieve settings5 (bot_of twin_chunks) "tyveri" (Some 2)
     <> Ok [result_of scores 0 (chunk "Straff for tyveri" "first");
            result_of scores 1 (chunk "Straff for tyveri" "second")].
Proof.
  split; [reflexivity|].
  split; [vm_compute; reflexivity|].
  split; [vm_compute; reflexivity|].
  vm_compute. intros Heq. discriminate Heq.
Qed.

(** The insertion sort of the instance is stable. *)
Lemma demo_stable_argsort : stable_argsort.
Proof. exact DemoFacts.demo_argsort_stable. Qed.

(** The two equal-scored documents of [twin_chunks] under the stable
    insertion sort: the one ranked first has the larger index. *)
Lemma retrieve_ties_descending_index_witness :
  let scores := scores_of (store_of twin_chunks) "tyveri" in
  exists i i',
    (i' < i)%nat
    /\ result_for (store_of twin_chunks) scores i
         (result_of scores 1 (chunk "Straff for tyveri" "second"))
    /\ result_for (store_of twin_chunks) scores i'
         (result_of scores 0 (chunk "Straff for tyveri" "first")).
Proof.
  intros scores.
  destruct (retrieve_ties_descending_index settings5 (bot_of twin_chunks)
              "tyveri" (Some 2)
              [result_of scores 1 (chunk "Straff for tyveri" "second");
               result_of scores 0 (chunk "Straff for tyveri" "first")]
              0 1 _ _
              (store_of_aligned twin_chunks ltac:(discriminate))
              ltac:(vm_compute; reflexivity) ltac:(lia) eq_refl eq_refl)
    as (i & i' & a & a' & Hr & Hr' & _ & _ & _ & Hstable).
  exists i, i'. split_and!; [|exact Hr|exact Hr'].
  apply Hstable; [exact demo_stable_argsort|reflexivity].
Defined.

(** A top-K of 0 on three documents with the default of 5. *)
Lemma retrieve_top_k_zero_uses_default_witness :
  exists rs,
    retrieve settings5 (bot_of three_chunks) "straff for tyveri" (Some 0) = Ok rs
    /\ rs <> []
    /\ length rs = Nat.min (Z.to_nat 5) 3.
Proof.
  destruct (retrieve_top_k_zero_uses_default settings5 (bot_of three_chunks)
              "straff for tyveri") as (_ & _ & Hrs).
  destruct Hrs as (rs & Hrs & Hpos & _).
  { apply store_of_aligned. discriminate. }
  exists rs. split; [exact Hrs|]. apply Hpos. reflexivity.
Defined.

(** Settings with a default top-K of 0, as [Settings()] has them when
    [GPTLOV_TOP_K] is set to 0. *)
Definition settings0 : Settings :=
  {| raw_data_dir := ["raw"; "data"];
     workspace_dir := ["workspace"; "data"];
     openai_model := "gpt-4o-mini";
     top_k := 0;
     archives := [] |}.

(** C10 as stated fails when the configured default is 0: with
    [GPTLOV_TOP_K=0] the settings have a [top_k] of 0, and [retrieve]
    with a [top_k] of 0 returns the empty list on three documents, as
    does [retrieve] without the argument; [ask] then answers without a
    context. *)
Lemma retrieve_zero_default_counterexample :
  (forall to_path,
     top_k <$> Settings_new {["GPTLOV_TOP_K" := "0"]} to_path
                 (fun s => if String.eqb s "0" then Ok 0
                           else Raise (ValueError "invalid literal for int()"))
     = Ok (top_k settings0))
  /\ aligned (store_of three_chunks)
  /\ retrieve settings0 (bot_of three_chunks) "straff for tyveri" (Some 0)
     = Ok []
  /\ retrieve settings0 (bot_of three_chunks) "straff for tyveri" None = Ok []
  /\ exists text,
       fst (fst (ask settings0 (bot_of three_chunks) ∅ (fun _ _ => Ok None)
                     "straff for tyveri" (Some 0)))
       = Ok {| answer := text; contexts := [] |}.
Proof.
  split; [intros to_path; vm_compute; reflexivity|].
  split; [apply store_of_aligned; discriminate|].
  split; [vm_compute; reflexivity|].
  split; [vm_compute; reflexivity|].
  eexists. vm_compute. reflexivity.
Qed.

End RetrieveExamples.

(** ** Persistence: [save], [load] and [build_vector_store] *)

Section IndexFacts.
Context `{SciLibs}.

Lemma joblib_dump_Ok obj (p : path) (w w' : world) :
  joblib_dump obj p w = (Ok tt, w') ->
  stat (files w') p = Some (File (joblib_dumps obj)).
Proof.
  unfold joblib_dump, on_files.
  destruct (open_wb p (files w)) as [fs'|e] eqn:E; [|done].
  apply open_wb_Ok in E as [Hp ->]. intros [= <-]. simpl.
  rewrite write_insert, stat_lookup by done. apply lookup_insert_eq.
Qed.

Lemma save_Ok (self : VectorStore) (p : path) (w w' : world) :
  save self p w = (Ok tt, w') -> load p w' = (Ok self, w').
Proof.
  unfold save, bind.
  destruct (on_files (mkdir_p (tail p)) w) as [[[]|e] w1]; [|done].
  intros Hdump%joblib_dump_Ok.
  unfold load, bind, joblib_load. rewrite Hdump, joblib_roundtrip.
  unfold lift, bundle_getitem.
  set (b := <["metadata" := _]> _).
  assert (b !! "vectorizer" = Some (FVectorizer (vectorizer self))) as ->
    by (by subst b; simplify_map_eq).
  assert (b !! "matrix" = Some (FMatrix (matrix self))) as ->
    by (by subst b; simplify_map_eq).
  assert (b !! "metadata" = Some (FMetadata (Index.metadata self))) as ->
    by (by subst b; simplify_map_eq).
  simpl. by destruct self.
Qed.

Lemma build_vector_store_Ok (chunks : list DocumentChunk) (workspace : path)
    (max_features : option Z) (w w' : world) (p : path) :
  build_vector_store chunks workspace max_features w = (Ok p, w') ->
  chunks <> []
  /\ p = "vector_store.pkl" :: workspace
  /\ exists st, built_store chunks max_features = Ok st
                /\ save st p w = (Ok tt, w').
Proof.
  unfold build_vector_store, built_store.
  destruct chunks as [|c chunks]; [done|]. set (cs := c :: chunks).
  unfold bind at 1, lift.
  destruct (fit_transform _ (List.map text cs)) as [[v m]|e]; [|done].
  unfold bind at 1. simpl fst. simpl snd.
  destruct (save _ _ w) as [[[]|e] w1] eqn:Hsave; [|done].
  intros [= <- <-]. split; [done|]. split; [done|]. eauto.
Qed.

(** If the workspace is a directory and the artifact path is not one,
    building from chunks that can be vectorized succeeds. *)
Lemma build_vector_store_succeeds (chunks : list DocumentChunk)
    (workspace : path) (max_features : option Z) (w : world) fitted :
  chunks <> [] ->
  fit_transform {| lowercase := true; max_features := max_features;
                   ngram_range := (1, 2)%nat |} (List.map text chunks)
  = Ok fitted ->
  stat (files w) workspace = Some Dir ->
  files w !! ("vector_store.pkl" :: workspace) <> Some Dir ->
  exists w',
    build_vector_store chunks workspace max_features w
    = (Ok ("vector_store.pkl" :: workspace), w').
Proof.
  intros Hne Hfit Hdir Hnd. unfold build_vector_store.
  destruct chunks as [|c chunks]; [done|]. set (cs := c :: chunks) in *.
  unfold bind at 1, lift. rewrite Hfit.
  unfold bind at 1, save, bind at 1, on_files at 1. simpl tail.
  assert (mkdir_p workspace (files w) = Ok (files w)) as ->.
  { destruct workspace; simpl in *; by rewrite ?Hdir. }
  unfold joblib_dump, on_files, open_wb. simpl files. rewrite Hdir.
  destruct (files w !! ("vector_store.pkl" :: workspace)) as [[?|]|];
    [eauto|done|eauto].
Qed.

End IndexFacts.

Section IndexClaims.
Context `{SciLibs}.

(** C3. On the empty chunk sequence [build_vector_store] raises its
    empty-corpus [ValueError] and leaves the file system as it was. *)
Theorem build_vector_store_empty (workspace : path) (max_features : option Z)
    (w : world) :
  build_vector_store [] workspace max_features w
  = (Raise (ValueError "No document chunks provided. Did you extract the archives?"),
     w).
Proof. reflexivity. Qed.

(** C5. After [save(path)] has written a store, [load(path)] returns that
    store; the bot built on it therefore computes the same scores and the
    same ranking for every question and top-K (joblib is taken to restore
    what it dumped). *)
Theorem load_after_save (self : VectorStore) (p : path) (w w' : world) :
  save self p w = (Ok tt, w') ->
  exists loaded,
    load p w' = (Ok loaded, w')
    /\ scores_of loaded = scores_of self
    /\ forall settings model client question k,
         retrieve settings
           {| store := loaded; model := model; _client := client |} question k
         = retrieve settings
             {| store := self; model := model; _client := client |} question k.
Proof.
  intros Hsave. exists self. split; [by eapply save_Ok|]. by split.
Qed.

(** C6. When [build_vector_store] has built a store from [chunks], the
    artifact loads to a store whose row [i] is the weight vector of
    [chunks[i].text] and whose [metadata[i]] is the record of that chunk,
    with its text under ["content"]; [retrieve] on it returns one result
    for each selected index, in ranking order, and the result for index
    [i] is the record of [chunks[i]], scored by the similarity of that
    chunk's row to the query and carrying that chunk's full text. *)
Theorem build_vector_store_alignment (chunks : list DocumentChunk)
    (workspace : path) (max_features : option Z) (w w' : world) (p : path) :
  build_vector_store chunks workspace max_features w = (Ok p, w') ->
  exists st,
    load p w' = (Ok st, w')
    /\ chunks <> []
    /\ length (matrix st) = length chunks
    /\ length (Index.metadata st) = length chunks
    /\ (forall i c, chunks !! i = Some c ->
          matrix st !! i = Some (transform (vectorizer st) (text c))
          /\ Index.metadata st !! i = Some (chunk_metadata c)
          /\ chunk_metadata c !! "content" = Some (PyStr (text c)))
    /\ (forall settings model client question k,
          exists rs,
            retrieve settings
              {| store := st; model := model; _client := client |} question k
            = Ok rs
            /\ Forall2
                 (fun i r => exists c,
                    chunks !! i = Some c
                    /\ content r = PyStr (text c)
                    /\ score r = cosine (transform (vectorizer st) (text c))
                                        (transform (vectorizer st) question)
                    /\ metadata r = delete "content" (chunk_metadata c))
                 (top_indices (scores_of st question)
                              (or_int k (Config.top_k settings)))
                 rs).
Proof.
  intros (Hne & -> & st & Hbuilt & Hsave)%build_vector_store_Ok.
  exists st. split; [by eapply save_Ok|]. split; [done|].
  unfold built_store in Hbuilt.
  destruct (fit_transform _ _) as [[v m]|e] eqn:Hfit; [|done].
  apply fit_transform_rows in Hfit as ->. injection Hbuilt as <-. simpl.
  assert (forall i c, chunks !! i = Some c ->
            List.map (transform v) (List.map text chunks) !! i
            = Some (transform v (text c))
            /\ List.map chunk_metadata chunks !! i = Some (chunk_metadata c)
            /\ chunk_metadata c !! "content" = Some (PyStr (text c))) as Hrows.
  { intros i c Hc. split_and!.
    - change (List.map (transform v) (List.map text chunks))
        with (transform v <$> (text <$> chunks)).
      by rewrite !list_lookup_fmap, Hc.
    - change (List.map chunk_metadata chunks) with (chunk_metadata <$> chunks).
      by rewrite list_lookup_fmap, Hc.
    - unfold chunk_metadata. apply lookup_insert_eq. }
  split; [by rewrite !length_map|]. split; [by rewrite length_map|].
  split; [exact Hrows|].
  intros settings model client question k.
  set (st := {| vectorizer := v;
                matrix := List.map (transform v) (List.map text chunks);
                Index.metadata := List.map chunk_metadata chunks |}).
  set (bot := {| store := st; model := model; _client := client |}).
  assert (aligned st) as Hal.
  { unfold aligned, st; simpl. split_and!.
    - by destruct chunks.
    - by rewrite !length_map.
    - apply Forall_forall. intros md Hmd.
      apply list_elem_of_In, in_map_iff in Hmd as (c & <- & _).
      unfold chunk_metadata. rewrite lookup_insert_eq. by eexists. }
  destruct (retrieve_aligned settings bot question k Hal) as (rs & Hrs & HF).
  exists rs. split; [done|].
  eapply Forall2_impl; [exact HF|].
  intros i r (md & c' & Hmd & Hc' & ->).
  simpl in Hmd.
  change (List.map chunk_metadata chunks) with (chunk_metadata <$> chunks) in Hmd.
  rewrite list_lookup_fmap in Hmd.
  destruct (chunks !! i) as [c|] eqn:Hc; [|done]. injection Hmd as <-.
  destruct (Hrows i c Hc) as (Hrow & _ & Hcontent).
  rewrite Hcontent in Hc'. injection Hc' as <-.
  exists c. split_and!; try done. simpl.
  unfold scores_of. simpl.
  erewrite nth_lookup_Some; [done|].
  change (List.map ?f ?l) with (f <$> l).
  rewrite list_lookup_fmap.
  change (List.map (transform v) (List.map text chunks))
    with (transform v <$> (text <$> chunks)).
  by rewrite !list_lookup_fmap, Hc.
Qed.

End IndexClaims.

Section SaveFacts.
Context `{SciLibs}.

(** [save] succeeds when the parent of the path is a directory and the
    path itself is not one. *)
Lemma save_succeeds (self : VectorStore) (name : string) (dir : path)
    (w : world) :
  stat (files w) dir = Some Dir ->
  files w !! (name :: dir) <> Some Dir ->
  exists w', save self (name :: dir) w = (Ok tt, w').
Proof.
  intros Hdir Hnd. unfold save, bind, on_files at 1. simpl tail.
  assert (mkdir_p dir (files w) = Ok (files w)) as ->.
  { destruct dir; simpl in *; by rewrite ?Hdir. }
  unfold joblib_dump, on_files, open_wb. simpl files. rewrite Hdir.
  destruct (files w !! (name :: dir)) as [[?|]|]; [eauto|done|eauto].
Qed.

End SaveFacts.

Module IndexExamples.
Import Examples.

(** A world with the workspace directory and nothing else. *)
Definition empty_workspace : world :=
  {| files := <[["workspace"; "data"] := Dir]> (<[["data"] := Dir]> ∅);
     requests := [] |}.

(** Saving and loading the store of [three_chunks]. *)
Lemma load_after_save_witness :
  exists w' loaded,
    save (store_of three_chunks) ["vector_store.pkl"; "workspace"; "data"]
         empty_workspace = (Ok tt, w')
    /\ load ["vector_store.pkl"; "workspace"; "data"] w' = (Ok loaded, w')
    /\ scores_of loaded = scores_of (store_of three_chunks)
    /\ forall settings model client question k,
         retrieve settings
           {| store := loaded; model := model; _client := client |} question k
         = retrieve settings
             {| store := store_of three_chunks; model := model;
                _client := client |} question k.
Proof.
  destruct (save_succeeds (store_of three_chunks) "vector_store.pkl"
              ["workspace"; "data"] empty_workspace) as [w' Hsave];
    [reflexivity | vm_compute; discriminate |].
  destruct (load_after_save _ _ _ _ Hsave) as (loaded & Hload & Hrest).
  by exists w', loaded.
Defined.

(** Building from [three_chunks] in the empty workspace. *)
Lemma build_vector_store_alignment_witness :
  exists w' st,
    build_vector_store three_chunks ["workspace"; "data"] (Some 50000)
                       empty_workspace
    = (Ok ["vector_store.pkl"; "workspace"; "data"], w')
    /\ load ["vector_store.pkl"; "workspace"; "data"] w' = (Ok st, w')
    /\ length (matrix st) = 3%nat
    /\ length (Index.metadata st) = 3%nat.
Proof.
  destruct (build_vector_store_succeeds three_chunks ["workspace"; "data"]
              (Some 50000) empty_workspace
              ((Demo.vocabulary (List.map text three_chunks),
                List.map (Demo.demo_transform
                            (Demo.vocabulary (List.map text three_chunks)))
                         (List.map text three_chunks))
               : @vectorizer_t demo_libs * list (@row_t demo_libs)))
    as [w' Hbuild];
    [discriminate | vm_compute; reflexivity | reflexivity
    | vm_compute; discriminate |].
  destruct (build_vector_store_alignment _ _ _ _ _ _ Hbuild)
    as (st & Hload & _ & Hm & Hmd & _).
  exists w', st. by split_and!.
Defined.

End IndexExamples.

(** ** The answer without a credential *)

Section AskFacts.
Context `{SciLibs}.

Lemma for_each_as_str (texts : list string) :
  for_each as_str (List.map PyStr texts) = Ok texts.
Proof. induction texts as [|t texts IH]; simpl; [done|]. by rewrite IH. Qed.

Lemma join_vals_strs (sep : string) (texts : list string) :
  join_vals sep (List.map PyStr texts) = Ok (join sep texts).
Proof. unfold join_vals. by rewrite for_each_as_str. Qed.

(** [__init__] builds the bot around the loaded store and leaves the
    client unset. *)
Lemma GPTLovBot_init_client (settings : Settings) (store_path : path)
    (model : option string) (w w' : world) (bot : GPTLovBot) :
  GPTLovBot_init settings store_path model w = (Ok bot, w') ->
  exists st,
    load store_path w = (Ok st, w')
    /\ bot = {| store := st;
                model := or_str model (openai_model settings);
                _client := None |}.
Proof.
  unfold GPTLovBot_init, bind.
  destruct (load store_path w) as [[st|e] w1]; [|done].
  intros [= <- <-]. by exists st.
Qed.

(** Without a key and without a client, [ask] answers with the notice and
    the excerpts, calls nothing and leaves the bot as it was. *)
Lemma ask_fallback (settings : Settings) (self : GPTLovBot)
    (env : gmap string string) (service : completion_service)
    (question : string) (k : option Z)
    (blocks : list RetrievalResult) (texts : list string) :
  env !! "OPENAI_API_KEY" = None \/ env !! "OPENAI_API_KEY" = Some EmptyString ->
  _client self = None ->
  retrieve settings self question k = Ok blocks ->
  List.map content blocks = List.map PyStr texts ->
  ask settings self env service question k
  = (Ok {| answer := String.append NO_KEY_NOTICE (join nlnl texts);
           contexts := List.map context_dict blocks |},
     self, []).
Proof.
  intros Hkey Hclient Hretrieve Hcontents.
  unfold ask, generate_answer, _ensure_client.
  rewrite Hretrieve, Hclient.
  assert (or_str (env !! "OPENAI_API_KEY") "" = EmptyString) as ->
    by (by destruct Hkey as [-> | ->]).
  simpl. by rewrite Hcontents, join_vals_strs.
Qed.

(** Without a key, [ask] never creates a client, whatever else happens. *)
Lemma ask_without_key_keeps_bot (settings : Settings) (self : GPTLovBot)
    (env : gmap string string) (service : completion_service)
    (question : string) (k : option Z) :
  env !! "OPENAI_API_KEY" = None \/ env !! "OPENAI_API_KEY" = Some EmptyString ->
  _client self = None ->
  snd (fst (ask settings self env service question k)) = self
  /\ snd (ask settings self env service question k) = [].
Proof.
  intros Hkey Hclient. unfold ask, generate_answer, _ensure_client.
  destruct (retrieve settings self question k) as [blocks|e]; [|done].
  rewrite Hclient.
  assert (or_str (env !! "OPENAI_API_KEY") "" = EmptyString) as ->
    by (by destruct Hkey as [-> | ->]).
  simpl. by destruct (join_vals nlnl (List.map content blocks)).
Qed.

Lemma asked_without_key (settings : Settings) (self : GPTLovBot)
    (env : gmap string string) (service : completion_service)
    (history : list (string * option Z)) :
  env !! "OPENAI_API_KEY" = None \/ env !! "OPENAI_API_KEY" = Some EmptyString ->
  _client self = None ->
  asked settings env service self history = self.
Proof.
  intros Hkey Hclient. unfold asked.
  induction history as [|[question k] history IH]; [done|]. simpl.
  by rewrite (proj1 (ask_without_key_keeps_bot _ _ _ _ _ _ Hkey Hclient)).
Qed.

(** C4. When [OPENAI_API_KEY] is unset or empty, a bot as [__init__]
    creates it, whatever it has been asked before, answers [ask] without
    sending anything to the completion service: the answer is the fixed
    notice followed by the contents of the retrieved excerpts, in
    retrieval order, joined by blank lines; the contexts are those
    excerpts. *)
Theorem ask_without_key_is_fallback (settings : Settings) (st : VectorStore)
    (model_name : string) (env : gmap string string)
    (service : completion_service) (history : list (string * option Z))
    (question : string) (k : option Z)
    (blocks : list RetrievalResult) (texts : list string) :
  env !! "OPENAI_API_KEY" = None \/ env !! "OPENAI_API_KEY" = Some EmptyString ->
  let self :=
    asked settings env service
          {| store := st; model := model_name; _client := None |} history in
  retrieve settings self question k = Ok blocks ->
  List.map content blocks = List.map PyStr texts ->
  ask settings self env service question k
  = (Ok {| answer := String.append NO_KEY_NOTICE (join nlnl texts);
           contexts := List.map context_dict blocks |},
     self, []).
Proof.
  intros Hkey self. subst self.
  rewrite (asked_without_key settings
             {| store := st; model := model_name; _client := None |}
             env service history Hkey eq_refl).
  by apply ask_fallback.
Qed.

End AskFacts.

Module AskExamples.
Import Examples.

(** A completion service that would fail if it were called. *)
Definition no_service : completion_service := fun _ _ => Raise APIError.

(** [ask] on [three_chunks] with an empty environment, after two earlier
    questions. *)
Lemma ask_without_key_is_fallback_witness :
  let scores := scores_of (store_of three_chunks) "straff for tyveri" in
  let blocks :=
    [result_of scores 0 (chunk "Straff for tyveri er bot eller fengsel" "P1");
     result_of scores 1 (chunk "Straff for bedrageri er fengsel" "P2")] in
  let self :=
    asked settings5 ∅ no_service (bot_of three_chunks)
          [("arv", None); ("fengsel", Some 1)] in
  ask settings5 self ∅ no_service "straff for tyveri" (Some 2)
  = (Ok {| answer :=
             String.append NO_KEY_NOTICE
               (join nlnl ["Straff for tyveri er bot eller fengsel";
                           "Straff for bedrageri er fengsel"]);
           contexts := List.map context_dict blocks |},
     self, []).
Proof.
  intros scores blocks.
  apply (ask_without_key_is_fallback settings5 (store_of three_chunks)
           "gpt-4o-mini" ∅ no_service [("arv", None); ("fengsel", Some 1)]
           "straff for tyveri" (Some 2) blocks).
  - left. reflexivity.
  - vm_compute. reflexivity.
  - reflexivity.
Defined.

End AskExamples.

(** ** Archive acquisition *)

Section AcquisitionFacts.
Context `{Archives}.

(** What one call of [download_archive] does, case by case. *)
Lemma download_archive_cases (server : string -> response)
    (filename : string) (dest_dir : path) (w w' : world) (r : result path) :
  download_archive server filename dest_dir w = (r, w') ->
  (exists e, mkdir_p dest_dir (files w) = Raise e /\ r = Raise e /\ w' = w)
  \/ exists fs1,
       mkdir_p dest_dir (files w) = Ok fs1
       /\ ((exists_ fs1 (filename :: dest_dir) = true
            /\ r = Ok (filename :: dest_dir)
            /\ w' = World fs1 (requests w))
           \/ (exists_ fs1 (filename :: dest_dir) = false
               /\ requests w' = requests w ++ [archive_url filename]
               /\ match server (archive_url filename) with
                  | ConnectError => r = Raise TransportError /\ files w' = fs1
                  | Response status chunks complete =>
                      if success status
                      then files w'
                           = <[filename :: dest_dir := File (concat chunks)]> fs1
                           /\ r = (if complete then Ok (filename :: dest_dir)
                                   else Raise TransportError)
                      else r = Raise (HTTPStatusError status) /\ files w' = fs1
                  | Redirect code _ =>
                      r = Raise (HTTPStatusError (code_status code))
                      /\ files w' = fs1
                  end)).
Proof.
  unfold download_archive. intros Hrun.
  apply bind_inv in Hrun as [(u & w1 & Hmk & Hrun)|(e & Hmk & ->)].
  2:{ left. exists e. by apply on_files_Raise in Hmk as [-> ->]. }
  right. destruct u. apply on_files_Ok in Hmk as (fs1 & Hmk & ->).
  exists fs1. split; [done|].
  destruct (mkdir_p_Ok _ _ _ Hmk) as (Hdir & _ & _).
  unfold bind at 1, path_exists in Hrun. simpl in Hrun.
  destruct (exists_ fs1 (filename :: dest_dir)) eqn:Hex.
  { left. unfold ret in Hrun. by injection Hrun as <- <-. }
  right. split; [done|].
  fold (archive_url filename) in Hrun.
  unfold bind at 1, httpx_stream in Hrun. simpl in Hrun.
  destruct (server (archive_url filename)) as [|status chunks complete|code loc].
  { by injection Hrun as <- <-. }
  2:{ unfold bind at 1, lift, raise_for_status in Hrun. simpl in Hrun.
      assert (success (code_status code) = false) as Hcode by (by destruct code).
      fold (success (code_status code)) in Hrun. rewrite Hcode in Hrun.
      by injection Hrun as <- <-. }
  unfold bind at 1, lift, raise_for_status in Hrun. simpl in Hrun.
  fold (success status) in Hrun. destruct (success status).
  2:{ by injection Hrun as <- <-. }
  apply bind_inv in Hrun as [(u & w2 & Hopen & Hrun)|(e & Hopen & ->)].
  - destruct u.
    apply bind_inv in Hrun as [(u & w3 & Hbody & Hrun)|(e & Hbody & ->)].
    + destruct (open_write _ _ _ _ _ _ _ Hopen Hbody) as (_ & Hfs & Hrq & Hr).
      unfold ret in Hrun. injection Hrun as <- <-.
      simpl in Hfs, Hrq. rewrite Hfs, Hrq.
      destruct complete; [done|discriminate].
    + destruct (open_write _ _ _ _ _ _ _ Hopen Hbody) as (_ & Hfs & Hrq & Hr).
      simpl in Hfs, Hrq. rewrite Hfs, Hrq.
      destruct complete; [discriminate|]. by injection Hr as ->.
  - apply on_files_Raise in Hopen as [Hopen _]. simpl in Hopen.
    unfold open_wb in Hopen. rewrite Hdir in Hopen.
    apply not_true_iff_false in Hex. rewrite exists_cons in Hex.
    destruct (fs1 !! (filename :: dest_dir)) as [n|] eqn:E; [|done].
    destruct Hex. by eexists.
Qed.

(** After a call that returned, the archive is on disk in its directory. *)
Lemma download_archive_Ok (server : string -> response)
    (filename : string) (dest_dir : path) (w w' : world) (p : path) :
  download_archive server filename dest_dir w = (Ok p, w') ->
  p = filename :: dest_dir
  /\ stat (files w') dest_dir = Some Dir
  /\ exists_ (files w') (filename :: dest_dir) = true.
Proof.
  intros Hrun.
  apply download_archive_cases in Hrun
    as [(e & _ & ? & _)|(fs1 & Hmk & [(Hex & Hr & ->)|(Hex & Hrq & Hsrv)])];
    [done|..].
  - destruct (mkdir_p_Ok _ _ _ Hmk) as (Hdir & _ & _). injection Hr as ->.
    simpl. by split_and!.
  - destruct (mkdir_p_Ok _ _ _ Hmk) as (Hdir & _ & _).
    destruct (server (archive_url filename)) as [|status chunks complete|code loc];
      [by destruct Hsrv| |by destruct Hsrv].
    destruct (success status); [|by destruct Hsrv].
    destruct Hsrv as [-> Hr]. destruct complete; [|done]. injection Hr as ->.
    split; [done|]. split.
    + rewrite stat_insert_ne; [done|apply cons_ne].
    + apply exists_cons. rewrite lookup_insert_eq. by eexists.
Qed.

Lemma download_archive_present (server : string -> response)
    (filename : string) (dest_dir : path) (w : world) :
  stat (files w) dest_dir = Some Dir ->
  exists_ (files w) (filename :: dest_dir) = true ->
  download_archive server filename dest_dir w = (Ok (filename :: dest_dir), w).
Proof.
  intros Hdir Hex. unfold download_archive, bind, on_files, path_exists.
  rewrite (mkdir_p_is_dir _ _ Hdir). simpl. rewrite Hex.
  unfold ret. by rewrite world_eta.
Qed.

(** [ensure_archives] on an explicit list is its loop. *)
Lemma ensure_archives_Some (settings : Settings) (server : string -> response)
    (names : list string) (force : bool) :
  ensure_archives settings server (Some names) force
  = ensure_archives_loop server (raw_data_dir settings) force names [].
Proof. reflexivity. Qed.

(** The loop over a concatenation runs the first part and, if that
    returns, the second part from where it stopped. *)
Lemma ensure_archives_loop_app (server : string -> response) (raw_dir : path)
    (force : bool) (names1 names2 : list string) (paths : list path)
    (w : world) :
  ensure_archives_loop server raw_dir force (names1 ++ names2) paths w
  = match ensure_archives_loop server raw_dir force names1 paths w with
    | (Ok paths', w1) =>
        ensure_archives_loop server raw_dir force names2 paths' w1
    | (Raise e, w1) => (Raise e, w1)
    end.
Proof.
  revert paths w. induction names1 as [|name names1 IH]; intros paths w;
    [done|].
  simpl. unfold bind, path_exists. cbn beta iota.
  destruct ((if force && exists_ (files w) (name :: raw_dir)
             then on_files (unlink (name :: raw_dir)) else ret ()) w)
    as [[[]|e] w1]; [|done].
  destruct (download_archive server name raw_dir w1) as [[p|e] w2]; [|done].
  apply IH.
Qed.

(** What the loop does with its first name does not depend on the names
    after it nor on the paths collected so far. *)
Lemma ensure_archives_loop_head_raises (server : string -> response)
    (raw_dir : path) (force : bool) (name : string) (rest : list string)
    (paths paths' : list path) (w w' : world) (e : exn) :
  ensure_archives_loop server raw_dir force [name] paths w = (Raise e, w') ->
  ensure_archives_loop server raw_dir force (name :: rest) paths' w
  = (Raise e, w').
Proof.
  simpl. unfold bind, path_exists. cbn beta iota.
  destruct ((if force && exists_ (files w) (name :: raw_dir)
             then on_files (unlink (name :: raw_dir)) else ret ()) w)
    as [[[]|e1] w1]; [|done].
  by destruct (download_archive server name raw_dir w1) as [[p|e2] w2].
Qed.

End AcquisitionFacts.

Section AcquisitionClaims.
Context `{Archives}.

(** One forced acquisition of one archive: the request is made whatever
    was on disk, and the directory is left fit for the next call. *)
Lemma ensure_archives_force_once (settings : Settings)
    (server : string -> response) (name : string) (w w1 : world)
    (r : result (list path)) :
  stat (files w) (raw_data_dir settings) = Some Dir ->
  files w !! (name :: raw_data_dir settings) <> Some Dir ->
  ensure_archives settings server (Some [name]) true w = (r, w1) ->
  requests w1 = requests w ++ [archive_url name]
  /\ stat (files w1) (raw_data_dir settings) = Some Dir
  /\ files w1 !! (name :: raw_data_dir settings) <> Some Dir
  /\ (forall status chunks,
        server (archive_url name) = Response status chunks true ->
        success status = true ->
        r = Ok [name :: raw_data_dir settings]
        /\ files w1 !! (name :: raw_data_dir settings)
           = Some (File (concat chunks))).
Proof.
  set (raw := raw_data_dir settings). set (dest := name :: raw).
  intros Hdir Hnd. rewrite ensure_archives_Some. fold raw. simpl.
  unfold bind at 1, path_exists. simpl.
  unfold bind at 1. fold dest.
  (* the state after the unlink, if any *)
  assert (exists wA,
            (if exists_ (files w) dest then on_files (unlink dest) else ret ()) w
            = (Ok (), wA)
            /\ requests wA = requests w
            /\ stat (files wA) raw = Some Dir
            /\ files wA !! dest = None) as (wA & -> & HrqA & HdirA & HdestA).
  { destruct (exists_ (files w) dest) eqn:Hex.
    - apply exists_cons in Hex as [n Hn]. fold dest in Hn.
      destruct n as [data|]; [|done].
      exists (World (delete dest (files w)) (requests w)).
      unfold on_files, unlink.
      change (stat (files w) dest) with (files w !! dest). rewrite Hn. simpl.
      split_and!; [done|done| |apply lookup_delete_eq].
      rewrite stat_delete_ne; [done|apply cons_ne].
    - exists w. split_and!; try done.
      apply not_true_iff_false in Hex. unfold dest in Hex.
      rewrite exists_cons in Hex.
      fold dest in Hex. destruct (files w !! dest) eqn:E; [|done].
      destruct Hex. by eexists. }
  unfold bind at 1.
  destruct (download_archive server name raw wA) as [r' w2] eqn:Hdl.
  assert (w1 = w2 /\ r = match r' with Ok p => Ok [p] | Raise e => Raise e end
          -> requests w2 = requests w ++ [archive_url name]
             /\ stat (files w2) raw = Some Dir
             /\ files w2 !! dest <> Some Dir
             /\ (forall status chunks,
                   server (archive_url name) = Response status chunks true ->
                   success status = true ->
                   r' = Ok dest
                   /\ files w2 !! dest = Some (File (concat chunks)))
          -> requests w1 = requests w ++ [archive_url name]
             /\ stat (files w1) raw = Some Dir
             /\ files w1 !! dest <> Some Dir
             /\ (forall status chunks,
                   server (archive_url name) = Response status chunks true ->
                   success status = true ->
                   r = Ok [dest]
                   /\ files w1 !! dest = Some (File (concat chunks)))) as Hwrap.
  { intros [-> ->] (? & ? & ? & Hok). split_and!; try done.
    intros status chunks Hs Hsucc. destruct (Hok _ _ Hs Hsucc) as [-> ?].
    by split. }
  intros Hrun. apply Hwrap.
  { destruct r' as [p|e]; by injection Hrun as <- <-. }
  clear Hwrap Hrun.
  apply download_archive_cases in Hdl
    as [(e & Hmk & _)|(fs1 & Hmk & Hcases)].
  { by rewrite (mkdir_p_is_dir _ _ HdirA) in Hmk. }
  rewrite (mkdir_p_is_dir _ _ HdirA) in Hmk. injection Hmk as <-.
  destruct Hcases as [(Hex & _)|(_ & Hrq & Hsrv)].
  { apply exists_cons in Hex as [n Hn]. fold dest in Hn. congruence. }
  rewrite HrqA in Hrq. split; [done|].
  destruct (server (archive_url name)) as [|status chunks complete|code loc].
  - destruct Hsrv as [_ ->]. split_and!; [done|by rewrite HdestA|done].
  - destruct (success status) eqn:Hs.
    + destruct Hsrv as [-> Hr]. split_and!.
      * rewrite stat_insert_ne; [done|apply cons_ne].
      * by rewrite lookup_insert_eq.
      * intros ? ? [= <- <- ->] _. split; [done|apply lookup_insert_eq].
    + destruct Hsrv as [_ ->]. split_and!; [done|by rewrite HdestA|].
      intros ? ? [= <- <- ->]. congruence.
  - destruct Hsrv as [_ ->]. split_and!; [done|by rewrite HdestA|done].
Qed.

(** A download to a destination that is free, from a server that delivers
    the whole body. *)
Lemma download_archive_fresh (server : string -> response) (filename : string)
    (dest_dir : path) (w : world) (status : Z) (chunks : list (list Byte.byte)) :
  stat (files w) dest_dir = Some Dir ->
  files w !! (filename :: dest_dir) = None ->
  server (archive_url filename) = Response status chunks true ->
  success status = true ->
  download_archive server filename dest_dir w
  = (Ok (filename :: dest_dir),
     World (<[filename :: dest_dir := File (concat chunks)]> (files w))
           (requests w ++ [archive_url filename])).
Proof.
  intros Hdir Hnone Hserver Hstatus.
  destruct (download_archive server filename dest_dir w) as [r w'] eqn:Hrun.
  apply download_archive_cases in Hrun
    as [(e & Hmk & _)|(fs1 & Hmk & Hcases)];
    rewrite (mkdir_p_is_dir _ _ Hdir) in Hmk; [done|]. injection Hmk as <-.
  destruct Hcases as [(Hex & _)|(_ & Hrq & Hsrv)].
  { apply exists_cons in Hex as [n Hn]. congruence. }
  rewrite Hserver, Hstatus in Hsrv. destruct Hsrv as [Hfs ->].
  destruct w' as [fs' rq']. cbn in Hfs, Hrq. by rewrite Hfs, Hrq.
Qed.

(** A forced acquisition of archives that the server delivers: each name
    is requested, in order, and every file holds the new body. *)
Lemma ensure_archives_loop_forced (server : string -> response)
    (raw_dir : path) (names : list string) (paths : list path) (w : world) :
  stat (files w) raw_dir = Some Dir ->
  Forall (fun name =>
            files w !! (name :: raw_dir) <> Some Dir
            /\ exists status chunks,
                 server (archive_url name) = Response status chunks true
                 /\ success status = true) names ->
  exists w',
    ensure_archives_loop server raw_dir true names paths w
    = (Ok (paths ++ List.map (fun name => name :: raw_dir) names), w')
    /\ requests w' = requests w ++ List.map archive_url names
    /\ stat (files w') raw_dir = Some Dir
    /\ (forall q n, q ∉ List.map (fun name => name :: raw_dir) names ->
          files w !! q = Some n -> files w' !! q = Some n)
    /\ (forall name status chunks,
          name ∈ names ->
          server (archive_url name) = Response status chunks true ->
          files w' !! (name :: raw_dir) = Some (File (concat chunks))).
Proof.
  revert paths w. induction names as [|name names IH]; intros paths w Hdir Hall.
  { exists w. cbn. rewrite !app_nil_r. split_and!; try done.
    intros name status chunks Hin. by apply elem_of_nil in Hin. }
  apply Forall_cons in Hall as [(Hnd & status & chunks & Hserver & Hstatus) Hall].
  set (dest := name :: raw_dir) in *.
  set (w2 := World (<[dest := File (concat chunks)]> (files w))
                   (requests w ++ [archive_url name])).
  assert ((if exists_ (files w) dest then on_files (unlink dest) else ret ()) w
          = (Ok (), World (delete dest (files w)) (requests w))) as Hunlink.
  { destruct (exists_ (files w) dest) eqn:Hex.
    - apply exists_cons in Hex as [n Hn]. fold dest in Hn.
      destruct n as [data|]; [|done].
      unfold on_files, unlink.
      change (stat (files w) dest) with (files w !! dest). by rewrite Hn.
    - assert (files w !! dest = None) as Hnone.
      { apply not_true_iff_false in Hex. unfold dest in Hex.
        rewrite exists_cons in Hex. fold dest in Hex.
        destruct (files w !! dest) eqn:E; [|done]. destruct Hex. by eexists. }
      unfold ret. by rewrite (delete_id _ _ Hnone), world_eta. }
  assert (download_archive server name raw_dir
            (World (delete dest (files w)) (requests w))
          = (Ok dest, w2)) as Hdl.
  { rewrite (download_archive_fresh server name raw_dir _ status chunks);
      cbn [files requests]; try done.
    - unfold w2, dest. by rewrite insert_delete_eq.
    - rewrite stat_delete_ne; [done|apply cons_ne].
    - apply lookup_delete_eq. }
  destruct (IH (paths ++ [dest]) w2) as (w' & Hrun & Hrq & Hdir' & Hframe & Hbody).
  { unfold w2. cbn [files]. rewrite stat_insert_ne; [done|apply cons_ne]. }
  { eapply Forall_impl; [exact Hall|]. intros name' [Hnd' Hsrv']. split; [|done].
    unfold w2. cbn [files].
    destruct (decide (name' :: raw_dir = dest)) as [->|Hne].
    - by rewrite lookup_insert_eq.
    - by rewrite lookup_insert_ne. }
  exists w'. split_and!.
  - cbn [ensure_archives_loop List.map]. fold dest.
    unfold bind at 1, path_exists. cbv beta iota. cbn [andb].
    unfold bind at 1. rewrite Hunlink.
    unfold bind at 1. rewrite Hdl, Hrun. by rewrite <- app_assoc.
  - rewrite Hrq. unfold w2. cbn [requests List.map]. by rewrite <- app_assoc.
  - done.
  - intros q n Hq Hn. cbn [List.map] in Hq.
    apply not_elem_of_cons in Hq as [Hq1 Hq2].
    apply Hframe; [done|]. unfold w2. cbn [files].
    by rewrite lookup_insert_ne.
  - intros name0 status0 chunks0 Hin Hserver0.
    destruct (decide (name0 ∈ names)) as [Hrest|Hnot]; [by eapply Hbody|].
    apply elem_of_cons in Hin as [->|?]; [|done].
    rewrite Hserver in Hserver0. injection Hserver0 as <- <-.
    apply Hframe.
    + intros Hin. apply list_elem_of_fmap in Hin as (name' & [= <-] & Hin).
      by apply Hnot.
    + unfold w2. cbn [files]. apply lookup_insert_eq.
Qed.

(** C7. For a plain file name: if the destination file exists,
    [download_archive] returns its path and leaves the world, and so the
    list of requests, as it was; after a call that returned, a second call
    returns the same path without a request, so that two calls that
    started without the file made one request. With [force],
    [ensure_archives] unlinks the file and requests the archive on every
    call: two calls make two requests, and a download that succeeds
    replaces the file by the new body. The same holds for a list of
    names that the server delivers: each of two forced calls requests
    every name of the list, in order, and the files hold the bodies of
    the second call. *)
Theorem download_archive_idempotent_unless_forced (settings : Settings)
    (server server' : string -> response) (filename : string)
    (dest_dir : path) (w : world) :
  plain_name filename = true ->
  (stat (files w) dest_dir = Some Dir ->
   exists_ (files w) (filename :: dest_dir) = true ->
   download_archive server filename dest_dir w
   = (Ok (filename :: dest_dir), w))
  /\ (forall p w1,
        download_archive server filename dest_dir w = (Ok p, w1) ->
        download_archive server' filename dest_dir w1 = (Ok p, w1)
        /\ (exists_ (files w) (filename :: dest_dir) = false ->
            requests w1 = requests w ++ [archive_url filename]))
  /\ (stat (files w) (raw_data_dir settings) = Some Dir ->
      files w !! (filename :: raw_data_dir settings) <> Some Dir ->
      forall r1 w1 r2 w2,
        ensure_archives settings server (Some [filename]) true w = (r1, w1) ->
        ensure_archives settings server' (Some [filename]) true w1 = (r2, w2) ->
        requests w1 = requests w ++ [archive_url filename]
        /\ requests w2
           = requests w ++ [archive_url filename; archive_url filename]
        /\ (forall status chunks,
              server' (archive_url filename) = Response status chunks true ->
              success status = true ->
              r2 = Ok [filename :: raw_data_dir settings]
              /\ files w2 !! (filename :: raw_data_dir settings)
                 = Some (File (concat chunks))))
  /\ (forall names,
        Forall (fun name => plain_name name = true) names ->
        stat (files w) (raw_data_dir settings) = Some Dir ->
        Forall (fun name =>
                  files w !! (name :: raw_data_dir settings) <> Some Dir)
               names ->
        Forall (delivers server) names ->
        Forall (delivers server') names ->
        exists w1 w2,
          ensure_archives settings server (Some names) true w
          = (Ok (List.map (fun name => name :: raw_data_dir settings) names), w1)
          /\ ensure_archives settings server' (Some names) true w1
             = (Ok (List.map (fun name => name :: raw_data_dir settings) names),
                w2)
          /\ requests w1 = requests w ++ List.map archive_url names
          /\ requests w2 = requests w1 ++ List.map archive_url names
          /\ forall name status chunks,
               name ∈ names ->
               server' (archive_url name) = Response status chunks true ->
               files w2 !! (name :: raw_data_dir settings)
               = Some (File (concat chunks))).
Proof.
  intros _. split_and!.
  - apply download_archive_present.
  - intros p w1 Hrun.
    destruct (download_archive_Ok _ _ _ _ _ _ Hrun) as (-> & Hdir & Hex).
    split; [by apply download_archive_present|].
    intros Habsent.
    apply download_archive_cases in Hrun
      as [(e & _ & ? & _)|(fs1 & Hmk & [(Hex1 & _)|(_ & Hrq & _)])];
      [done| |done].
    destruct (mkdir_p_Ok _ _ _ Hmk) as (_ & _ & Hother).
    unfold exists_ in Habsent, Hex1. rewrite stat_cons in Habsent, Hex1.
    rewrite Hother in Hex1 by apply suffix_cons_not. congruence.
  - intros Hdir Hnd r1 w1 r2 w2 Hrun1 Hrun2.
    destruct (ensure_archives_force_once _ _ _ _ _ _ Hdir Hnd Hrun1)
      as (Hrq1 & Hdir1 & Hnd1 & _).
    destruct (ensure_archives_force_once _ _ _ _ _ _ Hdir1 Hnd1 Hrun2)
      as (Hrq2 & _ & _ & Hok).
    split; [done|]. split; [|done].
    by rewrite Hrq2, Hrq1, <- app_assoc.
  - intros names _ Hdir Hnd Hserver Hserver'.
    rewrite !ensure_archives_Some.
    destruct (ensure_archives_loop_forced server (raw_data_dir settings) names
                [] w Hdir) as (w1 & Hrun1 & Hrq1 & Hdir1 & _ & Hbody1).
    { apply Forall_forall. intros name Hin. split.
      - by apply (proj1 (Forall_forall _ _) Hnd).
      - by apply (proj1 (Forall_forall _ _) Hserver). }
    destruct (ensure_archives_loop_forced server' (raw_data_dir settings) names
                [] w1 Hdir1) as (w2 & Hrun2 & Hrq2 & _ & _ & Hbody2).
    { apply Forall_forall. intros name Hin. split.
      - destruct (proj1 (Forall_forall _ _) Hserver name Hin)
          as (status & chunks & Hs & _).
        by rewrite (Hbody1 _ _ _ Hin Hs).
      - by apply (proj1 (Forall_forall _ _) Hserver'). }
    exists w1, w2. by split_and!.
Qed.

(** C9 (as amended). [ensure_archives] stops at the first archive that
    fails: if the names before [name] were acquired and acquiring [name]
    raises, the whole call raises that exception in the world reached at
    that point, whatever names follow; they are not processed. *)
Theorem ensure_archives_stops_at_first_failure (settings : Settings)
    (server : string -> response) (force : bool)
    (names1 : list string) (name : string) (names2 : list string)
    (w w1 w2 : world) (paths : list path) (e : exn) :
  ensure_archives settings server (Some names1) force w = (Ok paths, w1) ->
  ensure_archives settings server (Some [name]) force w1 = (Raise e, w2) ->
  ensure_archives settings server (Some (names1 ++ name :: names2)) force w
  = (Raise e, w2).
Proof.
  rewrite !ensure_archives_Some. intros Hfirst Hfail.
  rewrite ensure_archives_loop_app, Hfirst.
  by eapply ensure_archives_loop_head_raises.
Qed.

End AcquisitionClaims.

Module AcquisitionExamples.
Import Examples.

Definition raw : path := ["raw"; "data"].

(** A world with the raw-data directory and nothing in it. *)
Definition empty_raw : world :=
  {| files := <[raw := Dir]> (<[["data"] := Dir]> ∅); requests := [] |}.

(** The same with an old copy of one archive. *)
Definition old_copy : world :=
  {| files := <["a.tar.bz2" :: raw := File [Byte.x09]]> (files empty_raw);
     requests := [] |}.

(** A server that delivers every archive in two chunks. *)
Definition server_ok : string -> response :=
  fun _ => Response 200 [[Byte.x01; Byte.x02]; [Byte.x03]] true.

(** A server that has [b.tar.bz2] and answers 404 for anything else. *)
Definition server_only_b : string -> response :=
  fun url =>
    if String.eqb url (archive_url "b.tar.bz2")
    then Response 200 [[Byte.x01]] true
    else Response 404 [] true.

(** An archive that is on disk is returned as it is; forcing it twice
    requests it twice and leaves the new body; so does forcing a list of
    two archives. *)
Lemma download_archive_idempotent_unless_forced_witness :
  download_archive server_ok "a.tar.bz2" raw old_copy
  = (Ok ("a.tar.bz2" :: raw), old_copy)
  /\ (let w1 := snd (ensure_archives settings5 server_ok (Some ["a.tar.bz2"])
                       true old_copy) in
      let run2 := ensure_archives settings5 server_ok (Some ["a.tar.bz2"])
                    true w1 in
      requests w1 = [archive_url "a.tar.bz2"]
      /\ requests (snd run2) = [archive_url "a.tar.bz2"; archive_url "a.tar.bz2"]
      /\ fst run2 = Ok ["a.tar.bz2" :: raw]
      /\ files (snd run2) !! ("a.tar.bz2" :: raw)
         = Some (File [Byte.x01; Byte.x02; Byte.x03]))
  /\ (exists w1 w2,
        ensure_archives settings5 server_ok (Some ["a.tar.bz2"; "b.tar.bz2"])
                        true old_copy
        = (Ok ["a.tar.bz2" :: raw; "b.tar.bz2" :: raw], w1)
        /\ ensure_archives settings5 server_ok
                           (Some ["a.tar.bz2"; "b.tar.bz2"]) true w1
           = (Ok ["a.tar.bz2" :: raw; "b.tar.bz2" :: raw], w2)
        /\ requests w2
           = [archive_url "a.tar.bz2"; archive_url "b.tar.bz2";
              archive_url "a.tar.bz2"; archive_url "b.tar.bz2"]).
Proof.
  assert (plain_name "a.tar.bz2" = true) as Hplain by reflexivity.
  destruct (download_archive_idempotent_unless_forced settings5 server_ok
              server_ok "a.tar.bz2" raw old_copy Hplain)
    as (Hpresent & _ & Hforce & Hlist).
  split; [|split].
  - apply Hpresent; reflexivity.
  - intros w1 run2.
    destruct (Hforce eq_refl ltac:(vm_compute; discriminate)
                _ _ _ _ (surjective_pairing _) (surjective_pairing run2))
      as (Hrq1 & Hrq2 & Hok).
    destruct (Hok 200 [[Byte.x01; Byte.x02]; [Byte.x03]] eq_refl eq_refl)
      as [Hr Hfile].
    by split_and!.
  - assert (Forall (delivers server_ok) ["a.tar.bz2"; "b.tar.bz2"]) as Hserver.
    { repeat constructor;
        by exists 200, [[Byte.x01; Byte.x02]; [Byte.x03]]. }
    assert (Forall (fun name => files old_copy !! (name :: raw) <> Some Dir)
                   ["a.tar.bz2"; "b.tar.bz2"]) as Hnd.
    { repeat constructor; vm_compute; discriminate. }
    destruct (Hlist ["a.tar.bz2"; "b.tar.bz2"]
                ltac:(repeat constructor) eq_refl Hnd Hserver Hserver)
      as (w1 & w2 & Hrun1 & Hrun2 & Hrq1 & Hrq2 & _).
    exists w1, w2. split; [exact Hrun1|]. split; [exact Hrun2|].
    rewrite Hrq2, Hrq1. reflexivity.
Defined.

(** C9 as stated fails: with [a.tar.bz2] missing on the server, the call
    for both archives raises after the first request; [b.tar.bz2], which
    the server has and which a call of its own acquires, is neither
    requested nor written. *)
Lemma ensure_archives_independent_counterexample :
  let run := ensure_archives settings5 server_only_b
               (Some ["a.tar.bz2"; "b.tar.bz2"]) false empty_raw in
  fst run = Raise (HTTPStatusError 404)
  /\ requests (snd run) = [archive_url "a.tar.bz2"]
  /\ files (snd run) !! ("b.tar.bz2" :: raw) = None
  /\ fst (ensure_archives settings5 server_only_b (Some ["b.tar.bz2"]) false
            empty_raw)
     = Ok ["b.tar.bz2" :: raw].
Proof. vm_compute. by split_and!. Qed.

(** [b] is acquired, [a] fails, [c] is never reached. *)
Lemma ensure_archives_stops_at_first_failure_witness :
  let w1 := snd (ensure_archives settings5 server_only_b (Some ["b.tar.bz2"])
                   false empty_raw) in
  let w2 := snd (ensure_archives settings5 server_only_b (Some ["a.tar.bz2"])
                   false w1) in
  ensure_archives settings5 server_only_b
    (Some ["b.tar.bz2"; "a.tar.bz2"; "c.tar.bz2"]) false empty_raw
  = (Raise (HTTPStatusError 404), w2).
Proof.
  intros w1 w2.
  apply (ensure_archives_stops_at_first_failure settings5 server_only_b false
           ["b.tar.bz2"] "a.tar.bz2" ["c.tar.bz2"] empty_raw w1 w2
           ["b.tar.bz2" :: raw]).
  - vm_compute. reflexivity.
  - vm_compute. reflexivity.
Defined.

End AcquisitionExamples.

(** ** Installing a prebuilt store *)

Section ScratchFacts.




Lemma unlink_Ok (p : path) (fs fs' : files_t) :
  unlink p fs = Ok fs' ->
  fs' = delete p fs /\ p <> [] /\ exists data, fs !! p = Some (File data).
Proof.
  unfold unlink. destruct p as [|name dir]; [done|]. rewrite stat_cons.
  destruct (fs !! (name :: dir)) as [[data|]|]; [|done..].
  intros [= <-]. eauto.
Qed.







End ScratchFacts.

Section PrebuiltFacts.
Context `{Archives}.








(** Following redirects: the outcome and the requests made. *)
Lemma follow_fetch (server : string -> response) (url : string) (n : nat)
    (w : world) :
  follow server url n w
  = (fetch server url n,
     World (files w) (requests w ++ redirect_chain server url n)).
Proof.
  revert url w. induction n as [|n IH]; intros url w;
    cbn [follow fetch redirect_chain];
    destruct (server url) as [|status chunks complete|code location];
    try reflexivity.
  rewrite IH. cbn [files requests]. by rewrite <- app_assoc.
Qed.








End PrebuiltFacts.

Section PrebuiltClaims.
Context `{Archives}.




End PrebuiltClaims.

Section PrebuiltInstall.
Context `{Archives}.







End PrebuiltInstall.


Module PrebuiltExamples.

Definition ws : path := ["workspace"; "data"].

(** A workspace that holds an artifact installed earlier. *)
Definition installed : world :=
  {| files := <["vector_store.pkl" :: ws := File [Byte.x07]]>
                (<[ws := Dir]> (<[["data"] := Dir]> ∅));
     requests := [] |}.

(** A server without the file. *)
Definition server_404 : string -> response := fun _ => Response 404 [] true.


Definition tar_url : string := "https://example.org/files/store.tar.gz".



(** A server that sends the client on to a second address, where the
    file is missing. *)
Definition server_moved : string -> response :=
  fun url => if String.eqb url tar_url
             then Redirect Found302 "https://mirror.example.org/store.tar.gz"
             else Response 404 [] true.


End PrebuiltExamples.

(** * Further properties of the code *)

(** ** [retrieve]: which documents are selected *)

Section RetrieveSelection.
Context `{SciLibs}.

Lemma top_indices_NoDup (scores : list Q) (k : Z) : NoDup (top_indices scores k).
Proof.
  unfold top_indices. destruct (slice_to_prefix k (rev (argsort scores))) as [n ->].
  assert (NoDup (rev (argsort scores))) as Hnd.
  { rewrite rev_alt. change (NoDup (reverse (argsort scores))).
    rewrite reverse_Permutation, (argsort_perm scores). apply NoDup_seq. }
  rewrite <- (take_drop n (rev (argsort scores))) in Hnd.
  by apply NoDup_app in Hnd as (Hnd & _ & _).
Qed.

(** A document that is not selected scores no higher than one that is. *)
Lemma top_indices_best (scores : list Q) (k : Z) (i j : nat) :
  i ∈ top_indices scores k -> (j < length scores)%nat ->
  j ∉ top_indices scores k ->
  (nth j scores 0 <= nth i scores 0)%Q.
Proof.
  unfold top_indices. destruct (slice_to_prefix k (rev (argsort scores))) as [n ->].
  intros Hi Hj Hnot.
  pose proof (StronglySorted_rev _ _ (argsort_sorted scores)) as Hs.
  rewrite <- (take_drop n (rev (argsort scores))) in Hs.
  eapply (StronglySorted_app_1_elem_of _ _ _ i j) in Hs; [done|done|].
  assert (j ∈ rev (argsort scores)) as Hin.
  { apply list_elem_of_In. rewrite <- in_rev.
    eapply Permutation_in; [symmetry; apply argsort_perm|].
    apply in_seq. lia. }
  rewrite <- (take_drop n (rev (argsort scores))) in Hin.
  apply elem_of_app in Hin as [Hin|Hin]; [by destruct Hnot|done].
Qed.

(** With a top-K that is at least the number of documents, every document
    is selected. *)
Lemma top_indices_all (scores : list Q) (k : Z) :
  Z.of_nat (length scores) <= k ->
  Permutation (top_indices scores k) (seq 0 (length scores)).
Proof.
  intros Hk. unfold top_indices, slice_to.
  assert ((0 <=? k) = true) as -> by (apply Z.leb_le; lia).
  rewrite firstn_all2.
  - rewrite rev_alt. change (reverse (argsort scores) ≡ₚ seq 0 (length scores)).
    rewrite reverse_Permutation. apply argsort_perm.
  - rewrite length_rev, (Permutation_length (argsort_perm scores)), length_seq.
    lia.
Qed.

(** X1. The results of [retrieve] on an aligned store are the best
    documents: they are built from indices [idxs], in this order, and a
    document whose index is not among them scores no higher than any of
    those that are. *)
Theorem retrieve_selects_highest_scores (settings : Settings)
    (self : GPTLovBot) (question : string) (k : option Z)
    (rs : list RetrievalResult) :
  aligned (store self) ->
  retrieve settings self question k = Ok rs ->
  exists idxs,
    Forall2 (result_for (store self) (scores_of (store self) question)) idxs rs
    /\ forall i j,
         i ∈ idxs -> (j < length (matrix (store self)))%nat -> j ∉ idxs ->
         (nth j (scores_of (store self) question) 0
          <= nth i (scores_of (store self) question) 0)%Q.
Proof.
  intros Hal Hrs.
  destruct (retrieve_aligned settings self question k Hal) as (rs0 & Hrs0 & HF).
  rewrite Hrs in Hrs0. injection Hrs0 as <-.
  eexists. split; [exact HF|].
  intros i j Hi Hj Hnot. eapply top_indices_best; [done| |done].
  by rewrite scores_of_length.
Qed.

(** X2. [retrieve] returns no document twice, and with a top-K that is at
    least the number of documents it returns each of them once. *)
Theorem retrieve_each_document_once (settings : Settings)
    (self : GPTLovBot) (question : string) (k : option Z)
    (rs : list RetrievalResult) :
  aligned (store self) ->
  retrieve settings self question k = Ok rs ->
  exists idxs,
    Forall2 (result_for (store self) (scores_of (store self) question)) idxs rs
    /\ NoDup idxs
    /\ (Z.of_nat (length (matrix (store self)))
        <= or_int k (Config.top_k settings) ->
        Permutation idxs (seq 0 (length (matrix (store self))))).
Proof.
  intros Hal Hrs.
  destruct (retrieve_aligned settings self question k Hal) as (rs0 & Hrs0 & HF).
  rewrite Hrs in Hrs0. injection Hrs0 as <-.
  eexists. split; [exact HF|]. split; [apply top_indices_NoDup|].
  intros Hk. rewrite <- (scores_of_length (store self) question).
  apply top_indices_all. by rewrite scores_of_length.
Qed.

End RetrieveSelection.

(** ** [retrieve] on a store that breaks the alignment *)

Section RetrieveMisaligned.
Context `{SciLibs}.

(** A loop in which the only exception that can be raised is [e] raises
    [e] as soon as one element does. *)
Lemma for_each_Raise {A B : Type} (f : A -> result B) (l : list A) (e : exn)
    (x : A) :
  x ∈ l -> f x = Raise e ->
  (forall y, y ∈ l -> f y = Raise e \/ exists z, f y = Ok z) ->
  for_each f l = Raise e.
Proof.
  induction l as [|a l IH]; intros Hx Hfx Hall; [by apply elem_of_nil in Hx|].
  simpl. destruct (Hall a ltac:(left)) as [Ha|[z Ha]]; rewrite Ha; [done|].
  apply elem_of_cons in Hx as [->|Hx]; [congruence|].
  rewrite IH; [done|done|done|]. intros y Hy. apply Hall. by right.
Qed.

(** X3. If the metadata list has one record per row but a selected record
    has no ["content"] entry, [retrieve] raises [KeyError("content")]. *)
Theorem retrieve_record_without_content (settings : Settings)
    (self : GPTLovBot) (question : string) (k : option Z) (i : nat)
    (md : gmap string pyval) :
  matrix (store self) <> [] ->
  length (Index.metadata (store self)) = length (matrix (store self)) ->
  i ∈ top_indices (scores_of (store self) question)
                  (or_int k (Config.top_k settings)) ->
  Index.metadata (store self) !! i = Some md ->
  md !! "content" = None ->
  retrieve settings self question k = Raise (KeyError "content").
Proof.
  intros Hne Hlen Hi Hmd Hnone.
  unfold retrieve. rewrite (cosine_similarity_rows _ _ Hne).
  change (List.map _ (matrix (store self))) with (scores_of (store self) question).
  simpl. eapply for_each_Raise; [exact Hi| |].
  - unfold getitem. rewrite Hmd. simpl. unfold dict_getitem. by rewrite Hnone.
  - intros j Hj. apply top_indices_in_range in Hj.
    rewrite scores_of_length, <- Hlen in Hj.
    destruct (lookup_lt_is_Some_2 _ _ Hj) as [md' Hmd'].
    unfold getitem. rewrite Hmd'. simpl. unfold dict_getitem.
    destruct (md' !! "content"); simpl; eauto.
Qed.

(** X4. If every record has its ["content"] but the metadata list is
    shorter than the matrix, [retrieve] raises [IndexError] whenever it
    selects a row that has no record. *)
Theorem retrieve_row_without_record (settings : Settings)
    (self : GPTLovBot) (question : string) (k : option Z) (i : nat) :
  matrix (store self) <> [] ->
  Forall (fun md => is_Some (md !! "content")) (Index.metadata (store self)) ->
  i ∈ top_indices (scores_of (store self) question)
                  (or_int k (Config.top_k settings)) ->
  (length (Index.metadata (store self)) <= i)%nat ->
  retrieve settings self question k = Raise IndexError.
Proof.
  intros Hne Hcontent Hi Hshort.
  unfold retrieve. rewrite (cosine_similarity_rows _ _ Hne).
  change (List.map _ (matrix (store self))) with (scores_of (store self) question).
  simpl. eapply for_each_Raise; [exact Hi| |].
  - unfold getitem. by rewrite (lookup_ge_None_2 _ _ Hshort).
  - intros j _. unfold getitem.
    destruct (Index.metadata (store self) !! j) as [md|] eqn:Hmd; [|by left].
    destruct (Forall_lookup_1 _ _ _ _ Hcontent Hmd) as [c Hc].
    right. simpl. unfold dict_getitem. rewrite Hc. eauto.
Qed.

End RetrieveMisaligned.

Module SelectionExamples.
Import Examples.

(** The two best of [three_chunks]. *)
Lemma retrieve_selects_highest_scores_witness :
  exists rs idxs,
    retrieve settings5 (bot_of three_chunks) "straff for tyveri" (Some 2) = Ok rs
    /\ Forall2 (result_for (store_of three_chunks)
                  (scores_of (store_of three_chunks) "straff for tyveri"))
               idxs rs
    /\ forall i j,
         i ∈ idxs -> (j < 3)%nat -> j ∉ idxs ->
         (nth j (scores_of (store_of three_chunks) "straff for tyveri") 0
          <= nth i (scores_of (store_of three_chunks) "straff for tyveri") 0)%Q.
Proof.
  destruct (retrieve_aligned settings5 (bot_of three_chunks) "straff for tyveri"
              (Some 2) (RetrieveExamples.store_of_aligned three_chunks
                          ltac:(discriminate))) as (rs & Hrs & _).
  destruct (retrieve_selects_highest_scores settings5 (bot_of three_chunks)
              "straff for tyveri" (Some 2) rs
              (RetrieveExamples.store_of_aligned three_chunks ltac:(discriminate))
              Hrs) as (idxs & HF & Hbest).
  exists rs, idxs. split; [exact Hrs|]. split; [exact HF|exact Hbest].
Defined.

(** A top-K of 5 on three documents returns the three of them. *)
Lemma retrieve_each_document_once_witness :
  exists rs idxs,
    retrieve settings5 (bot_of three_chunks) "straff for tyveri" None = Ok rs
    /\ Forall2 (result_for (store_of three_chunks)
                  (scores_of (store_of three_chunks) "straff for tyveri"))
               idxs rs
    /\ NoDup idxs
    /\ Permutation idxs [0; 1; 2]%nat.
Proof.
  destruct (retrieve_aligned settings5 (bot_of three_chunks) "straff for tyveri"
              None (RetrieveExamples.store_of_aligned three_chunks
                      ltac:(discriminate))) as (rs & Hrs & _).
  destruct (retrieve_each_document_once settings5 (bot_of three_chunks)
              "straff for tyveri" None rs
              (RetrieveExamples.store_of_aligned three_chunks ltac:(discriminate))
              Hrs) as (idxs & HF & Hnd & Hall).
  exists rs, idxs. split; [exact Hrs|]. split; [exact HF|].
  split; [exact Hnd|]. apply Hall. vm_compute. discriminate.
Defined.

(** The store of [three_chunks] with the text dropped from every record. *)
Definition without_content : GPTLovBot :=
  {| store := {| vectorizer := vectorizer (store_of three_chunks);
                 matrix := matrix (store_of three_chunks);
                 Index.metadata :=
                   List.map (delete "content")
                            (Index.metadata (store_of three_chunks)) |};
     model := "gpt-4o-mini"; _client := None |}.

Lemma retrieve_record_without_content_witness :
  retrieve settings5 without_content "straff for tyveri" (Some 1)
  = Raise (KeyError "content").
Proof.
  apply (retrieve_record_without_content settings5 without_content
           "straff for tyveri" (Some 1) 0
           (delete "content"
              (chunk_metadata (chunk "Straff for tyveri er bot eller fengsel" "P1")))).
  - discriminate.
  - reflexivity.
  - apply list_elem_of_In. vm_compute. left. reflexivity.
  - reflexivity.
  - apply lookup_delete_eq.
Defined.

(** The store of [three_chunks] with the last record missing. *)
Definition short_metadata : GPTLovBot :=
  {| store := {| vectorizer := vectorizer (store_of three_chunks);
                 matrix := matrix (store_of three_chunks);
                 Index.metadata :=
                   take 2 (Index.metadata (store_of three_chunks)) |};
     model := "gpt-4o-mini"; _client := None |}.

Lemma retrieve_row_without_record_witness :
  retrieve settings5 short_metadata "arv" (Some 1) = Raise IndexError.
Proof.
  apply (retrieve_row_without_record settings5 short_metadata "arv" (Some 1) 2).
  - discriminate.
  - repeat constructor; rewrite RetrieveExamples.chunk_metadata_content;
      by eexists.
  - apply list_elem_of_In. vm_compute. left. reflexivity.
  - simpl. lia.
Defined.

End SelectionExamples.

(** ** [ask] and [generate_answer] with a credential *)

Section AskWithKey.
Context `{SciLibs}.

(** What [context_dict] holds for the result built from the record [md]:
    the record itself, with the score added unless the record has a
    ["score"] of its own. *)
Lemma context_dict_lookup (md : gmap string pyval) (c : pyval) (s : Q)
    (key : string) :
  md !! "content" = Some c ->
  context_dict {| score := s; content := c; metadata := delete "content" md |}
    !! key
  = if decide (key = "score")
    then Some (default (PyFloat s) (md !! "score"))
    else md !! key.
Proof.
  intros Hc. unfold context_dict. cbn [score content metadata].
  destruct (decide (key = "content")) as [->|Hkc].
  { rewrite lookup_insert_eq. by rewrite decide_False. }
  rewrite lookup_insert_ne by done.
  destruct (decide (key = "score")) as [->|Hks].
  - destruct (md !! "score") as [v|] eqn:Hv; simpl.
    + rewrite lookup_union_l'; rewrite lookup_delete_ne by done; by rewrite Hv.
    + rewrite lookup_union_r by (by rewrite lookup_delete_ne).
      apply lookup_singleton_eq.
  - rewrite lookup_union_l by (by rewrite lookup_singleton_ne).
    by rewrite lookup_delete_ne.
Qed.

(** X5. Whatever path produced the answer, the contexts that [ask] returns
    are the stored metadata records of the selected documents, in ranking
    order and with their ["content"]; each has the similarity under
    ["score"], unless the record has a ["score"] entry of its own, which
    then takes its place. *)
Theorem ask_contexts_are_stored_records (settings : Settings)
    (self self' : GPTLovBot) (env : gmap string string)
    (service : completion_service) (question : string) (k : option Z)
    (a : Answer) (calls : list ChatRequest) :
  aligned (store self) ->
  ask settings self env service question k = (Ok a, self', calls) ->
  Forall2
    (fun i ctx =>
       exists md,
         Index.metadata (store self) !! i = Some md
         /\ forall key,
              ctx !! key
              = if decide (key = "score")
                then Some (default
                             (PyFloat (nth i (scores_of (store self) question) 0%Q))
                             (md !! "score"))
                else md !! key)
    (top_indices (scores_of (store self) question)
                 (or_int k (Config.top_k settings)))
    (contexts a).
Proof.
  intros Hal. unfold ask.
  destruct (retrieve_aligned settings self question k Hal) as (rs & -> & HF).
  destruct (generate_answer self env service question rs) as [[[text|e] s] c];
    [|done].
  intros [= <- _ _]. cbn [contexts].
  change (List.map context_dict rs) with (context_dict <$> rs).
  apply Forall2_fmap_r. eapply Forall2_impl; [exact HF|].
  intros i r (md & c' & Hmd & Hc & ->). exists md. split; [done|].
  intros key. by apply context_dict_lookup.
Qed.

Lemma _ensure_client_credential (self : GPTLovBot) (env : gmap string string) :
  has_credential self env ->
  exists client,
    _ensure_client self env
    = (Ok client, {| store := store self; model := model self;
                     _client := Some client |}).
Proof.
  unfold _ensure_client. destruct self as [st m [c|]]; cbn [_client store model].
  { intros _. by exists c. }
  intros [[c [=]]|Hkey].
  destruct (String.eqb_spec (or_str (env !! "OPENAI_API_KEY") "") ""); [done|].
  eauto.
Qed.

(** X6. With a credential, [ask] on an aligned store sends exactly one
    request to the completion service: it names the bot's model, has
    temperature 0.2 and a system and a user message. The answer is the
    reply with surrounding white space removed; a reply without content
    raises [AttributeError] and an exception of the service is passed on.
    The store and the model of the bot are kept. *)
Theorem ask_with_credential_calls_service_once (settings : Settings)
    (self : GPTLovBot) (env : gmap string string)
    (service : completion_service) (question : string) (k : option Z) :
  aligned (store self) ->
  has_credential self env ->
  exists blocks client request,
    retrieve settings self question k = Ok blocks
    /\ ask settings self env service question k
       = (match service client request with
          | Ok (Some reply) =>
              Ok {| answer := strip reply;
                    contexts := List.map context_dict blocks |}
          | Ok None => Raise AttributeError
          | Raise e => Raise e
          end,
          {| store := store self; model := model self; _client := Some client |},
          [request])
    /\ request_model request = model self
    /\ temperature request = (2 # 10)%Q
    /\ List.map fst (messages request) = ["system"; "user"].
Proof.
  intros Hal Hcred.
  destruct (retrieve_aligned settings self question k Hal) as (rs & Hrs & _).
  destruct (_ensure_client_credential self env Hcred) as [client Hclient].
  pose proof (eq_refl (ask settings self env service question k)) as Hask.
  unfold ask at 2, generate_answer in Hask.
  rewrite Hrs, Hclient in Hask. cbn [model] in Hask.
  match type of Hask with
  | context [service client ?rq] => exists rs, client, rq
  end.
  split; [exact Hrs|]. split; [|by split_and!].
  rewrite Hask. by destruct (service client _) as [[reply|]|e].
Qed.

(** X7. The client is created once: after a call of [generate_answer] in
    an environment with a key, the bot holds a client with that key (and
    the base URL, if one is set and not empty), and every later call
    reuses this client and sends its one request with it, naming the
    bot's model, whatever the environment then holds, a missing key
    included. The later call keeps the bot as it is; it returns a text
    when the service replies with content, raises [AttributeError] when
    the reply has none, and passes an exception of the service on. *)
Theorem generate_answer_creates_client_once (self : GPTLovBot)
    (env : gmap string string) (service : completion_service)
    (question : string) (blocks : list RetrievalResult) :
  _client self = None ->
  or_str (env !! "OPENAI_API_KEY") "" <> EmptyString ->
  exists client,
    snd (fst (generate_answer self env service question blocks))
    = {| store := store self; model := model self; _client := Some client |}
    /\ api_key client = or_str (env !! "OPENAI_API_KEY") ""
    /\ base_url client
       = (if String.eqb (or_str (env !! "OPENAI_BASE_URL") "") ""
          then None else env !! "OPENAI_BASE_URL")
    /\ forall env' service' question' blocks',
         exists request outcome,
           generate_answer
             {| store := store self; model := model self;
                _client := Some client |}
             env' service' question' blocks'
           = (outcome,
              {| store := store self; model := model self;
                 _client := Some client |},
              [request])
           /\ request_model request = model self
           /\ match service' client request with
              | Ok (Some _) => exists text, outcome = Ok text
              | Ok None => outcome = Raise AttributeError
              | Raise e => outcome = Raise e
              end.
Proof.
  intros Hnone Hkey.
  unfold generate_answer at 1, _ensure_client. rewrite Hnone.
  destruct (String.eqb_spec (or_str (env !! "OPENAI_API_KEY") "") ""); [done|].
  eexists. cbn [fst snd]. split; [reflexivity|].
  split; [by destruct (String.eqb _ "")|].
  split; [by destruct (String.eqb _ "")|].
  intros env' service' question' blocks'. eexists _, _.
  split; [reflexivity|]. split; [reflexivity|].
  destruct (service' _ _) as [[reply|]|e]; eauto.
Qed.

End AskWithKey.

Module CredentialExamples.
Import Examples.

(** A service that gives the same reply to every request. *)
Definition fixed_service (reply : string) : completion_service :=
  fun _ _ => Ok (Some reply).

Definition key_env : gmap string string := {["OPENAI_API_KEY" := "sk-test"]}.

(** The contexts of the answer given without a key. *)
Lemma ask_contexts_are_stored_records_witness :
  exists a,
    ask settings5 (bot_of three_chunks) ∅ (fixed_service "ja")
        "straff for tyveri" (Some 2) = (Ok a, bot_of three_chunks, [])
    /\ Forall2
         (fun i ctx =>
            exists md,
              Index.metadata (store_of three_chunks) !! i = Some md
              /\ forall key,
                   ctx !! key
                   = if decide (key = "score")
                     then Some (default
                                  (PyFloat
                                     (nth i (scores_of (store_of three_chunks)
                                               "straff for tyveri") 0%Q))
                                  (md !! "score"))
                     else md !! key)
         [0; 1]%nat (contexts a).
Proof.
  assert (top_indices (scores_of (store_of three_chunks) "straff for tyveri")
                      (or_int (Some 2) (Config.top_k settings5))
          = [0; 1]%nat) as Hidx by (vm_compute; reflexivity).
  set (scores := scores_of (store_of three_chunks) "straff for tyveri").
  pose proof (ask_fallback settings5 (bot_of three_chunks) ∅ (fixed_service "ja")
                "straff for tyveri" (Some 2)
                [result_of scores 0
                   (chunk "Straff for tyveri er bot eller fengsel" "P1");
                 result_of scores 1 (chunk "Straff for bedrageri er fengsel" "P2")]
                ["Straff for tyveri er bot eller fengsel";
                 "Straff for bedrageri er fengsel"]
                (or_introl eq_refl) eq_refl ltac:(vm_compute; reflexivity)
                eq_refl) as Hask.
  eexists. split; [exact Hask|]. rewrite <- Hidx.
  exact (ask_contexts_are_stored_records settings5 (bot_of three_chunks) _
           ∅ (fixed_service "ja") "straff for tyveri" (Some 2) _ _
           (RetrieveExamples.store_of_aligned three_chunks ltac:(discriminate))
           Hask).
Defined.

Lemma ask_with_credential_calls_service_once_witness :
  exists blocks client request,
    ask settings5 (bot_of three_chunks) key_env (fixed_service "  Ja. ")
        "straff for tyveri" (Some 2)
    = (Ok {| answer := "Ja."; contexts := List.map context_dict blocks |},
       {| store := store_of three_chunks; model := "gpt-4o-mini";
          _client := Some client |},
       [request])
    /\ request_model request = "gpt-4o-mini"
    /\ temperature request = (2 # 10)%Q.
Proof.
  assert (has_credential (bot_of three_chunks) key_env) as Hcred.
  { right. vm_compute. discriminate. }
  pose proof (RetrieveExamples.store_of_aligned three_chunks ltac:(discriminate))
    as Hal.
  pose proof (ask_with_credential_calls_service_once settings5
              (bot_of three_chunks) key_env (fixed_service "  Ja. ")
              "straff for tyveri" (Some 2) Hal Hcred) as Hthm.
  destruct Hthm as (blocks & client & request & _ & Hask & Hmodel & Htemp & _).
  exists blocks, client, request.
  split; [exact Hask|]. split; [exact Hmodel|exact Htemp].
Defined.

Lemma generate_answer_creates_client_once_witness :
  exists client,
    snd (fst (generate_answer (bot_of three_chunks) key_env
                (fixed_service "ja") "arv" []))
    = {| store := store_of three_chunks; model := "gpt-4o-mini";
         _client := Some client |}
    /\ api_key client = "sk-test"
    /\ exists request text,
         generate_answer
           {| store := store_of three_chunks; model := "gpt-4o-mini";
              _client := Some client |}
           ∅ (fixed_service " nei ") "skifte" []
         = (Ok text,
            {| store := store_of three_chunks; model := "gpt-4o-mini";
               _client := Some client |},
            [request])
         /\ request_model request = "gpt-4o-mini".
Proof.
  destruct (generate_answer_creates_client_once (bot_of three_chunks) key_env
              (fixed_service "ja") "arv" [] eq_refl
              ltac:(vm_compute; discriminate))
    as (client & Hbot & Hkey & _ & Hlater).
  exists client. split; [exact Hbot|]. split; [exact Hkey|].
  destruct (Hlater ∅ (fixed_service " nei ") "skifte" [])
    as (request & outcome & Hrun & Hmodel & [text ->]).
  exists request, text. split; [exact Hrun|exact Hmodel].
Defined.

End CredentialExamples.

(** ** [VectorStore.load], [VectorStore.save] and [build_vector_store]:
       errors and what is left untouched *)

Section PersistenceEdges.
Context `{SciLibs}.

(** X8. [load] only reads: the world after it is the world before it,
    whatever it returns. On a path that does not exist it raises
    [FileNotFoundError], on a directory an [OSError], and on a file that
    joblib cannot read the exception of joblib. *)
Theorem load_only_reads (p : path) (w : world) :
  snd (load p w) = w
  /\ (stat (files w) p = None ->
      exists msg, fst (load p w) = Raise (FileNotFoundError msg))
  /\ (stat (files w) p = Some Dir ->
      exists msg, fst (load p w) = Raise (OSError msg))
  /\ (forall data e,
        stat (files w) p = Some (File data) ->
        joblib_loads data = Raise e ->
        fst (load p w) = Raise e).
Proof.
  unfold load, bind, joblib_load, lift.
  destruct (stat (files w) p) as [[data|]|]; cbn [fst snd].
  - destruct (joblib_loads data) as [b|e] eqn:Hloads; cbn [fst snd];
      (split; [done|]); (split; [done|]); (split; [done|]);
      intros data' e' [= <-]; congruence.
  - split; [done|]. split; [done|]. split; [eauto|]. done.
  - split; [done|]. split; [eauto|]. split; [done|]. done.
Qed.

(** X9. A file that unpickles to a dictionary without one of the keys
    ["vectorizer"], ["matrix"], ["metadata"] makes [load] raise [KeyError]
    for the first key, in this order, that is missing. *)
Theorem load_bundle_without_key (p : path) (w : world) (data : list Byte.byte)
    (bundle : gmap string (field vectorizer_t row_t)) :
  stat (files w) p = Some (File data) ->
  joblib_loads data = Ok bundle ->
  bundle !! "vectorizer" = None \/ bundle !! "matrix" = None
  \/ bundle !! "metadata" = None ->
  load p w
  = (Raise (KeyError
              match bundle !! "vectorizer", bundle !! "matrix" with
              | None, _ => "vectorizer"
              | Some _, None => "matrix"
              | Some _, Some _ => "metadata"
              end),
     w).
Proof.
  intros Hstat Hloads Hmissing.
  unfold load, bind, joblib_load, lift. rewrite Hstat, Hloads.
  unfold bundle_getitem.
  destruct (bundle !! "vectorizer") as [v|]; [|done].
  destruct (bundle !! "matrix") as [m|]; [|done].
  destruct (bundle !! "metadata") as [md|]; [|done].
  by destruct Hmissing as [?|[?|?]].
Qed.

(** The files after a [save] that returned: the parent directories were
    created as needed and the pickled store is at [p]. *)
Lemma save_Ok_files (self : VectorStore) (p : path) (w w' : world) :
  save self p w = (Ok tt, w') ->
  exists name dir fs1,
    p = name :: dir
    /\ mkdir_p dir (files w) = Ok fs1
    /\ requests w' = requests w
    /\ exists data, files w' = <[p := File data]> fs1.
Proof.
  unfold save. intros Hrun.
  apply bind_inv in Hrun as [(u & w1 & Hmk & Hdump)|(e & _ & ?)]; [|done].
  apply on_files_Ok in Hmk as (fs1 & Hmk & ->).
  unfold joblib_dump in Hdump.
  apply on_files_Ok in Hdump as (fs2 & Hdump & ->). cbn [files requests] in *.
  destruct (open_wb p fs1) as [fs1'|e] eqn:Hopen; [|done].
  apply open_wb_Ok in Hopen as [Hp ->]. injection Hdump as <-.
  destruct p as [|name dir]; [done|]. cbn [tail] in Hmk.
  exists name, dir, fs1. split_and!; try done.
  eexists. apply write_insert.
Qed.

(** X10. A second [save] to the path of an artifact succeeds and replaces
    it: [load] then returns the store saved last. *)
Theorem save_replaces_artifact (first second : VectorStore) (p : path)
    (w w1 : world) :
  save first p w = (Ok tt, w1) ->
  exists w2,
    save second p w1 = (Ok tt, w2)
    /\ load p w2 = (Ok second, w2).
Proof.
  intros Hsave.
  apply save_Ok_files in Hsave
    as (name & dir & fs1 & -> & Hmk & _ & data & Hfs).
  destruct (mkdir_p_Ok _ _ _ Hmk) as (Hdir & _ & _).
  destruct (save_succeeds second name dir w1) as [w2 Hsave2].
  - rewrite Hfs, stat_insert_ne; [done|apply cons_ne].
  - by rewrite Hfs, lookup_insert_eq.
  - exists w2. split; [done|]. by eapply save_Ok.
Qed.

(** X11. [save] writes the artifact and creates the directories above it,
    and nothing else: no request is made, every entry that was there is
    kept unless it is the artifact itself, and no entry appears except at
    the path and at the directories above it. *)
Theorem save_touches_only_its_path (self : VectorStore) (p : path)
    (w w' : world) :
  save self p w = (Ok tt, w') ->
  requests w' = requests w
  /\ stat (files w') (tail p) = Some Dir
  /\ (forall q n, q <> p -> files w !! q = Some n -> files w' !! q = Some n)
  /\ (forall q, ~ q `suffix_of` p -> files w' !! q = files w !! q).
Proof.
  intros Hsave.
  apply save_Ok_files in Hsave
    as (name & dir & fs1 & -> & Hmk & Hrq & data & Hfs).
  destruct (mkdir_p_Ok _ _ _ Hmk) as (Hdir & Hkeep & Hother).
  rewrite Hfs. cbn [tail]. split_and!.
  - done.
  - rewrite stat_insert_ne; [done|apply cons_ne].
  - intros q n Hq Hn. rewrite lookup_insert_ne by done. by apply Hkeep.
  - intros q Hq. rewrite lookup_insert_ne.
    + apply Hother. intros Hs. apply Hq. by apply suffix_cons_r.
    + intros <-. by apply Hq.
Qed.

(** X12. If the vectorizer cannot be fitted (an empty vocabulary, say),
    [build_vector_store] passes the exception on and writes nothing. *)
Theorem build_vector_store_fit_failure (chunks : list DocumentChunk)
    (workspace : path) (max_features : option Z) (w : world) (e : exn) :
  chunks <> [] ->
  fit_transform {| lowercase := true; max_features := max_features;
                   ngram_range := (1, 2)%nat |} (List.map text chunks)
  = Raise e ->
  build_vector_store chunks workspace max_features w = (Raise e, w).
Proof.
  intros Hne Hfit. unfold build_vector_store.
  destruct chunks as [|c chunks]; [done|].
  unfold bind at 1, lift. by rewrite Hfit.
Qed.

End PersistenceEdges.

Module PersistenceExamples.
Import Examples IndexExamples.

Definition artifact : path := ["vector_store.pkl"; "workspace"; "data"].

(** A workspace whose artifact is not a pickle. *)
Definition garbage : world :=
  {| files := <[artifact := File [Byte.x05]]> (files empty_workspace);
     requests := [] |}.

Lemma load_only_reads_witness :
  (exists msg,
     load artifact empty_workspace
     = (Raise (FileNotFoundError msg), empty_workspace))
  /\ (exists msg,
        load ["workspace"; "data"] empty_workspace
        = (Raise (OSError msg), empty_workspace))
  /\ load artifact garbage = (Raise UnpicklingError, garbage).
Proof.
  split_and!.
  - destruct (load_only_reads artifact empty_workspace) as (Hw & Hmissing & _).
    destruct (Hmissing eq_refl) as [msg Hmsg]. exists msg.
    rewrite (surjective_pairing (load artifact empty_workspace)).
    by rewrite Hw, Hmsg.
  - destruct (load_only_reads ["workspace"; "data"] empty_workspace)
      as (Hw & _ & Hdir & _).
    destruct (Hdir eq_refl) as [msg Hmsg]. exists msg.
    rewrite (surjective_pairing (load ["workspace"; "data"] empty_workspace)).
    by rewrite Hw, Hmsg.
  - destruct (load_only_reads artifact garbage) as (Hw & _ & _ & Hbad).
    rewrite (surjective_pairing (load artifact garbage)).
    by rewrite Hw, (Hbad [Byte.x05] UnpicklingError eq_refl eq_refl).
Defined.

(** A pickle of a dictionary that has a vectorizer and nothing else. *)
Definition no_matrix : gmap string (field (list string) (list string)) :=
  {["vectorizer" := FVectorizer ["arv"]]}.

Definition incomplete : world :=
  {| files := <[artifact := File (Demo.demo_dumps no_matrix)]>
                (files empty_workspace);
     requests := [] |}.

Lemma load_bundle_without_key_witness :
  load artifact incomplete = (Raise (KeyError "matrix"), incomplete).
Proof.
  assert (stat (files incomplete) artifact
          = Some (File (Demo.demo_dumps no_matrix))) as Hstat
    by apply lookup_insert_eq.
  exact (load_bundle_without_key artifact incomplete _ no_matrix Hstat
           (DemoFacts.demo_roundtrip no_matrix) (or_intror (or_introl eq_refl))).
Defined.

(** Saving the store of [twin_chunks] over the one of [three_chunks]. *)
Lemma save_replaces_artifact_witness :
  exists w1 w2,
    save (store_of three_chunks) artifact empty_workspace = (Ok tt, w1)
    /\ save (store_of twin_chunks) artifact w1 = (Ok tt, w2)
    /\ load artifact w2 = (Ok (store_of twin_chunks), w2).
Proof.
  destruct (save_succeeds (store_of three_chunks) "vector_store.pkl"
              ["workspace"; "data"] empty_workspace) as [w1 Hsave];
    [reflexivity | vm_compute; discriminate |].
  destruct (save_replaces_artifact (store_of three_chunks)
              (store_of twin_chunks) artifact empty_workspace w1 Hsave)
    as (w2 & Hsave2 & Hload).
  by exists w1, w2.
Defined.

Lemma save_touches_only_its_path_witness :
  exists w',
    save (store_of three_chunks) artifact empty_workspace = (Ok tt, w')
    /\ requests w' = []
    /\ stat (files w') ["workspace"; "data"] = Some Dir
    /\ files w' !! ["data"] = Some Dir
    /\ files w' !! ["raw"; "data"] = None.
Proof.
  destruct (save_succeeds (store_of three_chunks) "vector_store.pkl"
              ["workspace"; "data"] empty_workspace) as [w' Hsave];
    [reflexivity | vm_compute; discriminate |].
  destruct (save_touches_only_its_path _ _ _ _ Hsave)
    as (Hrq & Hdir & Hkeep & Hother).
  exists w'. split_and!; [done|exact Hrq|exact Hdir| |].
  - apply (Hkeep ["data"] Dir); [discriminate|reflexivity].
  - rewrite (Hother ["raw"; "data"]); [reflexivity|].
    intros Hs. apply suffix_length in Hs as Hlen.
    apply suffix_cons_inv in Hs as [[=]|Hs].
    apply suffix_cons_inv in Hs as [[=]|Hs].
    apply suffix_cons_inv in Hs as [[=]|Hs].
    apply suffix_nil_inv in Hs. discriminate.
Defined.

(** A chunk without a word has no vocabulary. *)
Lemma build_vector_store_fit_failure_witness :
  build_vector_store [chunk "  " "blank"] ["workspace"; "data"] (Some 50000)
                     empty_workspace
  = (Raise (ValueError "empty vocabulary"), empty_workspace).
Proof.
  apply (build_vector_store_fit_failure [chunk "  " "blank"]
           ["workspace"; "data"] (Some 50000) empty_workspace).
  - discriminate.
  - vm_compute. reflexivity.
Defined.

End PersistenceExamples.

(** ** From [build_vector_store] to a bot *)

Section BuildThenInit.
Context `{SciLibs}.

(** The store that [build_vector_store] builds is aligned. *)
Lemma built_store_aligned (chunks : list DocumentChunk)
    (max_features : option Z) (st : VectorStore) :
  chunks <> [] -> built_store chunks max_features = Ok st ->
  aligned st /\ length (matrix st) = length chunks.
Proof.
  intros Hne. unfold built_store.
  destruct (fit_transform _ _) as [[v m]|e] eqn:Hfit; [|done].
  apply fit_transform_rows in Hfit as ->. intros [= <-].
  unfold aligned. cbn. rewrite !length_map. split_and!; try done.
  - by destruct chunks.
  - apply Forall_forall. intros md Hmd.
    apply list_elem_of_In, in_map_iff in Hmd as (c & <- & _).
    unfold chunk_metadata. rewrite lookup_insert_eq. by eexists.
Qed.

(** X13. A bot can be created from the artifact that [build_vector_store]
    has just written: [GPTLovBot(store_path, model)] returns without
    touching the world; the bot has no client yet, its model is [model]
    or, when that is [None] or empty, the configured one; and its store
    is aligned, with one row for each chunk. *)
Theorem bot_from_built_store (settings : Settings)
    (chunks : list DocumentChunk) (workspace : path)
    (max_features : option Z) (model_name : option string)
    (w w' : world) (p : path) :
  build_vector_store chunks workspace max_features w = (Ok p, w') ->
  exists bot,
    GPTLovBot_init settings p model_name w' = (Ok bot, w')
    /\ _client bot = None
    /\ model bot = or_str model_name (openai_model settings)
    /\ aligned (store bot)
    /\ length (matrix (store bot)) = length chunks.
Proof.
  intros (Hne & -> & st & Hbuilt & Hsave)%build_vector_store_Ok.
  apply save_Ok in Hsave.
  destruct (built_store_aligned _ _ _ Hne Hbuilt) as [Hal Hlen].
  eexists. unfold GPTLovBot_init, bind. rewrite Hsave. unfold ret.
  split; [reflexivity|]. by split_and!.
Qed.

(** X14. Without a credential the answer is made by joining the contents
    of the excerpts, which must be strings: if the content of one excerpt
    is anything else, [generate_answer] raises [TypeError], calls nothing
    and leaves the bot as it was. *)
Theorem generate_answer_fallback_needs_text (self : GPTLovBot)
    (env : gmap string string) (service : completion_service)
    (question : string) (blocks : list RetrievalResult)
    (block : RetrievalResult) :
  _client self = None ->
  or_str (env !! "OPENAI_API_KEY") "" = EmptyString ->
  block ∈ blocks ->
  (forall s, content block <> PyStr s) ->
  generate_answer self env service question blocks
  = (Raise TypeError, self, []).
Proof.
  intros Hclient Hkey Hin Hcontent.
  unfold generate_answer, _ensure_client. rewrite Hclient, Hkey.
  cbn [String.eqb]. unfold join_vals.
  rewrite (for_each_Raise as_str (List.map content blocks) TypeError
             (content block)); [done| | |].
  - apply list_elem_of_In, in_map, list_elem_of_In, Hin.
  - destruct (content block) as [|s|q]; [done| |done]. by destruct (Hcontent s).
  - intros v _. destruct v; cbn; eauto.
Qed.

End BuildThenInit.

Module BotExamples.
Import Examples IndexExamples.

Lemma bot_from_built_store_witness :
  exists w' bot,
    build_vector_store three_chunks ["workspace"; "data"] (Some 50000)
                       empty_workspace
    = (Ok ["vector_store.pkl"; "workspace"; "data"], w')
    /\ GPTLovBot_init settings5 ["vector_store.pkl"; "workspace"; "data"] None w'
       = (Ok bot, w')
    /\ model bot = "gpt-4o-mini"
    /\ aligned (store bot)
    /\ length (matrix (store bot)) = 3%nat.
Proof.
  destruct (build_vector_store_succeeds three_chunks ["workspace"; "data"]
              (Some 50000) empty_workspace
              ((Demo.vocabulary (List.map text three_chunks),
                List.map (Demo.demo_transform
                            (Demo.vocabulary (List.map text three_chunks)))
                         (List.map text three_chunks))
               : @vectorizer_t demo_libs * list (@row_t demo_libs)))
    as [w' Hbuild];
    [discriminate | vm_compute; reflexivity | reflexivity
    | vm_compute; discriminate |].
  destruct (bot_from_built_store settings5 _ _ _ None _ _ _ Hbuild)
    as (bot & Hinit & _ & Hmodel & Hal & Hlen).
  exists w', bot. split; [exact Hbuild|]. split; [exact Hinit|].
  split; [exact Hmodel|]. split; [exact Hal|exact Hlen].
Defined.

(** An excerpt whose content is [None]. *)
Definition no_text : RetrievalResult :=
  {| score := 1; content := PyNone; metadata := ∅ |}.

Lemma generate_answer_fallback_needs_text_witness :
  generate_answer (bot_of three_chunks) ∅ (fun _ _ => Raise APIError) "arv"
                  [no_text]
  = (Raise TypeError, bot_of three_chunks, []).
Proof.
  apply (generate_answer_fallback_needs_text (bot_of three_chunks) ∅
           (fun _ _ => Raise APIError) "arv" [no_text] no_text).
  - reflexivity.
  - reflexivity.
  - left.
  - discriminate.
Defined.

End BotExamples.

(** ** Requests: what the acquisition code asks of the network *)

Section EmitsFacts.

Lemma emits_nil {A : Type} (m : io A) :
  (forall w r w', m w = (r, w') -> requests w' = requests w) -> emits m [].
Proof.
  intros Hm w r w' Hrun. exists []. rewrite app_nil_r. split; [eauto|done].
Qed.

Lemma emits_ret {A : Type} (a : A) : emits (ret a) [].
Proof. apply emits_nil. by intros w r w' [= _ <-]. Qed.

Lemma emits_raise {A : Type} (e : exn) : emits (@raise A e) [].
Proof. apply emits_nil. by intros w r w' [= _ <-]. Qed.

Lemma emits_lift {A : Type} (r : result A) : emits (lift r) [].
Proof. apply emits_nil. by intros w r' w' [= _ <-]. Qed.

Lemma emits_on_files (f : files_t -> result files_t) : emits (on_files f) [].
Proof.
  apply emits_nil. intros w r w'. unfold on_files.
  destruct (f (files w)); by intros [= _ <-].
Qed.

Lemma emits_path_exists (p : path) : emits (path_exists p) [].
Proof. apply emits_nil. by intros w r w' [= _ <-]. Qed.

Lemma emits_write_body (p : path) (chunks : list (list Byte.byte))
    (complete : bool) : emits (write_body p chunks complete) [].
Proof. apply emits_nil. by intros w r w' [= _ <-]. Qed.

Lemma emits_extractall
    (members_of : list Byte.byte -> list (path * node) * bool)
    (archive dest : path) : emits (extractall members_of archive dest) [].
Proof.
  apply emits_nil. intros w r w'. unfold extractall.
  destruct (stat (files w) archive) as [[data|]|]; by intros [= _ <-].
Qed.

Lemma emits_httpx_stream (server : string -> response) (url : string) :
  emits (httpx_stream server url) [url].
Proof.
  intros w r w'. unfold httpx_stream.
  destruct (server url); intros [= _ <-]; by exists [url].
Qed.

Lemma emits_bind {A B : Type} (m : io A) (k : A -> io B)
    (urls1 urls2 : list string) :
  emits m urls1 -> (forall a, emits (k a) urls2) ->
  emits (bind m k) (urls1 ++ urls2).
Proof.
  intros Hm Hk w r w' Hrun.
  apply bind_inv in Hrun as [(a & w1 & Hrun1 & Hrun2)|(e & Hrun1 & _)].
  - destruct (Hm _ _ _ Hrun1) as (sent1 & Hrq1 & Hsub1).
    destruct (Hk a _ _ _ Hrun2) as (sent2 & Hrq2 & Hsub2).
    exists (sent1 ++ sent2). rewrite Hrq2, Hrq1, <- app_assoc.
    split; [done|by apply sublist_app].
  - destruct (Hm _ _ _ Hrun1) as (sent1 & Hrq1 & Hsub1).
    exists sent1. split; [done|]. by apply sublist_inserts_r.
Qed.

(** A step that sends nothing, followed by [k]. *)
Lemma emits_then {A B : Type} (m : io A) (k : A -> io B) (urls : list string) :
  emits m [] -> (forall a, emits (k a) urls) -> emits (bind m k) urls.
Proof. intros Hm Hk. by apply (emits_bind m k [] urls). Qed.

Lemma emits_if {A : Type} (b : bool) (m1 m2 : io A) (urls : list string) :
  emits m1 urls -> emits m2 urls -> emits (if b then m1 else m2) urls.
Proof. by destruct b. Qed.

Lemma emits_weaken {A : Type} (m : io A) (urls urls' : list string) :
  urls `sublist_of` urls' -> emits m urls -> emits m urls'.
Proof.
  intros Hsub Hm w r w' Hrun. destruct (Hm _ _ _ Hrun) as (sent & ? & ?).
  exists sent. split; [done|]. by etrans.
Qed.

End EmitsFacts.

Section RequestFacts.
Context `{Archives}.

Lemma emits_download_archive (server : string -> response) (filename : string)
    (dest_dir : path) :
  emits (download_archive server filename dest_dir) [archive_url filename].
Proof.
  unfold download_archive.
  apply emits_then; [apply emits_on_files|]. intros _.
  apply emits_then; [apply emits_path_exists|]. intros present.
  apply emits_if.
  { eapply emits_weaken; [|apply emits_ret]. apply sublist_nil_l. }
  apply (emits_bind _ _ [archive_url filename] []);
    [apply emits_httpx_stream|]. intros resp.
  apply emits_then; [apply emits_lift|]. intros _.
  apply emits_then; [apply emits_on_files|]. intros _.
  apply emits_then; [apply emits_write_body|]. intros _.
  apply emits_ret.
Qed.

Lemma emits_ensure_archives_loop (server : string -> response)
    (raw_dir : path) (force : bool) (names : list string) (paths : list path) :
  emits (ensure_archives_loop server raw_dir force names paths)
        (List.map archive_url names).
Proof.
  revert paths. induction names as [|name names IH]; intros paths.
  { apply emits_ret. }
  cbn [ensure_archives_loop List.map].
  apply emits_then; [apply emits_path_exists|]. intros present.
  apply emits_then.
  { apply emits_if; [apply emits_on_files|apply emits_ret]. }
  intros _.
  apply (emits_bind _ _ [archive_url name] (List.map archive_url names));
    [apply emits_download_archive|]. intros p. apply IH.
Qed.

Lemma emits_finalize (store_path src : path) : emits (_finalize store_path src) [].
Proof.
  unfold _finalize.
  apply emits_then; [apply emits_path_exists|]. intros present.
  apply emits_then.
  { apply emits_if; [apply emits_on_files|apply emits_ret]. }
  intros _. apply emits_then; [apply emits_on_files|]. intros _.
  apply emits_ret.
Qed.

Lemma emits_install (url : string) (ws : path) : emits (install url ws) [].
Proof.
  assert (forall src,
            emits (final_path <- _finalize (store_path ws) src ;;
                   on_files (rmtree true (tmp_dir ws)) ;;
                   ret final_path)%io []) as Hfinal.
  { intros src. apply emits_then; [apply emits_finalize|]. intros p.
    apply emits_then; [apply emits_on_files|]. intros _. apply emits_ret. }
  assert (forall members_of,
            emits (extractall members_of (download_target url ws) (tmp_dir ws) ;;
                   on_files (unlink (download_target url ws)) ;;
                   candidates <- (fun w => (Ok (rglob (tmp_dir ws)
                                                      VECTOR_STORE_FILENAME
                                                      (files w)), w)) ;;
                   match candidates with
                   | [] => raise (FileNotFoundError (not_found_message url))
                   | vector_path :: _ =>
                       final_path <- _finalize (store_path ws) vector_path ;;
                       on_files (rmtree true (tmp_dir ws)) ;;
                       ret final_path
                   end)%io []) as Hunpack.
  { intros members_of.
    apply emits_then; [apply emits_extractall|]. intros _.
    apply emits_then; [apply emits_on_files|]. intros _.
    apply emits_then.
    { apply emits_nil. by intros w r w' [= _ <-]. }
    intros [|src rest]; [apply emits_raise|apply Hfinal]. }
  unfold install. cbv zeta.
  repeat apply emits_if; auto.
Qed.

End RequestFacts.

Section RequestClaims.
Context `{Archives}.

(** X15. [ensure_archives] requests nothing but the archives it was asked
    for: the requests it adds are URLs of the wanted names under the
    Lovdata base URL, in the order of the names and at most one for each
    place in the list, whether the call returns or raises. *)
Theorem ensure_archives_requests_only_its_archives (settings : Settings)
    (server : string -> response) (filenames : option (list string))
    (force : bool) (w w' : world) (r : result (list path)) :
  ensure_archives settings server filenames force w = (r, w') ->
  exists sent,
    requests w' = requests w ++ sent
    /\ sent `sublist_of`
         List.map (fun name => String.append LOVDATA_BASE_URL name)
                  (wanted_archives settings filenames).
Proof.
  intros Hrun.
  by apply (emits_ensure_archives_loop server (raw_data_dir settings) force
              (wanted_archives settings filenames) []) in Hrun.
Qed.

(** The chain of redirects: it starts at the URL, each further address
    is the location that the server named for the one before, and it has
    at most one address more than redirects are allowed. *)
Lemma redirect_chain_links (server : string -> response) (n : nat) (url : string) :
  head (redirect_chain server url n) = Some url
  /\ (length (redirect_chain server url n) <= S n)%nat
  /\ forall i u v,
       redirect_chain server url n !! i = Some u ->
       redirect_chain server url n !! S i = Some v ->
       exists code, server u = Redirect code v.
Proof.
  revert url. induction n as [|n IH]; intros url.
  - cbn [redirect_chain]. split; [done|]. split.
    { destruct (server url); cbn; lia. }
    intros i u v _ Hv. by destruct (server url), i.
  - cbn [redirect_chain].
    split; [done|].
    destruct (server url) as [|status chunks complete|code location] eqn:Hurl.
    1,2: split; [cbn; lia|]; intros i u v _ Hv; by destruct i.
    destruct (IH location) as (Hhead & Hlen & Hlinks).
    split; [cbn [length]; lia|].
    intros [|i] u v Hu Hv.
    + injection Hu as <-. exists code. rewrite Hurl. f_equal.
      change (redirect_chain server location n !! 0%nat = Some v) in Hv.
      rewrite <- head_lookup, Hhead in Hv. by injection Hv.
    + by apply (Hlinks i).
Qed.

(** X16. [_download_prebuilt_vector_store] sends no request, or it
    requests the URL it was given and then follows the redirects that the
    server answers, as [follow_redirects=True] asks for, up to the twenty
    that [httpx] allows: the requests it adds are the chain that starts
    at the URL and continues with the location of each redirect, at most
    twenty-one addresses.  Where the server answers the URL with
    something other than a redirect, that is the one request to the
    URL. *)
Theorem prebuilt_requests_its_url_and_redirects (server : string -> response)
    (url : string) (ws : path) (force : bool) (w w' : world) (r : result path) :
  _download_prebuilt_vector_store server url ws force w = (r, w') ->
  exists sent,
    (requests w' = requests w \/ requests w' = requests w ++ sent)
    /\ sent = redirect_chain server url MAX_REDIRECTS
    /\ head sent = Some url
    /\ (length sent <= 21)%nat
    /\ (forall i u v,
          sent !! i = Some u -> sent !! S i = Some v ->
          exists code, server u = Redirect code v)
    /\ ((forall code location, server url <> Redirect code location) ->
        sent = [url]).
Proof.
  intros Hrun. exists (redirect_chain server url MAX_REDIRECTS).
  destruct (redirect_chain_links server MAX_REDIRECTS url)
    as (Hhead & Hlen & Hlinks).
  split_and!; [|done|done|done|done|].
  2:{ intros Hno. unfold MAX_REDIRECTS. cbn [redirect_chain].
      destruct (server url) as [| |code location]; [done|done|].
      by destruct (Hno code location). }
  assert (forall A (m : io A) w1 r1 w2,
            emits m [] -> m w1 = (r1, w2) -> requests w2 = requests w1)
    as Hquiet.
  { intros A m w1 r1 w2 Hm Hm1. destruct (Hm _ _ _ Hm1) as (sent & -> & Hsub).
    apply sublist_nil_r in Hsub as ->. by rewrite app_nil_r. }
  unfold _download_prebuilt_vector_store in Hrun.
  apply bind_inv in Hrun as [(u1 & w1 & Hmk & Hrun)|(e & Hmk & ->)].
  2:{ left. eapply Hquiet; [apply emits_on_files|done]. }
  apply (Hquiet _ _ _ _ _ (emits_on_files _)) in Hmk.
  apply bind_inv in Hrun as [(present & w2 & Hex & Hrun)|(e & Hex & ->)].
  2:{ left. by rewrite (Hquiet _ _ _ _ _ (emits_path_exists _) Hex). }
  apply (Hquiet _ _ _ _ _ (emits_path_exists _)) in Hex.
  destruct (present && negb force).
  { left. injection Hrun as _ <-. congruence. }
  apply bind_inv in Hrun as [(stale & w3 & Hex3 & Hrun)|(e & Hex3 & ->)].
  2:{ left. rewrite (Hquiet _ _ _ _ _ (emits_path_exists _) Hex3).
      congruence. }
  apply (Hquiet _ _ _ _ _ (emits_path_exists _)) in Hex3.
  assert (forall w4 r4 w5,
            (if stale then on_files (rmtree false (".vector_store_tmp" :: ws))
             else ret ()) w4 = (r4, w5) -> requests w5 = requests w4) as Hrm.
  { intros w4 r4 w5. apply Hquiet, emits_if;
      [apply emits_on_files|apply emits_ret]. }
  apply bind_inv in Hrun as [(u4 & w4 & Hrm4 & Hrun)|(e & Hrm4 & ->)].
  2:{ left. rewrite (Hrm _ _ _ Hrm4). congruence. }
  apply Hrm in Hrm4.
  apply bind_inv in Hrun as [(u5 & w5 & Hmk5 & Hrun)|(e & Hmk5 & ->)].
  2:{ left. rewrite (Hquiet _ _ _ _ _ (emits_on_files _) Hmk5). congruence. }
  apply (Hquiet _ _ _ _ _ (emits_on_files _)) in Hmk5.
  assert (requests w5 = requests w) as Hw5 by congruence.
  right. rewrite <- Hw5.
  unfold bind at 1, httpx_stream_follow in Hrun. rewrite follow_fetch in Hrun.
  destruct (fetch server url MAX_REDIRECTS) as [resp|e].
  2:{ by injection Hrun as _ <-. }
  cbv beta iota in Hrun.
  assert (emits (lift (raise_for_status (fst (fst resp))) ;;
                 on_files (open_wb (download_target url ws)) ;;
                 write_body (download_target url ws) (snd (fst resp))
                            (snd resp) ;;
                 install url ws)%io []) as Hrest.
  { apply emits_then; [apply emits_lift|]. intros _.
    apply emits_then; [apply emits_on_files|]. intros _.
    apply emits_then; [apply emits_write_body|]. intros _.
    apply emits_install. }
  fold (tmp_dir ws) in Hrun. fold (download_target url ws) in Hrun.
  by apply (Hquiet _ _ _ _ _ Hrest) in Hrun.
Qed.

End RequestClaims.

(** ** [download_archive]: what each outcome leaves on disk *)

Section DownloadOutcomes.
Context `{Archives}.

(** The directories that [dest_dir.mkdir] creates do not hide or create
    the destination. *)
Lemma mkdir_p_keeps_absent (filename : string) (dest_dir : path)
    (fs fs1 : files_t) :
  mkdir_p dest_dir fs = Ok fs1 ->
  exists_ fs1 (filename :: dest_dir) = exists_ fs (filename :: dest_dir).
Proof.
  intros Hmk. destruct (mkdir_p_Ok _ _ _ Hmk) as (_ & _ & Hother).
  unfold exists_. rewrite !stat_cons.
  by rewrite Hother by apply suffix_cons_not.
Qed.

(** X17. For a plain file name: if the destination does not exist and
    the server answers 2xx with a body that arrives completely,
    [download_archive] makes the one request, returns the destination and
    leaves the file system as [mkdir] left it plus the destination, which
    holds the chunks of the body in the order they arrived. *)
Theorem download_archive_stores_body (server : string -> response)
    (filename : string) (dest_dir : path) (w : world) (fs1 : files_t)
    (status : Z) (chunks : list (list Byte.byte)) :
  plain_name filename = true ->
  mkdir_p dest_dir (files w) = Ok fs1 ->
  exists_ (files w) (filename :: dest_dir) = false ->
  server (String.append LOVDATA_BASE_URL filename) = Response status chunks true ->
  success status = true ->
  download_archive server filename dest_dir w
  = (Ok (filename :: dest_dir),
     World (<[filename :: dest_dir := File (concat chunks)]> fs1)
           (requests w ++ [String.append LOVDATA_BASE_URL filename])).
Proof.
  intros _ Hmk Habsent Hserver Hstatus.
  rewrite <- (mkdir_p_keeps_absent filename _ _ _ Hmk) in Habsent.
  destruct (download_archive server filename dest_dir w) as [r w'] eqn:Hrun.
  apply download_archive_cases in Hrun
    as [(e & Hmk' & _)|(fs1' & Hmk' & [(Hex & _)|(_ & Hrq & Hsrv)])];
    [congruence| |]; rewrite Hmk in Hmk'; injection Hmk' as <-; [congruence|].
  unfold archive_url in *. rewrite Hserver, Hstatus in Hsrv.
  destruct Hsrv as [Hfs ->]. destruct w' as [fs' rq']. cbn in Hfs, Hrq.
  by rewrite Hfs, Hrq.
Qed.

(** X18. For a plain file name whose destination does not exist: if the
    connection fails or the status is not 2xx (a redirect, which this
    request does not follow, included), [download_archive] raises after
    its one request and writes no file: apart from the directories that
    [mkdir] created the file system is as before, and the destination
    still does not exist. *)
Theorem download_archive_failure_writes_nothing (server : string -> response)
    (filename : string) (dest_dir : path) (w : world) (fs1 : files_t) :
  plain_name filename = true ->
  mkdir_p dest_dir (files w) = Ok fs1 ->
  exists_ (files w) (filename :: dest_dir) = false ->
  match server (String.append LOVDATA_BASE_URL filename) with
  | ConnectError => True
  | Response status _ _ => success status = false
  | Redirect _ _ => True
  end ->
  download_archive server filename dest_dir w
  = (Raise match server (String.append LOVDATA_BASE_URL filename) with
           | ConnectError => TransportError
           | Response status _ _ => HTTPStatusError status
           | Redirect code _ => HTTPStatusError (code_status code)
           end,
     World fs1 (requests w ++ [String.append LOVDATA_BASE_URL filename]))
  /\ exists_ fs1 (filename :: dest_dir) = false.
Proof.
  intros _ Hmk Habsent Hserver.
  rewrite <- (mkdir_p_keeps_absent filename _ _ _ Hmk) in Habsent.
  split; [|done].
  destruct (download_archive server filename dest_dir w) as [r w'] eqn:Hrun.
  apply download_archive_cases in Hrun
    as [(e & Hmk' & _)|(fs1' & Hmk' & [(Hex & _)|(_ & Hrq & Hsrv)])];
    [congruence| |]; rewrite Hmk in Hmk'; injection Hmk' as <-; [congruence|].
  unfold archive_url in *. destruct w' as [fs' rq']. cbn in Hrq, Hsrv.
  destruct (server (String.append LOVDATA_BASE_URL filename))
    as [|status chunks complete|code location].
  - destruct Hsrv as [-> ->]. by rewrite Hrq.
  - rewrite Hserver in Hsrv. destruct Hsrv as [-> ->]. by rewrite Hrq.
  - destruct Hsrv as [-> ->]. by rewrite Hrq.
Qed.

(** X19. For a plain file name: a body that breaks off leaves the part
    that arrived at the destination: the call raises, but the next call,
    which only tests whether the destination exists, returns the
    truncated file as the archive without a request, whatever the server
    would answer. *)
Theorem download_archive_keeps_partial_file (server server' : string -> response)
    (filename : string) (dest_dir : path) (w : world) (fs1 : files_t)
    (status : Z) (chunks : list (list Byte.byte)) :
  plain_name filename = true ->
  mkdir_p dest_dir (files w) = Ok fs1 ->
  exists_ (files w) (filename :: dest_dir) = false ->
  server (String.append LOVDATA_BASE_URL filename) = Response status chunks false ->
  success status = true ->
  exists w1,
    download_archive server filename dest_dir w = (Raise TransportError, w1)
    /\ files w1 !! (filename :: dest_dir) = Some (File (concat chunks))
    /\ download_archive server' filename dest_dir w1
       = (Ok (filename :: dest_dir), w1).
Proof.
  intros _ Hmk Habsent Hserver Hstatus.
  rewrite <- (mkdir_p_keeps_absent filename _ _ _ Hmk) in Habsent.
  destruct (mkdir_p_Ok _ _ _ Hmk) as (Hdir & _ & _).
  destruct (download_archive server filename dest_dir w) as [r w'] eqn:Hrun.
  apply download_archive_cases in Hrun
    as [(e & Hmk' & _)|(fs1' & Hmk' & [(Hex & _)|(_ & Hrq & Hsrv)])];
    [congruence| |]; rewrite Hmk in Hmk'; injection Hmk' as <-; [congruence|].
  unfold archive_url in *. rewrite Hserver, Hstatus in Hsrv.
  destruct Hsrv as [Hfs ->]. exists w'. split; [done|].
  assert (files w' !! (filename :: dest_dir) = Some (File (concat chunks)))
    as Hfile by (rewrite Hfs; apply lookup_insert_eq).
  split; [done|]. apply download_archive_present.
  - rewrite Hfs, stat_insert_ne; [done|apply cons_ne].
  - apply exists_cons. by rewrite Hfile.
Qed.

End DownloadOutcomes.

(** ** [ensure_archives]: the paths it returns *)

Section EnsureArchivesPaths.
Context `{Archives}.

(** A download that returned left every other entry as it was. *)
Lemma download_archive_keeps (server : string -> response) (filename : string)
    (dest_dir : path) (w w' : world) (p q : path) (n : node) :
  download_archive server filename dest_dir w = (Ok p, w') ->
  q <> filename :: dest_dir ->
  files w !! q = Some n -> files w' !! q = Some n.
Proof.
  intros Hrun Hq Hn.
  apply download_archive_cases in Hrun
    as [(e & _ & ? & _)|(fs1 & Hmk & [(_ & _ & ->)|(_ & _ & Hsrv)])];
    [done|..].
  - destruct (mkdir_p_Ok _ _ _ Hmk) as (_ & Hkeep & _). by apply Hkeep.
  - destruct (mkdir_p_Ok _ _ _ Hmk) as (_ & Hkeep & _).
    destruct (server (archive_url filename)) as [|status chunks complete|code loc];
      [by destruct Hsrv| |by destruct Hsrv].
    destruct (success status); [|by destruct Hsrv].
    destruct Hsrv as [-> _]. rewrite lookup_insert_ne by done. by apply Hkeep.
Qed.

(** One round of the loop that returned. *)
Lemma ensure_archives_loop_cons (server : string -> response) (raw_dir : path)
    (force : bool) (name : string) (rest : list string)
    (paths result : list path) (w w' : world) :
  ensure_archives_loop server raw_dir force (name :: rest) paths w
  = (Ok result, w') ->
  exists w2,
    ensure_archives_loop server raw_dir force rest
                         (paths ++ [name :: raw_dir]) w2 = (Ok result, w')
    /\ stat (files w2) raw_dir = Some Dir
    /\ is_Some (files w2 !! (name :: raw_dir))
    /\ forall q n, q <> name :: raw_dir ->
         files w !! q = Some n -> files w2 !! q = Some n.
Proof.
  cbn [ensure_archives_loop]. unfold bind at 1, path_exists. cbv beta iota.
  intros Hrun.
  apply bind_inv in Hrun as [(u & w1 & Hunlink & Hrun)|(e & _ & ?)]; [|done].
  apply bind_inv in Hrun as [(p & w2 & Hdl & Hrun)|(e & _ & ?)]; [|done].
  destruct (download_archive_Ok _ _ _ _ _ _ Hdl) as (-> & Hdir & Hex).
  exists w2. split; [done|]. split; [done|].
  split; [by apply exists_cons|].
  intros q n Hq Hn. eapply download_archive_keeps; [exact Hdl|done|].
  destruct (force && exists_ (files w) (name :: raw_dir)).
  - apply on_files_Ok in Hunlink as (fs1 & Hunlink & ->).
    apply unlink_Ok in Hunlink as (-> & _ & _). cbn [files].
    by rewrite lookup_delete_ne.
  - unfold ret in Hunlink. by injection Hunlink as _ <-.
Qed.

(** A run of the loop that returned: the paths, in order; every entry
    that is not one of them is kept; the paths exist and the raw-data
    directory is a directory. *)
Lemma ensure_archives_loop_Ok (server : string -> response) (raw_dir : path)
    (force : bool) (names : list string) (paths result : list path)
    (w w' : world) :
  ensure_archives_loop server raw_dir force names paths w = (Ok result, w') ->
  result = paths ++ List.map (fun name => name :: raw_dir) names
  /\ (forall q n, q ∉ List.map (fun name => name :: raw_dir) names ->
        files w !! q = Some n -> files w' !! q = Some n)
  /\ Forall (fun p => exists_ (files w') p = true)
            (List.map (fun name => name :: raw_dir) names)
  /\ (names <> [] -> stat (files w') raw_dir = Some Dir).
Proof.
  revert paths w. induction names as [|name names IH]; intros paths w Hrun.
  { cbn in Hrun. unfold ret in Hrun. injection Hrun as <- <-.
    rewrite app_nil_r. split_and!; [done|done|constructor|done]. }
  apply ensure_archives_loop_cons in Hrun
    as (w2 & Hrun & Hdir & [m Hm] & Hkeep).
  destruct (IH _ _ Hrun) as (-> & Hrest & Hall & Hdir'). cbn [List.map].
  split; [by rewrite <- app_assoc|]. split_and!.
  - intros q n Hq Hn. apply not_elem_of_cons in Hq as [Hq1 Hq2].
    apply Hrest; [done|]. by apply Hkeep.
  - constructor; [|done].
    destruct (decide (name :: raw_dir
                      ∈ List.map (fun name => name :: raw_dir) names))
      as [Hin|Hnot].
    + by apply (proj1 (Forall_forall _ _) Hall).
    + apply exists_cons. rewrite (Hrest _ _ Hnot Hm). by eexists.
  - intros _. destruct names as [|name' names]; [|by apply Hdir'].
    cbn in Hrun. unfold ret in Hrun. by injection Hrun as _ <-.
Qed.

(** X20. When [ensure_archives] returns, it returns one path for each
    wanted name, in the order of the names, each the name inside the
    raw-data directory, and every one of these files exists. *)
Theorem ensure_archives_returns_existing_paths (settings : Settings)
    (server : string -> response) (filenames : option (list string))
    (force : bool) (w w' : world) (paths : list path) :
  ensure_archives settings server filenames force w = (Ok paths, w') ->
  paths = List.map (fun name => name :: raw_data_dir settings)
                   (wanted_archives settings filenames)
  /\ Forall (fun p => exists_ (files w') p = true) paths.
Proof.
  intros Hrun.
  apply (ensure_archives_loop_Ok server (raw_data_dir settings) force
           (wanted_archives settings filenames) []) in Hrun
    as (-> & _ & Hall & _).
  by split.
Qed.

(** Without [force], archives that are all present are returned as they
    are. *)
Lemma ensure_archives_loop_present (server : string -> response)
    (raw_dir : path) (names : list string) (paths : list path) (w : world) :
  stat (files w) raw_dir = Some Dir ->
  Forall (fun p => exists_ (files w) p = true)
         (List.map (fun name => name :: raw_dir) names) ->
  ensure_archives_loop server raw_dir false names paths w
  = (Ok (paths ++ List.map (fun name => name :: raw_dir) names), w).
Proof.
  intros Hdir. revert paths. induction names as [|name names IH];
    intros paths Hall.
  { cbn. by rewrite app_nil_r. }
  cbn [List.map] in Hall. apply Forall_cons in Hall as [Hname Hall].
  cbn [ensure_archives_loop List.map]. unfold bind at 1, path_exists.
  cbv beta iota. cbn [andb]. unfold bind at 1, ret at 1. cbv beta iota.
  unfold bind at 1. rewrite (download_archive_present _ _ _ _ Hdir Hname).
  rewrite IH by done. by rewrite <- app_assoc.
Qed.

(** X21. Acquisition is idempotent: after a call of [ensure_archives]
    that returned, a call without [force] for the same names returns the
    same paths, makes no request and changes nothing, whatever the server
    would answer. *)
Theorem ensure_archives_second_call_is_free (settings : Settings)
    (server server' : string -> response) (filenames : option (list string))
    (force : bool) (w w' : world) (paths : list path) :
  ensure_archives settings server filenames force w = (Ok paths, w') ->
  ensure_archives settings server' filenames false w' = (Ok paths, w').
Proof.
  intros Hrun.
  apply (ensure_archives_loop_Ok server (raw_data_dir settings) force
           (wanted_archives settings filenames) []) in Hrun
    as (-> & _ & Hall & Hdir).
  change (ensure_archives settings server' filenames false w')
    with (ensure_archives_loop server' (raw_data_dir settings) false
            (wanted_archives settings filenames) [] w').
  destruct (wanted_archives settings filenames) as [|name names] eqn:Hnames;
    [done|].
  apply ensure_archives_loop_present; [by apply Hdir|done].
Qed.

End EnsureArchivesPaths.

(** ** [_download_prebuilt_vector_store]: a download that is the artifact *)

Section PrebuiltRaw.
Context `{Archives}.







End PrebuiltRaw.

(** ** [_download_prebuilt_vector_store]: an archive that holds the artifact *)

Section PrebuiltArchive.
Context `{Archives}.




End PrebuiltArchive.

Module AcquisitionFurtherExamples.
Import Examples AcquisitionExamples PrebuiltExamples.

(** A server whose bodies break off after the first chunk. *)
Definition server_broken : string -> response :=
  fun _ => Response 200 [[Byte.x01]] false.

(** The default archives against a server that has neither. *)
Lemma ensure_archives_requests_only_its_archives_witness :
  exists r w' sent,
    ensure_archives settings5 server_only_b None false empty_raw = (r, w')
    /\ requests w' = sent
    /\ sent `sublist_of`
         [archive_url "gjeldende-lover.tar.bz2";
          archive_url "gjeldende-sentrale-forskrifter.tar.bz2"].
Proof.
  destruct (ensure_archives settings5 server_only_b None false empty_raw)
    as [r w'] eqn:Hrun.
  destruct (ensure_archives_requests_only_its_archives _ _ _ _ _ _ _ Hrun)
    as (sent & Hrq & Hsub).
  exists r, w', sent. split; [reflexivity|]. split; [exact Hrq|exact Hsub].
Defined.

(** A run that is sent on to a mirror: two requests at most. *)
Lemma prebuilt_requests_its_url_and_redirects_witness :
  exists r w',
    _download_prebuilt_vector_store server_moved tar_url ws true installed
    = (r, w')
    /\ (requests w' = []
        \/ requests w'
           = [tar_url; "https://mirror.example.org/store.tar.gz"]).
Proof.
  destruct (_download_prebuilt_vector_store server_moved tar_url ws true
              installed) as [r w'] eqn:Hrun.
  exists r, w'. split; [reflexivity|].
  destruct (prebuilt_requests_its_url_and_redirects _ _ _ _ _ _ _ Hrun)
    as (sent & Hrq & -> & _).
  exact Hrq.
Defined.

Lemma download_archive_stores_body_witness :
  download_archive server_ok "a.tar.bz2" raw empty_raw
  = (Ok ("a.tar.bz2" :: raw),
     World (<["a.tar.bz2" :: raw := File [Byte.x01; Byte.x02; Byte.x03]]>
              (files empty_raw))
           [archive_url "a.tar.bz2"]).
Proof.
  apply (download_archive_stores_body server_ok "a.tar.bz2" raw empty_raw
           (files empty_raw) 200 [[Byte.x01; Byte.x02]; [Byte.x03]]);
    reflexivity.
Defined.

Lemma download_archive_failure_writes_nothing_witness :
  download_archive server_only_b "a.tar.bz2" raw empty_raw
  = (Raise (HTTPStatusError 404),
     World (files empty_raw) [archive_url "a.tar.bz2"])
  /\ exists_ (files empty_raw) ("a.tar.bz2" :: raw) = false.
Proof.
  apply (download_archive_failure_writes_nothing server_only_b "a.tar.bz2" raw
           empty_raw (files empty_raw)); reflexivity.
Defined.

Lemma download_archive_keeps_partial_file_witness :
  exists w1,
    download_archive server_broken "a.tar.bz2" raw empty_raw
    = (Raise TransportError, w1)
    /\ files w1 !! ("a.tar.bz2" :: raw) = Some (File [Byte.x01])
    /\ download_archive server_ok "a.tar.bz2" raw w1
       = (Ok ("a.tar.bz2" :: raw), w1).
Proof.
  apply (download_archive_keeps_partial_file server_broken server_ok
           "a.tar.bz2" raw empty_raw (files empty_raw) 200 [[Byte.x01]]);
    reflexivity.
Defined.

Lemma ensure_archives_returns_existing_paths_witness :
  exists w',
    ensure_archives settings5 server_ok (Some ["a.tar.bz2"; "b.tar.bz2"]) false
                    empty_raw
    = (Ok ["a.tar.bz2" :: raw; "b.tar.bz2" :: raw], w')
    /\ Forall (fun p => exists_ (files w') p = true)
              ["a.tar.bz2" :: raw; "b.tar.bz2" :: raw].
Proof.
  assert (fst (ensure_archives settings5 server_ok
                 (Some ["a.tar.bz2"; "b.tar.bz2"]) false empty_raw)
          = Ok ["a.tar.bz2" :: raw; "b.tar.bz2" :: raw]) as Hok
    by (vm_compute; reflexivity).
  destruct (ensure_archives settings5 server_ok
              (Some ["a.tar.bz2"; "b.tar.bz2"]) false empty_raw)
    as [r w'] eqn:Hrun.
  cbn [fst] in Hok. subst r.
  destruct (ensure_archives_returns_existing_paths _ _ _ _ _ _ _ Hrun)
    as [_ Hall].
  exists w'. split; [reflexivity|exact Hall].
Defined.

(** A forced acquisition, then a call against a server that has nothing. *)
Lemma ensure_archives_second_call_is_free_witness :
  exists w',
    ensure_archives settings5 server_ok (Some ["a.tar.bz2"]) true old_copy
    = (Ok ["a.tar.bz2" :: raw], w')
    /\ ensure_archives settings5 server_404 (Some ["a.tar.bz2"]) false w'
       = (Ok ["a.tar.bz2" :: raw], w').
Proof.
  assert (fst (ensure_archives settings5 server_ok (Some ["a.tar.bz2"]) true
                 old_copy)
          = Ok ["a.tar.bz2" :: raw]) as Hok by (vm_compute; reflexivity).
  destruct (ensure_archives settings5 server_ok (Some ["a.tar.bz2"]) true
              old_copy) as [r w'] eqn:Hrun.
  cbn [fst] in Hok. subst r.
  exists w'. split; [reflexivity|].
  exact (ensure_archives_second_call_is_free settings5 server_ok server_404
           (Some ["a.tar.bz2"]) true old_copy w' _ Hrun).
Defined.



End AcquisitionFurtherExamples.

(** ** Settings: which variable wins, and the archive list *)

Ltac setting_name :=
  unfold SETTING_NAMES;
  repeat first [apply list_elem_of_here | apply list_elem_of_further].

Section SettingsFacts.

Lemma _getenv_pair (env : gmap string string) (first second : string) :
  _getenv env [first; second] None
  = match env !! first with
    | Some value => Some value
    | None => env !! second
    end.
Proof. simpl. by destruct (env !! first), (env !! second). Qed.

(** Changing the second variable of a pair does not matter when the first
    one is set. *)
Lemma _getenv_pair_ext (env env' : gmap string string) (first second : string) :
  env' !! first = env !! first ->
  is_Some (env !! first) \/ env' !! second = env !! second ->
  _getenv env' [first; second] None = _getenv env [first; second] None.
Proof.
  intros Hfirst Hsecond. rewrite !_getenv_pair, Hfirst.
  destruct (env !! first) as [v|]; [done|].
  destruct Hsecond as [[v Hv]|Heq]; [done|by rewrite Heq].
Qed.

(** X24. A [GPTLOV_] variable that is set hides its [LOVCHAT_]
    counterpart, also when it is set to the empty string (the default
    then applies): two environments that agree on the [GPTLOV_]
    variables, and on every [LOVCHAT_] variable whose [GPTLOV_]
    counterpart is unset, give the same settings. *)
Theorem settings_gptlov_variable_hides_lovchat (env env' : gmap string string)
    (to_path : string -> path) (to_int : string -> result Z) :
  (forall name, name ∈ SETTING_NAMES ->
     env' !! String.append "GPTLOV_" name = env !! String.append "GPTLOV_" name) ->
  (forall name, name ∈ SETTING_NAMES ->
     is_Some (env !! String.append "GPTLOV_" name)
     \/ env' !! String.append "LOVCHAT_" name
        = env !! String.append "LOVCHAT_" name) ->
  Settings_new env' to_path to_int = Settings_new env to_path to_int.
Proof.
  intros Hg Hl.
  assert (forall name, name ∈ SETTING_NAMES ->
            _getenv env' [String.append "GPTLOV_" name;
                          String.append "LOVCHAT_" name] None
            = _getenv env [String.append "GPTLOV_" name;
                           String.append "LOVCHAT_" name] None) as Hpair.
  { intros name Hname. apply _getenv_pair_ext; auto. }
  pose proof (Hpair "RAW_DATA_DIR" ltac:(setting_name)) as Hraw.
  pose proof (Hpair "WORKSPACE_DIR" ltac:(setting_name)) as Hws.
  pose proof (Hpair "OPENAI_MODEL" ltac:(setting_name)) as Hmodel.
  pose proof (Hpair "TOP_K" ltac:(setting_name)) as Htop.
  pose proof (Hpair "ARCHIVES" ltac:(setting_name)) as Harch.
  cbv beta iota delta [String.append] in Hraw, Hws, Hmodel, Htop, Harch.
  unfold Settings_new, Settings_defaults, Settings_post_init.
  by rewrite Hraw, Hws, Hmodel, Htop, Harch.
Qed.

(** X25. [gptlov] reads the settings of [lovchat]: when no [GPTLOV_]
    variable is set and no [LOVCHAT_] variable is set to the empty string,
    [gptlov]'s [Settings()] has, in the four fields that [lovchat]'s has,
    the values that [lovchat]'s [Settings()] computes, and it raises when
    that one does. *)
Theorem settings_agree_with_lovchat (env : gmap string string)
    (to_path : string -> path) (to_int : string -> result Z) :
  (forall name, name ∈ SETTING_NAMES ->
     env !! String.append "GPTLOV_" name = None) ->
  (forall name, name ∈ SETTING_NAMES ->
     env !! String.append "LOVCHAT_" name <> Some EmptyString) ->
  Lovchat.Settings_new env to_path to_int
  = legacy_view <$> Config.Settings_new env to_path to_int.
Proof.
  intros Hg Hl.
  assert (forall name fallback, name ∈ SETTING_NAMES ->
            or_str (_getenv env [String.append "GPTLOV_" name;
                                 String.append "LOVCHAT_" name] None) fallback
            = Lovchat.getenv env (String.append "LOVCHAT_" name) fallback)
    as Hpair.
  { intros name fallback Hname. rewrite _getenv_pair, (Hg name Hname).
    unfold Lovchat.getenv, or_str. specialize (Hl name Hname).
    destruct (env !! String.append "LOVCHAT_" name) as [v|]; [|done].
    destruct (String.eqb_spec v ""); [congruence|done]. }
  pose proof (Hpair "RAW_DATA_DIR" "data/raw" ltac:(setting_name)) as Hraw.
  pose proof (Hpair "WORKSPACE_DIR" "data/workspace" ltac:(setting_name)) as Hws.
  pose proof (Hpair "OPENAI_MODEL" "gpt-4o-mini" ltac:(setting_name)) as Hmodel.
  pose proof (Hpair "TOP_K" "5" ltac:(setting_name)) as Htop.
  cbv beta iota delta [String.append] in Hraw, Hws, Hmodel, Htop.
  unfold Config.Settings_new, Settings_defaults, Lovchat.Settings_new.
  rewrite Hraw, Hws, Hmodel, Htop.
  destruct (to_int (Lovchat.getenv env "LOVCHAT_TOP_K" "5")) as [k|e]; [|done].
  cbn. unfold legacy_view, Settings_post_init. cbn.
  by destruct (negb _).
Qed.

End SettingsFacts.

(** ** The archive list of the environment *)

Section ArchiveList.

Lemma append_cons (x : ascii) (a b : string) :
  String.append (String x a) b = String x (String.append a b).
Proof. reflexivity. Qed.

Lemma lstrip_unfold (s : string) :
  lstrip s = match space_prefix s with
             | Some rest => lstrip rest
             | None => s
             end.
Proof.
  destruct s as [|c1 s1]; [done|]. cbn [lstrip space_prefix].
  destruct (is_space c1); [done|]. destruct s1 as [|c2 s2]; [done|].
  destruct (is_space2 c1 c2); [done|]. destruct s2 as [|c3 s3]; [done|].
  by destruct (is_space3 c1 c2 c3).
Qed.

Lemma space_prefix_length (s rest : string) :
  space_prefix s = Some rest -> (String.length rest < String.length s)%nat.
Proof.
  destruct s as [|c1 s1]; [done|]. cbn [space_prefix].
  destruct (is_space c1); [intros [= <-]; cbn; lia|].
  destruct s1 as [|c2 s2]; [done|].
  destruct (is_space2 c1 c2); [intros [= <-]; cbn; lia|].
  destruct s2 as [|c3 s3]; [done|].
  destruct (is_space3 c1 c2 c3); [intros [= <-]; cbn; lia|done].
Qed.

(** White space at the start of [s] is white space at the start of every
    string that [s] starts. *)
Lemma space_prefix_app (s rest t : string) :
  space_prefix s = Some rest ->
  space_prefix (String.append s t) = Some (String.append rest t).
Proof.
  destruct s as [|c1 s1]; [done|]. rewrite append_cons. cbn [space_prefix].
  destruct (is_space c1); [by intros [= <-]|].
  destruct s1 as [|c2 s2]; [done|]. rewrite append_cons.
  destruct (is_space2 c1 c2); [by intros [= <-]|].
  destruct s2 as [|c3 s3]; [done|]. rewrite append_cons.
  destruct (is_space3 c1 c2 c3); [by intros [= <-]|done].
Qed.

Lemma string_length_ind (P : string -> Prop) :
  (forall s, (forall t, (String.length t < String.length s)%nat -> P t) -> P s) ->
  forall s, P s.
Proof.
  intros Hstep s. remember (String.length s) as n eqn:Hn.
  revert s Hn. induction n as [n IH] using lt_wf_ind. intros s ->.
  apply Hstep. intros t Ht. by apply (IH (String.length t)).
Qed.

Lemma lstrip_length (s : string) :
  (String.length (lstrip s) <= String.length s)%nat.
Proof.
  induction s as [s IH] using string_length_ind. rewrite lstrip_unfold.
  destruct (space_prefix s) as [rest|] eqn:Hs; [|done].
  apply space_prefix_length in Hs as Hlt. specialize (IH _ Hlt). lia.
Qed.

Lemma lstrip_fixed (s : string) :
  lstrip s = s <-> s = EmptyString \/ space_prefix s = None.
Proof.
  rewrite lstrip_unfold. destruct (space_prefix s) as [rest|] eqn:Hs.
  - split; [|intros [->|?]; done]. intros Heq.
    apply space_prefix_length in Hs. pose proof (lstrip_length rest) as Hle.
    rewrite Heq in Hle. lia.
  - split; [by right|done].
Qed.

Lemma lstrip_idemp (s : string) : lstrip (lstrip s) = lstrip s.
Proof.
  induction s as [s IH] using string_length_ind.
  rewrite (lstrip_unfold s).
  destruct (space_prefix s) as [rest|] eqn:Hs.
  - apply IH. by apply space_prefix_length.
  - rewrite lstrip_unfold. by rewrite Hs.
Qed.

(** White space followed by [t] strips to what [t] strips to. *)
Lemma lstrip_app_space (s t : string) :
  lstrip s = EmptyString -> lstrip (String.append s t) = lstrip t.
Proof.
  induction s as [s IH] using string_length_ind. intros Hs.
  rewrite lstrip_unfold in Hs.
  destruct (space_prefix s) as [rest|] eqn:Hp.
  - rewrite lstrip_unfold, (space_prefix_app _ _ t Hp).
    apply IH; [by apply space_prefix_length|done].
  - by subst s.
Qed.

(** [rstrip] cuts white space off the end. *)
Lemma rstrip_app (s : string) :
  exists t, s = String.append (rstrip s) t /\ lstrip t = EmptyString.
Proof.
  induction s as [|c s (t & Ht & Hspace)]; [by exists EmptyString|].
  cbn [rstrip]. destruct (String.eqb_spec (lstrip (String c s)) "") as [Hall|Hnot].
  - by exists (String c s).
  - exists t. rewrite append_cons. by rewrite <- Ht.
Qed.

Lemma rstrip_idemp (s : string) : rstrip (rstrip s) = rstrip s.
Proof.
  induction s as [|c s IH]; [done|]. cbn [rstrip].
  destruct (String.eqb_spec (lstrip (String c s)) "") as [Hall|Hnot]; [done|].
  cbn [rstrip]. rewrite IH.
  destruct (String.eqb_spec (lstrip (String c (rstrip s))) "") as [Hall'|_];
    [|done].
  destruct Hnot. destruct (rstrip_app s) as (t & Ht & Hspace).
  rewrite Ht at 1. rewrite <- append_cons.
  by rewrite (lstrip_app_space _ _ Hall').
Qed.

(** What [lstrip] leaves does not start with white space, and neither
    does what [rstrip] keeps of it. *)
Lemma lstrip_rstrip (s : string) : lstrip s = s -> lstrip (rstrip s) = rstrip s.
Proof.
  intros Hs. apply lstrip_fixed.
  destruct (rstrip_app s) as (t & Ht & _).
  destruct (space_prefix (rstrip s)) as [rest|] eqn:Hp; [|by right].
  left. apply lstrip_fixed in Hs as [->|Hnone]; [done|].
  rewrite Ht in Hnone. by rewrite (space_prefix_app _ _ t Hp) in Hnone.
Qed.

Lemma strip_idemp (s : string) : strip (strip s) = strip s.
Proof.
  unfold strip. rewrite (lstrip_rstrip (lstrip s)) by apply lstrip_idemp.
  apply rstrip_idemp.
Qed.

Lemma append_assoc (a b c : string) :
  String.append (String.append a b) c = String.append a (String.append b c).
Proof. induction a as [|x a IH]; [done|]. by rewrite !append_cons, IH. Qed.

Lemma append_nil_r (a : string) : String.append a EmptyString = a.
Proof. induction a as [|x a IH]; [done|]. by rewrite append_cons, IH. Qed.

(** Scanning a part without separator accumulates it. *)
Lemma split_on_append (sep : ascii) (cur part rest : string) :
  ~ In sep (list_ascii_of_string part) ->
  split_on sep cur (String.append part rest)
  = split_on sep (String.append cur part) rest.
Proof.
  revert cur. induction part as [|c part IH]; intros cur Hpart.
  { by rewrite append_nil_r. }
  rewrite append_cons. cbn [split_on]. cbn [list_ascii_of_string] in Hpart.
  destruct (Ascii.eqb_spec c sep) as [->|Hne].
  { destruct Hpart. by left. }
  rewrite IH by (intros Hin; apply Hpart; by right).
  by rewrite append_assoc.
Qed.

(** [",".join(names).split(",")] gives the names back. *)
Lemma split_on_join (sep : ascii) (names : list string) :
  names <> [] ->
  Forall (fun name => ~ In sep (list_ascii_of_string name)) names ->
  split_on sep EmptyString (join (String sep EmptyString) names) = names.
Proof.
  induction names as [|name names IH]; [done|]. intros _ Hall.
  apply Forall_cons in Hall as [Hname Hall].
  destruct names as [|name' names].
  - cbn [join]. rewrite <- (append_nil_r name) at 1.
    by rewrite split_on_append.
  - change (join (String sep EmptyString) (name :: name' :: names))
      with (String.append name
              (String.append (String sep EmptyString)
                 (join (String sep EmptyString) (name' :: names)))).
    rewrite split_on_append by done. rewrite append_cons. cbn [split_on].
    rewrite Ascii.eqb_refl. f_equal. by apply IH.
Qed.

Lemma filter_map_fixed (names : list string) :
  Forall (fun name => name <> EmptyString /\ strip name = name) names ->
  List.filter (fun part => negb (String.eqb part "")) (List.map strip names)
  = names.
Proof.
  induction 1 as [|name names [Hne Hstrip] _ IH]; [done|].
  cbn [List.map List.filter]. rewrite Hstrip, IH.
  by destruct (String.eqb_spec name "").
Qed.

Lemma join_nonempty (sep : string) (names : list string) :
  names <> [] -> Forall (fun name => name <> EmptyString) names ->
  join sep names <> EmptyString.
Proof.
  destruct names as [|name names]; [done|]. intros _ Hall.
  apply Forall_cons in Hall as [Hname _].
  destruct name as [|c name]; [done|]. by destruct names.
Qed.

(** X26. An archive list written to [GPTLOV_ARCHIVES] comes back: if the
    variable holds names joined by commas, the names being non-empty,
    without commas and without white space at their ends, the settings
    have exactly these names, in this order, whatever archives were
    given to the constructor. *)
Theorem settings_archives_from_environment (env : gmap string string)
    (self : Settings) (names : list string) :
  names <> [] ->
  Forall (fun name => name <> EmptyString /\ strip name = name /\ no_comma name)
         names ->
  env !! "GPTLOV_ARCHIVES" = Some (join "," names) ->
  archives (Settings_post_init env self) = names.
Proof.
  intros Hne Hall Henv. unfold Settings_post_init.
  rewrite _getenv_pair, Henv. unfold or_str.
  assert (join "," names <> EmptyString) as Hjoin.
  { apply join_nonempty; [done|].
    eapply Forall_impl; [exact Hall|]. by intros ? (? & _). }
  assert (String.eqb (join "," names) "" = false) as Heqb
    by (by apply String.eqb_neq).
  rewrite !Heqb. cbn [negb archives].
  rewrite split_on_join.
  - apply filter_map_fixed. eapply Forall_impl; [exact Hall|].
    by intros ? (? & ? & _).
  - done.
  - eapply Forall_impl; [exact Hall|]. by intros ? (_ & _ & ?).
Qed.

(** X27. Every archive name that the settings take from the environment
    is non-empty and has no white space at its ends; and when the
    environment gives no list, the settings have at least one archive. *)
Theorem settings_archives_are_clean (env : gmap string string)
    (self : Settings) :
  (or_str (_getenv env ["GPTLOV_ARCHIVES"; "LOVCHAT_ARCHIVES"] None) ""
   <> EmptyString ->
   Forall (fun name => name <> EmptyString /\ strip name = name)
          (archives (Settings_post_init env self)))
  /\ (or_str (_getenv env ["GPTLOV_ARCHIVES"; "LOVCHAT_ARCHIVES"] None) ""
      = EmptyString ->
      archives (Settings_post_init env self) <> []).
Proof.
  unfold Settings_post_init.
  destruct (String.eqb_spec
              (or_str (_getenv env ["GPTLOV_ARCHIVES"; "LOVCHAT_ARCHIVES"] None) "")
              "") as [Hempty|Hset]; cbn [negb].
  - split; [done|]. intros _.
    destruct (archives self) as [|name rest] eqn:Hgiven; [done|].
    by rewrite Hgiven.
  - split; [|done]. intros _. cbn [archives].
    apply Forall_forall. intros name Hin.
    apply list_elem_of_In, filter_In in Hin as [Hin Hne].
    apply in_map_iff in Hin as (part & <- & _).
    split; [|apply strip_idemp].
    intros E. by rewrite E in Hne.
Qed.

End ArchiveList.

(** ** [ensure_directories] *)

Section Directories.

(** X28. After [ensure_directories] has returned, the raw-data directory
    and the workspace are directories; every entry that was there is
    still there, no request was made, and calling it again changes
    nothing. *)
Theorem ensure_directories_idempotent (settings : Settings) (w w' : world) :
  ensure_directories settings w = (Ok tt, w') ->
  stat (files w') (raw_data_dir settings) = Some Dir
  /\ stat (files w') (workspace_dir settings) = Some Dir
  /\ (forall q n, files w !! q = Some n -> files w' !! q = Some n)
  /\ requests w' = requests w
  /\ ensure_directories settings w' = (Ok tt, w').
Proof.
  unfold ensure_directories. intros Hrun.
  apply bind_inv in Hrun as [(u & w1 & Hraw & Hws)|(e & _ & ?)]; [|done].
  apply on_files_Ok in Hraw as (fs1 & Hraw & ->).
  apply on_files_Ok in Hws as (fs2 & Hws & ->). cbn [files requests] in *.
  destruct (mkdir_p_Ok _ _ _ Hraw) as (Hdir1 & Hkeep1 & _).
  destruct (mkdir_p_Ok _ _ _ Hws) as (Hdir2 & Hkeep2 & _).
  assert (stat fs2 (raw_data_dir settings) = Some Dir) as Hdir1'.
  { destruct (raw_data_dir settings) as [|x dir]; [done|].
    rewrite stat_cons in *. by apply Hkeep2. }
  split_and!; try done.
  - intros q n Hq. by apply Hkeep2, Hkeep1.
  - unfold bind, on_files. cbn [files requests].
    rewrite (mkdir_p_is_dir _ _ Hdir1'). cbn [files requests].
    by rewrite (mkdir_p_is_dir _ _ Hdir2).
Qed.

End Directories.

Module SettingsExamples.
Import Examples.

(** [Path(...)] and [int(...)] on the strings of the examples. *)
Definition path_of (s : string) : path := [s].

Definition int_of (s : string) : result Z :=
  if String.eqb s "5" then Ok 5
  else if String.eqb s "7" then Ok 7
  else Raise (ValueError "invalid literal for int()").

(** [GPTLOV_TOP_K] is set to the empty string in both environments; the
    second one also has the old variable. *)
Definition env_empty_top_k : gmap string string :=
  <["GPTLOV_ARCHIVES" := "a.tar.bz2"]>
    (<["GPTLOV_TOP_K" := ""]>
       (<["GPTLOV_OPENAI_MODEL" := "gpt-4o"]>
          (<["GPTLOV_WORKSPACE_DIR" := "ws"]>
             (<["GPTLOV_RAW_DATA_DIR" := "raw"]> ∅)))).

Definition env_old_top_k : gmap string string :=
  <["LOVCHAT_TOP_K" := "7"]> env_empty_top_k.

Ltac each_setting Hname :=
  unfold SETTING_NAMES in Hname;
  repeat (apply elem_of_cons in Hname as [->|Hname]);
  [..|by apply elem_of_nil in Hname].

Lemma settings_gptlov_variable_hides_lovchat_witness :
  Settings_new env_old_top_k path_of int_of
  = Settings_new env_empty_top_k path_of int_of
  /\ top_k <$> Settings_new env_old_top_k path_of int_of = Ok 5.
Proof.
  assert (Settings_new env_old_top_k path_of int_of
          = Settings_new env_empty_top_k path_of int_of) as Heq.
  { apply settings_gptlov_variable_hides_lovchat.
    - intros name Hname. each_setting Hname; reflexivity.
    - intros name Hname. each_setting Hname; left; by eexists. }
  split; [exact Heq|]. rewrite Heq. reflexivity.
Defined.

(** An environment of [lovchat]. *)
Definition env_lovchat : gmap string string :=
  <["LOVCHAT_TOP_K" := "7"]> (<["LOVCHAT_OPENAI_MODEL" := "gpt-4o"]> ∅).

Lemma settings_agree_with_lovchat_witness :
  Lovchat.Settings_new env_lovchat path_of int_of
  = legacy_view <$> Settings_new env_lovchat path_of int_of
  /\ Lovchat.top_k <$> Lovchat.Settings_new env_lovchat path_of int_of = Ok 7.
Proof.
  split; [|reflexivity].
  apply settings_agree_with_lovchat.
  - intros name Hname. each_setting Hname; reflexivity.
  - intros name Hname. each_setting Hname; vm_compute; discriminate.
Defined.

Definition env_archives : gmap string string :=
  {["GPTLOV_ARCHIVES" := "a.tar.bz2,b.tar.bz2"]}.

Lemma settings_archives_from_environment_witness :
  archives (Settings_post_init env_archives settings5)
  = ["a.tar.bz2"; "b.tar.bz2"].
Proof.
  apply (settings_archives_from_environment env_archives settings5
           ["a.tar.bz2"; "b.tar.bz2"]).
  - discriminate.
  - repeat constructor; try discriminate;
      unfold no_comma; cbn [list_ascii_of_string In]; intuition discriminate.
  - reflexivity.
Defined.

(** A list with blanks and an empty part, and no list at all. *)
Definition env_untidy : gmap string string :=
  {["LOVCHAT_ARCHIVES" := " a.tar.bz2 ,, b.tar.bz2"]}.

Lemma settings_archives_are_clean_witness :
  Forall (fun name => name <> EmptyString /\ strip name = name)
         (archives (Settings_post_init env_untidy settings5))
  /\ archives (Settings_post_init env_untidy settings5)
     = ["a.tar.bz2"; "b.tar.bz2"]
  /\ archives (Settings_post_init ∅ settings5) <> [].
Proof.
  split_and!.
  - apply (settings_archives_are_clean env_untidy settings5).
    vm_compute. discriminate.
  - reflexivity.
  - apply (settings_archives_are_clean ∅ settings5). reflexivity.
Defined.

(** Creating the two directories of [settings5] on an empty disk. *)
Lemma ensure_directories_idempotent_witness :
  exists w',
    ensure_directories settings5 (World ∅ []) = (Ok tt, w')
    /\ stat (files w') ["raw"; "data"] = Some Dir
    /\ stat (files w') ["workspace"; "data"] = Some Dir
    /\ ensure_directories settings5 w' = (Ok tt, w').
Proof.
  assert (fst (ensure_directories settings5 (World ∅ [])) = Ok tt) as Hok
    by (vm_compute; reflexivity).
  destruct (ensure_directories settings5 (World ∅ [])) as [r w'] eqn:Hrun.
  cbn [fst] in Hok. subst r.
  destruct (ensure_directories_idempotent _ _ _ Hrun)
    as (Hraw & Hws & _ & _ & Hagain).
  exists w'. split; [reflexivity|]. split; [exact Hraw|].
  split; [exact Hws|exact Hagain].
Defined.

End SettingsExamples.
